(** * node-mencoder: the process-supervision core of [lib/processor.js]
      and the binary-path cache of [lib/capabilities.js]

    A shallow embedding of the event-driven code.  Every closure of the
    source becomes a record of its captured variables, every event
    handler a function from that record to the updated record and the
    list of actions it performs (callbacks invoked, events emitted,
    processes spawned or killed, log lines).  The Node.js runtime is the
    environment: it delivers events, answers file-system and search-path
    queries, and hands out process handles. *)

From stdpp Require Import gmap strings list pretty.

Open Scope string_scope.
Open Scope list_scope.
Open Scope Z_scope.

(* ===================================================================== *)
(** * JavaScript values used by the code                                  *)
(* ===================================================================== *)

Module Js.

(** [new Error(msg)]: only the [message] property is ever read. *)
Record Error := mkError { message : string }.

(** A command-line token: the option lists hold strings, and the
    niceness rewrite pushes a number into the array. *)
Inductive token :=
| TStr (s : string)
| TNum (n : Z).

(** What is thrown or passed as [err]: an [Error] object, or the string
    obtained when an [Error] is concatenated with a string. *)
Inductive ErrVal :=
| EObj (e : Error)
| EStr (s : string).

(** An argument that is a string, [null] or left out ([undefined]). *)
Inductive Captured :=
| Undefined
| Null
| Text (s : string).

(** Truthiness of a string: only [''] is falsy. *)
Definition str_truthy (s : string) : bool :=
  match s with EmptyString => false | _ => true end.

(** Truthiness of a number or [null]/[undefined]. *)
Definition num_truthy (n : option Z) : bool :=
  match n with Some k => negb (k =? 0) | None => false end.

(** Truthiness of a string or [null]/[undefined]. *)
Definition optstr_truthy (s : option string) : bool :=
  match s with Some t => str_truthy t | None => false end.

(** String coercion of a token, as [Array.prototype.join] and [+] do. *)
Definition tok_str (t : token) : string :=
  match t with TStr s => s | TNum n => pretty n end.

(** [arr.join(sep)] *)
Fixpoint join (sep : string) (l : list token) : string :=
  match l with
  | [] => ""
  | [t] => tok_str t
  | t :: rest => tok_str t +:+ sep +:+ join sep rest
  end.

(** [str.match(/pat/)] for a pattern without metacharacters: [pat]
    occurs in [str]. *)
Fixpoint contains (pat s : string) : bool :=
  String.prefix pat s ||
  match s with
  | EmptyString => false
  | String _ rest => contains pat rest
  end.

End Js.
Import Js.

(* ===================================================================== *)
(** * lib/capabilities.js: the binary-path cache                          *)
(* ===================================================================== *)

Module Capabilities.

(** What the path lookups ask of the outside world.  [which] is
    [utils.which] (lib/utils.js is not part of the sources at hand): it
    calls back with an error or with a path, [''] when nothing is
    found.  [sibling p name] is
    [path.join(path.dirname(p), name)]. *)
Record Env := mkEnv {
  env_var : string → option string;
  fs_exists : string → bool;
  which : string → Error + string;
  sibling : string → string → string
}.

(** A query made to the environment. *)
Inductive Probe :=
| ReadEnv (name : string)
| FsExists (p : string)
| Which (name : string).

(** The module-level [cache] object, restricted to its three path
    keys.  [k in cache] is [is_Some (cache !! k)]. *)
Abbreviation Cache := (gmap string string).

(** Callback-passing code with the cache as state, the probes as a log
    and [cb(err)] as failure: [async.waterfall] is [bind], since it
    skips the remaining steps on the first error. *)
Definition M (A : Type) : Type := Cache → Cache * list Probe * (Error + A).

Definition ret {A} (a : A) : M A := λ c, (c, [], inr a).
Definition fail {A} (e : Error) : M A := λ c, (c, [], inl e).
Definition bind {A B} (m : M A) (f : A → M B) : M B :=
  λ c, match m c with
       | (c1, l1, inl e) => (c1, l1, inl e)
       | (c1, l1, inr a) =>
           match f a c1 with (c2, l2, r) => (c2, l1 ++ l2, r) end
       end.
Definition probe {A} (p : Probe) (a : A) : M A := λ c, (c, [p], inr a).
Definition lookup_cache (k : string) : M (option string) :=
  λ c, (c, [], inr (c !! k)).
Definition store (k v : string) : M string :=
  λ c, (<[k := v]> c, [], inr v).

Notation "'let*' x ':=' m 'in' f" := (bind m (λ x, f))
  (at level 10, x name, m at level 100, f at level 200).

Section Lookups.
Context (isWindows : bool) (e : Env).

(** [if (process.env.X) fs.exists(process.env.X, ...) else cb(null, '')]:
    the variable's value if it is set, non-empty and names an existing
    file, [''] otherwise. *)
Definition tryEnv (name : string) : M string :=
  let* v := probe (ReadEnv name) (env_var e name) in
  match v with
  | Some p =>
      if str_truthy p
      then let* ex := probe (FsExists p) (fs_exists e p) in
           ret (if ex : bool then p else "")
      else ret ""
  | None => ret ""
  end.

(** [if (found.length) return cb(null, found); utils.which(name, ...)] *)
Definition orWhich (name : string) (found : string) : M string :=
  if str_truthy found then ret found
  else let* r := probe (Which name) (which e name) in
       match r with
       | inl err => fail err
       | inr p => ret p
       end.

(** [proto._getMencoderPath] *)
Definition _getMencoderPath : M string :=
  let* hit := lookup_cache "mencoderPath" in
  match hit with
  | Some p => ret p
  | None =>
      let* mencoder := tryEnv "MENCODER_PATH" in
      let* mencoder := orWhich "mencoder" mencoder in
      store "mencoderPath" mencoder
  end.

(** [proto._getFfprobePath] *)
Definition _getFfprobePath : M string :=
  let* hit := lookup_cache "ffprobePath" in
  match hit with
  | Some p => ret p
  | None =>
      let* ffprobe := tryEnv "FFPROBE_PATH" in
      let* ffprobe := orWhich "ffprobe" ffprobe in
      let* ffprobe :=
        (if str_truthy ffprobe then ret ffprobe
         else
           let* mencoder := _getMencoderPath in
           if str_truthy mencoder
           then
             let name := if isWindows then "ffprobe.exe" else "ffprobe" in
             let candidate := sibling e mencoder name in
             let* ex := probe (FsExists candidate) (fs_exists e candidate) in
             ret (if ex : bool then candidate else "")
           else ret "") in
      store "ffprobePath" ffprobe
  end.

(** [proto._getFlvtoolPath] *)
Definition _getFlvtoolPath : M string :=
  let* hit := lookup_cache "flvtoolPath" in
  match hit with
  | Some p => ret p
  | None =>
      let* flvtool := tryEnv "FLVMETA_PATH" in
      let* flvtool :=
        (if str_truthy flvtool then ret flvtool
         else tryEnv "FLVTOOL2_PATH") in
      let* flvtool := orWhich "flvmeta" flvtool in
      let* flvtool := orWhich "flvtool2" flvtool in
      store "flvtoolPath" flvtool
  end.

End Lookups.

(** [proto._forgetPaths] *)
Definition _forgetPaths (c : Cache) : Cache :=
  delete "flvtoolPath" (delete "ffprobePath" (delete "mencoderPath" c)).

(** [proto.setMencoderPath], [setFfprobePath], [setFlvtoolPath] *)
Definition setMencoderPath (p : string) (c : Cache) : Cache :=
  <["mencoderPath" := p]> c.
Definition setFfprobePath (p : string) (c : Cache) : Cache :=
  <["ffprobePath" := p]> c.
Definition setFlvtoolPath (p : string) (c : Cache) : Cache :=
  <["flvtoolPath" := p]> c.

(** The three lookups under one name. *)
Inductive Binary := Mencoder | Ffprobe | Flvtool.

Definition cacheKey (b : Binary) : string :=
  match b with
  | Mencoder => "mencoderPath"
  | Ffprobe => "ffprobePath"
  | Flvtool => "flvtoolPath"
  end.

Definition getPath (isWindows : bool) (e : Env) (b : Binary) : M string :=
  match b with
  | Mencoder => _getMencoderPath e
  | Ffprobe => _getFfprobePath isWindows e
  | Flvtool => _getFlvtoolPath e
  end.

(** [n] calls in a row, each in its own environment; the results in
    call order. *)
Fixpoint getPathN (isWindows : bool) (b : Binary) (es : list Env) (c : Cache)
  : Cache * list Probe * list (Error + string) :=
  match es with
  | [] => (c, [], [])
  | e :: rest =>
      match getPath isWindows e b c with
      | (c1, l1, r) =>
          match getPathN isWindows b rest c1 with
          | (c2, l2, rs) => (c2, l1 ++ l2, r :: rs)
          end
      end
  end.

(** [setMencoderPath], [setFfprobePath] and [setFlvtoolPath] under one
    name. *)
Definition setPath (b : Binary) (p : string) (c : Cache) : Cache :=
  match b with
  | Mencoder => setMencoderPath p c
  | Ffprobe => setFfprobePath p c
  | Flvtool => setFlvtoolPath p c
  end.

(** The environment variable each lookup reads first. *)
Definition firstVariable (b : Binary) : string :=
  match b with
  | Mencoder => "MENCODER_PATH"
  | Ffprobe => "FFPROBE_PATH"
  | Flvtool => "FLVMETA_PATH"
  end.

End Capabilities.

Import Capabilities.

(* ===================================================================== *)
(** * The command object and lib/utils.js                                 *)
(* ===================================================================== *)

(** [codecData] event payload. *)
Record CodecData := mkCodecData {
  format : string;
  audio_codec : string;
  audio_details : string;
  video_codec : string;
  video_details : string
}.

(** The members of [require('./utils')] the processor calls.  The file is
    not part of the sources at hand, so its functions are parameters.
    [extractProgress stdout duration] stands for the progress events that
    [utils.extractProgress(self, stdout, duration)] emits; [parseBanner]
    for the banner recognition inside [utils.extractCodecData]. *)
Class Utils := {
  isWindows : bool;
  FilterSpec : Type;
  makeFilterStrings : list FilterSpec → list token;
  Progress : Type;
  extractProgress : string → Z → list Progress;
  extractError : string → string;
  parseBanner : string → option CodecData
}.

(** [input.source]: a path or URI string, or a readable stream. *)
Inductive Source :=
| SrcPath (s : string)
| SrcStream.

(** The value of [output.target] when the key is present: a path string
    or a writable stream. *)
Inductive Target :=
| TgtPath (s : string)
| TgtStream.

Record Input := mkInput {
  source : Source;
  in_options : list token            (* input.options.get() *)
}.

Section WithUtils.
Context `{Utils}.

(** An element of [_outputs].  [target = None] is an output object
    without the [target] key, as the constructor's [this.output()]
    leaves it. *)
Record Output := mkOutput {
  target : option Target;
  isFile : bool;
  flvmeta : bool;                    (* output.flags.flvmeta *)
  audio : list token;                (* output.audio.get() *)
  audioFilters : list token;
  video : list token;
  videoFilters : list token;
  sizeFilters : list FilterSpec;
  out_options : list token           (* output.options.get() *)
}.

(** A [MencoderCommand].  [_ffprobeData] keeps only
    [format.duration], as an integer; the two listener counts are
    [listeners('progress').length] and [listeners('codecData').length].
    [logger] tells whether the property [logger] holds an object with the
    methods [warn], [debug] and [info].  The constructor does not assign
    it and no method of processor.js does: on a command as the
    constructor leaves it [logger] is [false], [this.logger] is
    [undefined], and [this.logger.warn(...)] throws a [TypeError]. *)
Record Command := mkCommand {
  _inputs : list Input;
  _outputs : list Output;
  _global : list token;
  _complexFilters : list token;
  opt_niceness : Z;                  (* options.niceness *)
  opt_timeout : option Z;            (* options.timeout *)
  mencoderProc : option nat;         (* pid of the live process *)
  _codecDataSent : bool;
  _ffprobeData : option Z;
  progressListeners : nat;
  codecDataListeners : nat;
  logger : bool
}.

(** ** [proto._getArguments] *)

(** [(typeof input.source === 'string') ? input.source : 'pipe:0'] *)
Definition sourceName (i : Input) : string :=
  match source i with SrcPath s => s | SrcStream => "pipe:0" end.

(** [!output.target]: no key, or the empty string. *)
Definition target_falsy (o : Output) : bool :=
  match target o with
  | None => true
  | Some (TgtPath s) => negb (str_truthy s)
  | Some TgtStream => false
  end.

Definition outputArg (o : Output) : list token :=
  if target_falsy o then []
  else match target o with
       | Some (TgtPath s) => [TStr "-o"; TStr s]
       | _ => [TStr "pipe:1"]
       end.

(** [arr.length ? [flag, arr.join(',')] : []] *)
Definition filterArg (flag : string) (filters : list token) : list token :=
  match filters with
  | [] => []
  | _ => [TStr flag; TStr (join "," filters)]
  end.

(** The callback of [this._inputs.reduce]. *)
Definition addInput (args : list token) (input : Input) : list token :=
  args ++ (in_options input ++ [TStr ("mf://" +:+ sourceName input)]).

(** The callback of [this._outputs.reduce]. *)
Definition addOutput (args : list token) (output : Output) : list token :=
  let sizeFilters := makeFilterStrings (sizeFilters output) in
  let audioFilters := audioFilters output in
  let videoFilters := videoFilters output ++ sizeFilters in
  args ++ (audio output ++ filterArg "-af" audioFilters ++
           video output ++ filterArg "-vf" videoFilters ++
           out_options output ++ outputArg output).

(** The function only reads: [get], [concat], [reduce] and [join] build
    new arrays.  It returns the command it was given next to the list. *)
Definition _getArguments (self : Command) : Command * list token :=
  let complexFilters := _complexFilters self in
  (self,
   [] ++ (fold_left addInput (_inputs self) [] ++
          _global self ++
          complexFilters ++
          fold_left addOutput (_outputs self) [])).

(** The order as the specification words it, for comparison: for each
    output, "audio option tokens, a single joined audio-filter token
    only if any audio filters exist, video option tokens, a single
    joined video+size-filter token only if any exist, output option
    tokens, and finally the output locator". *)
Definition spec_joined (filters : list token) : list token :=
  match filters with
  | [] => []
  | _ => [TStr (join "," filters)]
  end.

Definition spec_inputTokens (i : Input) : list token :=
  in_options i ++ [TStr ("mf://" +:+ sourceName i)].

Definition spec_outputTokens (o : Output) : list token :=
  audio o ++ spec_joined (audioFilters o) ++
  video o ++ spec_joined (videoFilters o ++ makeFilterStrings (sizeFilters o)) ++
  out_options o ++ outputArg o.

Definition spec_getArguments (self : Command) : list token :=
  concat (map spec_inputTokens (_inputs self)) ++
  _global self ++ _complexFilters self ++
  concat (map spec_outputTokens (_outputs self)).

(** The order the code produces, in the same closed form. *)
Definition inputTokens (i : Input) : list token :=
  in_options i ++ [TStr ("mf://" +:+ sourceName i)].

Definition outputTokens (o : Output) : list token :=
  audio o ++ filterArg "-af" (audioFilters o) ++
  video o ++ filterArg "-vf" (videoFilters o ++ makeFilterStrings (sizeFilters o)) ++
  out_options o ++ outputArg o.

End WithUtils.

(* ===================================================================== *)
(** * The world outside the command, events and actions                   *)
(* ===================================================================== *)

(** The array store models JavaScript arrays passed by reference: an
    array is a location, and [unshift] updates the store in place.
    [spawn] hands out process handles, named by their pid; spawn failures
    arrive later, as the handle's ['error'] event. *)
Record World := mkWorld {
  env : Env;
  cache : gmap string string;
  heap : gmap nat (list token);
  next_pid : nat
}.

Definition set_cache (c : gmap string string) (w : World) : World :=
  mkWorld (env w) c (heap w) (next_pid w).
Definition set_heap (h : gmap nat (list token)) (w : World) : World :=
  mkWorld (env w) (cache w) h (next_pid w).
Definition bump_pid (w : World) : World :=
  mkWorld (env w) (cache w) (heap w) (S (next_pid w)).

(** The content of an array. *)
Definition deref (w : World) (a : nat) : list token :=
  default [] (heap w !! a).

(** A fresh array holding [l]. *)
Definition alloc (l : list token) (w : World) : World * nat :=
  let a := fresh (dom (heap w)) in
  (set_heap (<[a := l]> (heap w)) w, a).

(** Events of a child process and of its [stdout] and [stderr] streams. *)
Inductive ProcEvent :=
| PError (err : Error)
| PExit (code : option Z) (signal : option string)
| PStdoutData (data : string)
| PStdoutClose
| PStderrData (data : string)
| PStderrClose.

Section Actions.
Context `{Utils}.

(** Events the command emits. *)
Inductive Emitted :=
| StartEv (commandLine : string)
| ProgressEv (p : Progress)
| CodecDataEv (cd : CodecData)
| ErrorEv (err : ErrVal) (stdout stderr : Captured)
| EndEv (stdout stderr : Captured).

(** What a handler does to the outside, in program order. *)
Inductive Action :=
| ConsoleLog (s : string)
| LogWarn (s : string)
| LogDebug (s : string)
| Spawn (command : string) (args : list token)
| Kill (pid : nat) (signal : option string)
| SetTimeout (ms : Z)
| ProcessCB (pid : nat)
| EndCB (err : option Error) (stdout stderr : Captured)
| Emit (e : Emitted)
| Uncaught (e : Error).

End Actions.

(* ===================================================================== *)
(** * [proto._spawnMencoder]                                              *)
(* ===================================================================== *)

Module Supervisor.
Section Supervisor.
Context `{Utils}.

(** The [options] argument. [niceness = None] is a missing key. *)
Record SpawnOptions := mkOptions {
  niceness : option Z;
  captureStdout : bool;
  captureStderr : bool
}.

(** The variables the handlers close over. [stdout] and [stderr] are
    [null] ([None]) unless captured. *)
Record Closure := mkClosure {
  stdout : option string;
  stdoutClosed : bool;
  stderr : option string;
  stderrClosed : bool;
  exitError : option Error;
  processExited : bool
}.

Definition captured (s : option string) : Captured :=
  match s with Some t => Text t | None => Null end.

(** [buf += data] *)
Definition append (buf : option string) (data : string) : option string :=
  match buf with
  | Some t => Some (t +:+ data)
  | None => Some ("null" +:+ data)
  end.

(** [function handleExit(err)] *)
Definition handleExit (o : SpawnOptions) (err : option Error) (k : Closure)
  : Closure * list Action :=
  let k1 := match err with
            | Some e => mkClosure (stdout k) (stdoutClosed k) (stderr k)
                          (stderrClosed k) (Some e) (processExited k)
            | None => k
            end in
  if processExited k1 &&
     (stdoutClosed k1 || negb (captureStdout o)) &&
     (stderrClosed k1 || negb (captureStderr o))
  then (k1, [EndCB (exitError k1) (captured (stdout k1)) (captured (stderr k1))])
  else (k1, []).

(** ['' + code] *)
Definition code_str (code : option Z) : string :=
  match code with Some c => pretty c | None => "null" end.

(** The handlers [_spawnMencoder] registers on the process and on its
    streams.  The stream handlers exist only for a captured stream. *)
Definition handle (o : SpawnOptions) (k : Closure) (e : ProcEvent)
  : Closure * list Action :=
  match e with
  | PError err => (k, [EndCB (Some err) Undefined Undefined])
  | PExit code signal =>
      let k1 := mkClosure (stdout k) (stdoutClosed k) (stderr k)
                  (stderrClosed k) (exitError k) true in
      if optstr_truthy signal then
        handleExit o (Some (mkError ("mencoder was killed with signal " +:+
                                     default "" signal))) k1
      else if num_truthy code then
        handleExit o (Some (mkError ("mencoder exited with code " +:+
                                     code_str code))) k1
      else handleExit o None k1
  | PStdoutData data =>
      if captureStdout o
      then (mkClosure (append (stdout k) data) (stdoutClosed k) (stderr k)
              (stderrClosed k) (exitError k) (processExited k), [])
      else (k, [])
  | PStdoutClose =>
      if captureStdout o
      then handleExit o None
             (mkClosure (stdout k) true (stderr k) (stderrClosed k)
                (exitError k) (processExited k))
      else (k, [])
  | PStderrData data =>
      if captureStderr o
      then (mkClosure (stdout k) (stdoutClosed k) (append (stderr k) data)
              (stderrClosed k) (exitError k) (processExited k), [])
      else (k, [])
  | PStderrClose =>
      if captureStderr o
      then handleExit o None
             (mkClosure (stdout k) (stdoutClosed k) (stderr k) true
                (exitError k) (processExited k))
      else (k, [])
  end.

(** How the synchronous part of [_spawnMencoder] ends. *)
Inductive Outcome :=
| NotSpawned                              (* [return endCB(err)] *)
| Running (pid : nat) (k : Closure).

(** The closure as the body leaves it. *)
Definition initial (o : SpawnOptions) : Closure :=
  mkClosure (if captureStdout o then Some "" else None) false
            (if captureStderr o then Some "" else None) false
            None false.

(** [proto._spawnMencoder], up to and including [processCB(mencoderProc)].
    [args] is the caller's array. *)
Definition _spawnMencoder (w : World) (args : nat) (o : SpawnOptions)
  : World * list Probe * list Action * Outcome :=
  match _getMencoderPath (env w) (cache w) with
  | (c1, probes, inl err) =>
      (set_cache c1 w, probes, [EndCB (Some err) Undefined Undefined], NotSpawned)
  | (c1, probes, inr command) =>
      let w1 := set_cache c1 w in
      if negb (str_truthy command) then
        (w1, probes,
         [EndCB (Some (mkError "Cannot find mencoder")) Undefined Undefined],
         NotSpawned)
      else
        let '(w2, command2) :=
          match niceness o with
          | Some n =>
              if num_truthy (Some n) && negb isWindows
              then (set_heap (<[args := [TStr "-n"; TNum n; TStr command] ++
                                         deref w1 args]> (heap w1)) w1, "nice")
              else (w1, command)
          | None => (w1, command)
          end in
        let argv := deref w2 args in
        let pid := next_pid w2 in
        (bump_pid w2, probes,
         [ConsoleLog "Spawn command mencoder with arguments: ";
          ConsoleLog (command2 +:+ " " +:+ join " " argv);
          Spawn command2 argv;
          ProcessCB pid],
         Running pid (initial o))
  end.

(** The closure after a list of events, and every action on the way. *)
Fixpoint handleAll (o : SpawnOptions) (k : Closure) (es : list ProcEvent)
  : Closure * list Action :=
  match es with
  | [] => (k, [])
  | e :: rest =>
      let '(k1, a1) := handle o k e in
      let '(k2, a2) := handleAll o k1 rest in
      (k2, a1 ++ a2)
  end.

Definition isEndCB (a : Action) : bool :=
  match a with EndCB _ _ _ => true | _ => false end.

Definition isProcessCB (a : Action) : bool :=
  match a with ProcessCB _ => true | _ => false end.

Definition isExit (e : ProcEvent) : bool :=
  match e with PExit _ _ => true | _ => false end.
Definition isError (e : ProcEvent) : bool :=
  match e with PError _ => true | _ => false end.
Definition isStdoutClose (e : ProcEvent) : bool :=
  match e with PStdoutClose => true | _ => false end.
Definition isStderrClose (e : ProcEvent) : bool :=
  match e with PStderrClose => true | _ => false end.

(** ** Observations on a run of the supervisor *)

(** The test of [handleExit]. *)
Definition ready (o : SpawnOptions) (k : Closure) : bool :=
  processExited k &&
  (stdoutClosed k || negb (captureStdout o)) &&
  (stderrClosed k || negb (captureStderr o)).

(** The events [handleExit] is called on. *)
Definition awaited (o : SpawnOptions) (e : ProcEvent) : bool :=
  match e with
  | PExit _ _ => true
  | PStdoutClose => captureStdout o
  | PStderrClose => captureStderr o
  | _ => false
  end.

(** An exit with a signal or with a non-zero code. *)
Definition failedExit (e : ProcEvent) : bool :=
  match e with
  | PExit code signal => optstr_truthy signal || num_truthy code
  | _ => false
  end.

Definition stdoutChunks (es : list ProcEvent) : list string :=
  omap (λ e, match e with PStdoutData d => Some d | _ => None end) es.

Definition stderrChunks (es : list ProcEvent) : list string :=
  omap (λ e, match e with PStderrData d => Some d | _ => None end) es.

(** The chunks in one string. *)
Definition glue (chunks : list string) : string := foldr String.append "" chunks.

(** What a captured buffer holds after [es]. *)
Definition buffer (capture : bool) (chunks : list string) : Captured :=
  if capture then Text (glue chunks) else Null.

(** The number of [endCB] calls among some actions. *)
Definition endCBs (acts : list Action) : nat := length (List.filter isEndCB acts).

(** A run of [_spawnMencoder]: its synchronous part, then the events of
    the process. *)
Definition supervise (w : World) (args : nat) (o : SpawnOptions)
    (es : list ProcEvent) : list Action :=
  match _spawnMencoder w args o with
  | (_, _, acts, Running _ k) => acts ++ (handleAll o k es).2
  | (_, _, acts, NotSpawned) => acts
  end.

(** [buf += data], chunk after chunk. *)
Definition feed (buf : option string) (chunks : list string) : option string :=
  fold_left append chunks buf.

(** The events still to come fit the closure: no ['error'], and each
    awaited event once if it was not yet observed, never otherwise. *)
Definition fits (o : SpawnOptions) (k : Closure) (es : list ProcEvent) : Prop :=
  existsb isError es = false ∧
  length (List.filter isExit es) = (if processExited k then 0 else 1)%nat ∧
  (captureStdout o = true →
   length (List.filter isStdoutClose es) = (if stdoutClosed k then 0 else 1)%nat) ∧
  (captureStderr o = true →
   length (List.filter isStderrClose es) = (if stderrClosed k then 0 else 1)%nat).

End Supervisor.
End Supervisor.

(* ===================================================================== *)
(** * [proto.run], [proto._prepare], [proto.renice], [proto.kill]        *)
(* ===================================================================== *)

Module Run.
Section Run.
Context `{Utils}.
Import Supervisor.

(** One [async.each(flvmeta, iterator, callback)] in flight: the
    outputs being rewritten, which iterator callbacks were called
    ([only_once]), the count of successes, and whether the final
    callback was replaced by the empty function. *)
Record Flv := mkFlv {
  flvtool : string;
  items : list Output;
  called : gset nat;
  completed : nat;
  finished : bool
}.

(** The variables of one call of [run]: [self], the closure variables
    [ended], [stdout] ([out]), [stderr] ([err]), [args], [inputStream],
    [outputStream] (its [target], once found), and what was registered:
    the process handle with the supervisor's closure, the deadline
    timer, the pending 20 ms timers, the rewriter batches.  [registered]
    tells whether [processCB] ran to its end: the handlers of the output
    stream, of the data of stdout and of the data of stderr are
    registered last, after the call of [pipe], which may throw. *)
Record State := mkState {
  self : Command;
  world : World;
  ended : bool;
  out : option string;
  err : string;
  args : nat;
  opts : SpawnOptions;
  inputStream : bool;
  outputStream : option (option Target);
  proc : option (nat * Closure);
  timer : bool;
  killTimers : nat;
  flvs : list Flv;
  registered : bool
}.

Definition with_self (c : Command) (s : State) : State :=
  mkState c (world s) (ended s) (out s) (err s) (args s) (opts s)
    (inputStream s) (outputStream s) (proc s) (timer s) (killTimers s) (flvs s)
    (registered s).
Definition with_world (w : World) (s : State) : State :=
  mkState (self s) w (ended s) (out s) (err s) (args s) (opts s)
    (inputStream s) (outputStream s) (proc s) (timer s) (killTimers s) (flvs s)
    (registered s).
Definition with_ended (b : bool) (s : State) : State :=
  mkState (self s) (world s) b (out s) (err s) (args s) (opts s)
    (inputStream s) (outputStream s) (proc s) (timer s) (killTimers s) (flvs s)
    (registered s).
Definition with_out (o : option string) (s : State) : State :=
  mkState (self s) (world s) (ended s) o (err s) (args s) (opts s)
    (inputStream s) (outputStream s) (proc s) (timer s) (killTimers s) (flvs s)
    (registered s).
Definition with_err (e : string) (s : State) : State :=
  mkState (self s) (world s) (ended s) (out s) e (args s) (opts s)
    (inputStream s) (outputStream s) (proc s) (timer s) (killTimers s) (flvs s)
    (registered s).
Definition with_proc (p : option (nat * Closure)) (s : State) : State :=
  mkState (self s) (world s) (ended s) (out s) (err s) (args s) (opts s)
    (inputStream s) (outputStream s) p (timer s) (killTimers s) (flvs s)
    (registered s).
Definition with_timer (b : bool) (s : State) : State :=
  mkState (self s) (world s) (ended s) (out s) (err s) (args s) (opts s)
    (inputStream s) (outputStream s) (proc s) b (killTimers s) (flvs s)
    (registered s).
Definition with_killTimers (n : nat) (s : State) : State :=
  mkState (self s) (world s) (ended s) (out s) (err s) (args s) (opts s)
    (inputStream s) (outputStream s) (proc s) (timer s) n (flvs s)
    (registered s).
Definition with_flvs (l : list Flv) (s : State) : State :=
  mkState (self s) (world s) (ended s) (out s) (err s) (args s) (opts s)
    (inputStream s) (outputStream s) (proc s) (timer s) (killTimers s) l
    (registered s).
Definition with_registered (b : bool) (s : State) : State :=
  mkState (self s) (world s) (ended s) (out s) (err s) (args s) (opts s)
    (inputStream s) (outputStream s) (proc s) (timer s) (killTimers s) (flvs s)
    b.

Definition set_outputs (l : list Output) (c : Command) : Command :=
  mkCommand (_inputs c) l (_global c) (_complexFilters c) (opt_niceness c)
    (opt_timeout c) (mencoderProc c) (_codecDataSent c) (_ffprobeData c)
    (progressListeners c) (codecDataListeners c) (logger c).
Definition set_niceness (n : Z) (c : Command) : Command :=
  mkCommand (_inputs c) (_outputs c) (_global c) (_complexFilters c) n
    (opt_timeout c) (mencoderProc c) (_codecDataSent c) (_ffprobeData c)
    (progressListeners c) (codecDataListeners c) (logger c).
Definition set_mencoderProc (p : option nat) (c : Command) : Command :=
  mkCommand (_inputs c) (_outputs c) (_global c) (_complexFilters c)
    (opt_niceness c) (opt_timeout c) p (_codecDataSent c) (_ffprobeData c)
    (progressListeners c) (codecDataListeners c) (logger c).
Definition set_codecDataSent (b : bool) (c : Command) : Command :=
  mkCommand (_inputs c) (_outputs c) (_global c) (_complexFilters c)
    (opt_niceness c) (opt_timeout c) (mencoderProc c) b (_ffprobeData c)
    (progressListeners c) (codecDataListeners c) (logger c).
Definition set_ffprobeData (d : option Z) (c : Command) : Command :=
  mkCommand (_inputs c) (_outputs c) (_global c) (_complexFilters c)
    (opt_niceness c) (opt_timeout c) (mencoderProc c) (_codecDataSent c) d
    (progressListeners c) (codecDataListeners c) (logger c).
Definition set_flvmeta (b : bool) (o : Output) : Output :=
  mkOutput (target o) (isFile o) b (audio o) (audioFilters o) (video o)
    (videoFilters o) (sizeFilters o) (out_options o).

(** ** [function emitEnd(err, stdout, stderr)] *)

Definition err_truthy (e : option ErrVal) : bool :=
  match e with
  | Some (EObj _) => true
  | Some (EStr s) => str_truthy s
  | None => false
  end.

Definition emitEnd (e : option ErrVal) (so se : Captured) (s : State)
  : State * list Action :=
  if ended s then (s, [])
  else
    (with_ended true s,
     [Emit (match e with
            | Some v => if err_truthy e then ErrorEv v so se else EndEv so se
            | None => EndEv so se
            end)]).

(** ** [proto._prepare(callback)], [readMetadata] left out *)

(** The callback of [self._outputs.some(function(output) {...})] on one
    output, up to its [return]: on a non-file output with the flag,
    [self.logger.warn(...)] comes first and the flag is cleared after
    it.  With [lg] the command's [logger]: without a logger the call
    throws, and the flag is not cleared. *)
Definition clearFlag (lg : bool) (o : Output) : Error + (Output * list Action) :=
  if flvmeta o && negb (isFile o) then
    if lg
    then inr (set_flvmeta false o,
              [LogWarn "Updating flv metadata is only supported for files"])
    else inl (mkError "TypeError")
  else inr (o, []).

(** [self._outputs.some(...)]: [some] stops at the first output whose
    flag is still set after the callback, and at an exception.  The
    result is the outputs as they are left, what was logged, and the
    exception or the value of [some]. *)
Fixpoint checkFlvmeta (lg : bool) (outs : list Output)
  : list Output * list Action * (Error + bool) :=
  match outs with
  | [] => ([], [], inr false)
  | o :: rest =>
      match clearFlag lg o with
      | inl e => (o :: rest, [], inl e)
      | inr (o1, warn) =>
          if flvmeta o1 then (o1 :: rest, warn, inr true)
          else let '(rest1, warn1, r) := checkFlvmeta lg rest in
               (o1 :: rest1, warn ++ warn1, r)
      end
  end.

(** How [_prepare] ends: an exception escapes from a task of the
    waterfall, or [callback] receives an error, or it receives the
    arguments, in a new array. *)
Inductive Prepared :=
| PThrew (e : Error)
| PFailed (e : Error)
| PReady (args : nat).

Definition _prepare (w : World) (c : Command)
  : World * Command * list Probe * list Action * Prepared :=
  let '(outs, warns, checked) := checkFlvmeta (logger c) (_outputs c) in
  let c1 := set_outputs outs c in
  match checked with
  | inl e => (w, c1, [], warns, PThrew e)
  | inr found =>
      let '(w1, probes, failure) :=
        if found : bool then
          match _getFlvtoolPath (env w) (cache w) with
          | (cch, pr, inl e) => (set_cache cch w, pr, Some e)
          | (cch, pr, inr _) => (set_cache cch w, pr, None)
          end
        else (w, [], None) in
      match failure with
      | Some e => (w1, c1, probes, warns, PFailed e)
      | None =>
          let '(c2, l) := _getArguments c1 in
          let '(w2, a) := alloc l w1 in
          (w2, c2, probes, warns, PReady a)
      end
  end.

(** ** The [endCB] that [run] passes to [_spawnMencoder] *)

(** [' on ' + output.target] *)
Definition target_str (o : Output) : string :=
  match target o with
  | Some (TgtPath s) => s
  | Some TgtStream => "[object Object]"
  | None => "undefined"
  end.

Definition endCB (e : option Error) (s : State) : State * list Action :=
  let s1 := with_self (set_mencoderProc None (self s)) s in
  match e with
  | Some er =>
      let er1 :=
        if contains "mencoder exited with code" (message er)
        then mkError (message er +:+ ": " +:+ extractError (err s1))
        else er in
      emitEnd (Some (EObj er1)) (captured (out s1)) (Text (err s1)) s1
  | None =>
      match List.filter flvmeta (_outputs (self s1)) with
      | [] => emitEnd None (captured (out s1)) (Text (err s1)) s1
      | todo =>
          match _getFlvtoolPath (env (world s1)) (cache (world s1)) with
          | (cch, _, r) =>
              let tool := match r with inr p => p | inl _ => "undefined" end in
              (with_flvs (flvs s1 ++ [mkFlv tool todo ∅ 0 false])
                 (with_world (set_cache cch (world s1)) s1),
               map (λ o, Spawn tool [TStr "-U"; TStr (target_str o)]) todo)
          end
      end
  end.

(** The callbacks among the supervisor's actions are calls into [run]:
    each [EndCB] in the list is followed by what [endCB] does. *)
Fixpoint onSup (acts : list Action) (s : State) : State * list Action :=
  match acts with
  | [] => (s, [])
  | a :: rest =>
      let '(s1, a1) := match a with
                       | EndCB e _ _ => endCB e s
                       | _ => (s, [])
                       end in
      let '(s2, a2) := onSup rest s1 in
      (s2, a :: a1 ++ a2)
  end.

(** ** The handlers [processCB] registers *)

(** [mencoderProc.kill()], on the handle [processCB] received. *)
Definition killProc (s : State) : list Action :=
  match proc s with
  | Some (pid, _) => [Kill pid None]
  | None => []
  end.

(** Modelled from the spec: [utils.extractCodecData(self, stderr)] of
    lib/utils.js, which is missing.  "Scans accumulated stderr for a
    one-time input codec summary banner.  Emits at most one event per
    run, gated by the Run State's codec-banner latch": when the banner
    is found, the event is emitted and the latch is set. *)
Definition extractCodecData (stderr : string) (c : Command)
  : Command * list Action :=
  match parseBanner stderr with
  | Some cd => (set_codecDataSent true c, [Emit (CodecDataEv cd)])
  | None => (c, [])
  end.

(** [mencoderProc.stdout.on('data', ...)], registered when there is no
    output stream. *)
Definition onStdoutData (data : string) (s : State) : State * list Action :=
  let s1 := with_out (append (out s) data) s in
  let progress :=
    if (0 <? progressListeners (self s1))%nat then
      let duration := match _ffprobeData (self s1) with
                      | Some d => d
                      | None => 0
                      end in
      map (λ p, Emit (ProgressEv p))
          (extractProgress (default "" (out s1)) duration)
    else [] in
  (s1, ConsoleLog ("=====" +:+ data) :: progress).

(** [mencoderProc.stderr.on('data', ...)] *)
Definition onStderrData (data : string) (s : State) : State * list Action :=
  let s1 := with_err (err s +:+ data) s in
  let '(c, emitted) :=
    if negb (_codecDataSent (self s1)) &&
       (0 <? codecDataListeners (self s1))%nat
    then extractCodecData (err s1) (self s1)
    else (self s1, []) in
  (with_self c s1, ConsoleLog ("****** " +:+ data) :: emitted).

(** The callback [async.each] hands to the iterator for item [i] of batch
    [b], as the async library documents it: a second call for the same
    item throws ([only_once]); the first error is passed to the final
    callback at once, which is then replaced by the empty function; the
    final callback is called without error once every item has
    succeeded. *)
Definition flvCallback (b i : nat) (e : option ErrVal) (s : State)
  : State * list Action :=
  match flvs s !! b with
  | None => (s, [])
  | Some f =>
      match items f !! i with
      | None => (s, [])
      | Some _ =>
          if bool_decide (i ∈ called f)
          then (s, [Uncaught (mkError "Callback was already called.")])
          else
            let called1 := {[i]} ∪ called f in
            if err_truthy e then
              (* callback(err); callback = function() {}; *)
              let '(s1, a) := if finished f then (s, [])
                              else emitEnd e Undefined Undefined s in
              (with_flvs (<[b := mkFlv (flvtool f) (items f) called1
                                   (completed f) true]> (flvs s1)) s1, a)
            else
              (* completed += 1; if (completed >= arr.length) callback(null); *)
              let n := S (completed f) in
              let '(s1, a) :=
                if (length (items f) <=? n)%nat && negb (finished f)
                then emitEnd None (captured (out s)) (Text (err s)) s
                else (s, []) in
              (with_flvs (<[b := mkFlv (flvtool f) (items f) called1 n
                                   (finished f)]> (flvs s1)) s1, a)
      end
  end.

(** [code !== 0] *)
Definition code_not_zero (code : option Z) : bool :=
  match code with Some c => negb (c =? 0) | None => true end.

(** Events the environment can deliver to a run: of the mencoder
    process, of the input and output streams, of the timers, of the
    metadata probe started by [runFfprobe], and of the [i]-th rewriter
    process of batch [b]. *)
Inductive Event :=
| Proc (e : ProcEvent)
| InputError (msg : string)
| Timeout
| OutputClose
| KillTimer
| OutputError (msg : string)
| FfprobeDone (duration : option Z)
| FlvError (b i : nat) (er : Error)
| FlvExit (b i : nat) (code : option Z) (signal : option string).

(** One event, dispatched to the handlers registered for it, in
    registration order.  An event without a registered handler changes
    nothing.  A handler whose first statement is [self.logger.debug(...)]
    throws there when the command has no logger: the exception leaves
    the handler, to the emitter of the event, and nothing else of the
    handler is executed. *)
Definition step (s : State) (ev : Event) : State * list Action :=
  match ev with
  | Proc e =>
      match proc s with
      | None => (s, [])
      | Some (pid, k) =>
          let '(k1, a1) := handle (opts s) k e in
          let '(s1, a2) := onSup a1 (with_proc (Some (pid, k1)) s) in
          let '(s2, a3) :=
            match e with
            | PStdoutData data =>
                match registered s1, outputStream s1 with
                | true, None => onStdoutData data s1
                | _, _ => (s1, [])
                end
            | PStderrData data =>
                if registered s1 then onStderrData data s1 else (s1, [])
            | _ => (s1, [])
            end in
          (s2, a2 ++ a3)
      end
  | InputError msg =>
      if inputStream s && bool_decide (is_Some (proc s)) then
        let '(s1, a) := emitEnd (Some (EObj (mkError ("Input stream error: " +:+ msg))))
                          Undefined Undefined s in
        (s1, a ++ killProc s1)
      else (s, [])
  | Timeout =>
      if timer s then
        let msg := "process ran into a timeout (" +:+
                   match opt_timeout (self s) with
                   | Some t => pretty t
                   | None => "undefined"
                   end +:+ "s)" in
        let '(s1, a) := emitEnd (Some (EObj (mkError msg)))
                          (captured (out s)) (Text (err s)) (with_timer false s) in
        (s1, a ++ killProc s1)
      else (s, [])
  | OutputClose =>
      match outputStream s, proc s with
      | Some _, Some _ =>
          if negb (registered s) then (s, [])
          else if logger (self s) then
            (with_killTimers (S (killTimers s)) s,
             [LogDebug "Output stream closed, scheduling kill for ffmpgeg process";
              SetTimeout 20])
          else (s, [Uncaught (mkError "TypeError")])
      | _, _ => (s, [])
      end
  | KillTimer =>
      match killTimers s with
      | O => (s, [])
      | S n =>
          let '(s1, a) := emitEnd (Some (EObj (mkError "Output stream closed")))
                            Undefined Undefined (with_killTimers n s) in
          (s1, a ++ killProc s1)
      end
  | OutputError msg =>
      match outputStream s, proc s with
      | Some _, Some _ =>
          if negb (registered s) then (s, [])
          else if logger (self s) then
            let '(s1, a) :=
              emitEnd (Some (EObj (mkError ("Output stream error: " +:+ msg))))
                Undefined Undefined s in
            (s1, LogDebug "Output stream error, killing mencoder process" ::
                 a ++ killProc s1)
          else (s, [Uncaught (mkError "TypeError")])
      | _, _ => (s, [])
      end
  | FfprobeDone d =>
      if (0 <? progressListeners (self s))%nat
      then (with_self (set_ffprobeData d (self s)) s, [])
      else (s, [])
  | FlvError b i er =>
      match flvs s !! b with
      | None => (s, [])
      | Some f =>
          match items f !! i with
          | None => (s, [])
          | Some o =>
              flvCallback b i
                (Some (EObj (mkError ("Error running " +:+ flvtool f +:+ " on " +:+
                                      target_str o +:+ ": " +:+ message er)))) s
          end
      end
  | FlvExit b i code signal =>
      match flvs s !! b with
      | None => (s, [])
      | Some f =>
          match items f !! i with
          | None => (s, [])
          | Some o =>
              if code_not_zero code || optstr_truthy signal then
                flvCallback b i
                  (Some (EStr ("Error: " +:+ flvtool f +:+ " " +:+
                               (if optstr_truthy signal
                                then "received signal " +:+ default "" signal
                                else "exited with code " +:+ code_str code) +:+
                               " when running on " +:+ target_str o))) s
              else flvCallback b i None s
          end
      end
  end.

(** The state after a list of events and every action on the way. *)
Fixpoint steps (s : State) (evs : list Event) : State * list Action :=
  match evs with
  | [] => (s, [])
  | ev :: rest =>
      let '(s1, a1) := step s ev in
      let '(s2, a2) := steps s1 rest in
      (s2, a1 ++ a2)
  end.

(** ** [proto.run] *)

(** How a call of [run] ends, after the actions performed so far: an
    exception escapes before any handler is registered ([Threw]); an
    exception escapes from [processCB], when the process is spawned and
    the handlers registered before the exception are in place
    ([Broke]); or [processCB] runs to its end, or is never called
    ([Started]). *)
Inductive Result :=
| Threw (acts : list Action) (e : Error)
| Broke (s : State) (acts : list Action) (e : Error)
| Started (s : State) (acts : list Action).

(** ['target' in output] *)
Definition hasTarget (o : Output) : bool :=
  match target o with Some _ => true | None => false end.

(** [typeof output.target !== 'string'] *)
Definition targetNotString (o : Output) : bool :=
  match target o with Some (TgtPath _) => false | _ => true end.

(** [typeof input.source !== 'string'] *)
Definition sourceNotString (i : Input) : bool :=
  match source i with SrcPath _ => false | SrcStream => true end.

(** [function processCB(mencoderProc)], called by [_spawnMencoder]
    after it has registered its own handlers on the process.  Piping
    into an output whose [target] is [undefined] throws a [TypeError]:
    the handler of the input stream and the deadline timer are in place
    by then, the handlers of the output stream and of the data are
    not, and [_codecDataSent] is not reset. *)
Definition processCB (pid : nat) (k : Closure) (s : State) : Result :=
  let s1 := with_proc (Some (pid, k))
              (with_self (set_mencoderProc (Some pid) (self s)) s) in
  let started :=
    [Emit (StartEv ("mencoder " +:+ join " " (deref (world s1) (args s1))))] in
  let '(s2, armed) :=
    if num_truthy (opt_timeout (self s1))
    then (with_timer true s1,
          [SetTimeout (default 0 (opt_timeout (self s1)) * 1000)])
    else (s1, []) in
  match outputStream s2 with
  | Some None => Broke s2 (started ++ armed) (mkError "TypeError")
  | piped =>
      let s3 := match piped with
                | Some _ => s2
                | None => with_out (Some "") s2
                end in
      Started (with_registered true
                 (with_self (set_codecDataSent false (self s3)) s3))
              (started ++ armed)
  end.

Definition run (w : World) (c : Command) : Result :=
  if negb (existsb hasTarget (_outputs c)) then
    Threw [] (mkError "No output specified")
  else
    let outputStream :=
      target <$> head (List.filter targetNotString (_outputs c)) in
    let inputStream :=
      bool_decide (is_Some (head (List.filter sourceNotString (_inputs c)))) in
    let o := mkOptions (Some (opt_niceness c)) false false in
    match _prepare w c with
    | (_, _, _, logs, PThrew e) => Threw logs e
    | (w1, c1, _, logs, PFailed e) =>
        let s := mkState c1 w1 false None "" 0%nat o inputStream outputStream
                   None false 0 [] false in
        let '(s1, a) := emitEnd (Some (EObj e)) Undefined Undefined s in
        Started s1 (logs ++ a)
    | (w1, c1, _, logs, PReady a) =>
        let '(w2, _, acts, outcome) := _spawnMencoder w1 a o in
        let s := mkState c1 w2 false None "" a o inputStream outputStream
                   None false 0 [] false in
        match outcome with
        | NotSpawned =>
            let '(s1, a1) := onSup acts s in
            Started s1 (logs ++ a1)
        | Running pid k =>
            match processCB pid k s with
            | Threw a1 e => Threw (logs ++ acts ++ a1) e
            | Broke s1 a1 e => Broke s1 (logs ++ acts ++ a1) e
            | Started s1 a1 => Started s1 (logs ++ acts ++ a1)
            end
        end
    end.

(** Everything a call of [run] does, with the events that follow it. *)
Definition trace (w : World) (c : Command) (evs : list Event) : list Action :=
  match run w c with
  | Threw acts _ => acts
  | Broke s acts _ | Started s acts => acts ++ (steps s evs).2
  end.

(** ** [proto.renice] and [proto.kill] *)

(** [this.logger.warn(msg)]: a [TypeError] without a logger. *)
Definition warn (c : Command) (msg : string) : Error + list Action :=
  if logger c then inr [LogWarn msg] else inl (mkError "TypeError").

(** [niceness = None] is a call without argument.  The result is the
    exception thrown, or the command as it is left and what was done.
    The warning comes before the assignment to [options.niceness]: when
    it throws, nothing is stored. *)
Definition renice (niceness : option Z) (c : Command)
  : Error + (Command * list Action) :=
  if isWindows then inr (c, [])
  else
    let niceness := match niceness with
                    | Some n => if n =? 0 then 0 else n
                    | None => 0
                    end in
    match (if (niceness <? -20) || (20 <? niceness)
           then warn c ("Invalid niceness value: " +:+ pretty niceness +:+
                        ", must be between -20 and 20")
           else inr []) with
    | inl e => inl e
    | inr warned =>
        let niceness := Z.min 20 (Z.max (-20) niceness) in
        let c1 := set_niceness niceness c in
        let spawned :=
          match mencoderProc c1 with
          | Some pid =>
              [Spawn "renice" [TNum niceness; TStr "-p"; TNum (Z.of_nat pid)]]
          | None => []
          end in
        inr (c1, warned ++ spawned)
    end.

(** The result is the exception thrown, or what was done. *)
Definition kill (signal : option string) (c : Command) : Error + list Action :=
  match mencoderProc c with
  | None => warn c "No running mencoder process, cannot send signal"
  | Some pid => inr [Kill pid (Some (if optstr_truthy signal
                                     then default "" signal else "SIGKILL"))]
  end.

(** ** Observations on a trace *)

Definition isTerminal (a : Action) : bool :=
  match a with
  | Emit (ErrorEv _ _ _) | Emit (EndEv _ _) => true
  | _ => false
  end.

Definition isCodecData (a : Action) : bool :=
  match a with Emit (CodecDataEv _) => true | _ => false end.

Definition isSpawn (a : Action) : bool :=
  match a with Spawn _ _ => true | _ => false end.

Definition terminals (acts : list Action) : list Action :=
  List.filter isTerminal acts.

(** ** Observations on a started run *)

(** The [target] of the output [run] takes for the output stream. *)
Definition streamTarget (c : Command) : option (option Target) :=
  target <$> head (List.filter targetNotString (_outputs c)).

(** The command as [_prepare] leaves it. *)
Definition prepared (c : Command) : Command :=
  set_outputs (checkFlvmeta (logger c) (_outputs c)).1.1 c.

(** The tokens the niceness rewrite puts in front. *)
Definition nicePrefix (niceness : Z) (command : string) : list token :=
  if negb (niceness =? 0) && negb isWindows
  then [TStr "-n"; TNum niceness; TStr command]
  else [].

(** The data chunks among the events of a run. *)
Definition isData (ev : Event) : bool :=
  match ev with
  | Proc (PStdoutData _) | Proc (PStderrData _) => true
  | _ => false
  end.

Definition procEvents (evs : list Event) : list ProcEvent :=
  omap (λ ev, match ev with Proc e => Some e | _ => None end) evs.

(** A state without process, timer or rewriter: no handler is
    registered. *)
Definition idle (s : State) : Prop :=
  proc s = None ∧ timer s = false ∧ killTimers s = 0%nat ∧ flvs s = [].

Definition isStart (a : Action) : bool :=
  match a with Emit (StartEv _) => true | _ => false end.

(** An output that asks for metadata rewriting and is a file. *)
Definition rewritable (o : Output) : bool := flvmeta o && isFile o.

(** An output that asks for metadata rewriting and is not a file. *)
Definition unrewritable (o : Output) : bool := flvmeta o && negb (isFile o).

(** An output at which the flag check of [_prepare] stops: with a
    logger, a file that has the flag (a non-file output loses its flag
    and [some] goes on); without, any output that has the flag (a
    non-file output ends the check by an exception). *)
Definition stops (lg : bool) (o : Output) : bool :=
  if lg then rewritable o else flvmeta o.

(** [stderr += data], chunk after chunk. *)
Definition feedStr (acc : string) (chunks : list string) : string :=
  fold_left String.append chunks acc.

(** What the data chunks leave as they are. *)
Definition sameRun (s s' : State) : Prop :=
  proc s' = proc s ∧ ended s' = ended s ∧ flvs s' = flvs s ∧ opts s' = opts s ∧
  timer s' = timer s ∧ killTimers s' = killTimers s ∧
  outputStream s' = outputStream s ∧ inputStream s' = inputStream s ∧
  world s' = world s ∧ args s' = args s ∧
  _outputs (self s') = _outputs (self s) ∧
  mencoderProc (self s') = mencoderProc (self s) ∧
  opt_timeout (self s') = opt_timeout (self s) ∧
  opt_niceness (self s') = opt_niceness (self s) ∧
  registered s' = registered s ∧ logger (self s') = logger (self s).

(** What no handler of a run changes: the options of the supervisor,
    whether there is a process, the outputs, which streams there are,
    which handlers [processCB] registered, the logger and the timeout of
    the command; and, as long as the run has not ended, the deadline
    timer. *)
Definition stable (s s' : State) : Prop :=
  opts s' = opts s ∧ (proc s' = None ↔ proc s = None) ∧
  _outputs (self s') = _outputs (self s) ∧
  inputStream s' = inputStream s ∧ outputStream s' = outputStream s ∧
  registered s' = registered s ∧ logger (self s') = logger (self s) ∧
  opt_timeout (self s') = opt_timeout (self s) ∧
  (ended s' = false → timer s' = timer s ∧ ended s = false).

(** ** Observations on the latches and on the rewriters *)

Definition isWarn (a : Action) : bool :=
  match a with LogWarn _ => true | _ => false end.

Definition b2n (b : bool) : nat := if b then 1%nat else 0%nat.

(** The numbers of terminal events and of [codecData] events among some
    actions. *)
Definition tcount (acts : list Action) : nat := length (terminals acts).

Definition ccount (acts : list Action) : nat := length (List.filter isCodecData acts).

(** The codec-banner latch of a run. *)
Definition latch (s : State) : bool := _codecDataSent (self s).

(** What every handler respects: a terminal event is emitted exactly when
    [ended] goes from [false] to [true], a [codecData] event exactly when
    [_codecDataSent] does; neither flag is ever reset. *)
Definition latched (s s' : State) (acts : list Action) : Prop :=
  (tcount acts + b2n (ended s) = b2n (ended s'))%nat ∧
  (ccount acts + b2n (latch s) = b2n (latch s'))%nat.

(** Actions that are neither terminal nor [codecData] events. *)
Definition quiet (acts : list Action) : Prop := tcount acts = 0%nat ∧ ccount acts = 0%nat.

(** The item of the first batch a rewriter event reports on. *)
Definition flvIndex (ev : Event) : option nat :=
  match ev with
  | FlvError O i _ | FlvExit O i _ _ => Some i
  | _ => None
  end.

(** A rewriter exits with code 0 and without signal. *)
Definition succeeds (ev : Event) : bool :=
  match ev with
  | FlvExit _ _ code signal => negb (code_not_zero code || optstr_truthy signal)
  | _ => false
  end.

(** The error a rewriter event hands to its iterator callback. *)
Definition failure (tool : string) (todo : list Output) (ev : Event) : option ErrVal :=
  match ev with
  | FlvError _ i er =>
      (λ o, EObj (mkError ("Error running " +:+ tool +:+ " on " +:+
                           target_str o +:+ ": " +:+ message er))) <$> todo !! i
  | FlvExit _ i code signal =>
      (λ o, EStr ("Error: " +:+ tool +:+ " " +:+
                  (if optstr_truthy signal
                   then "received signal " +:+ default "" signal
                   else "exited with code " +:+ code_str code) +:+
                  " when running on " +:+ target_str o)) <$> todo !! i
  | _ => None
  end.

(** [evs] are reports of the rewriters of a batch of [n]: each on an
    item of the batch, no item reporting twice. *)
Definition reports (n : nat) (evs : list Event) : Prop :=
  ∃ idx, Forall2 (λ ev i, flvIndex ev = Some i) evs idx ∧
         NoDup idx ∧ Forall (λ i, (i < n)%nat) idx.

(** The path [endCB] obtains from [_getFlvtoolPath]. *)
Definition toolOf (s : State) : string :=
  match (_getFlvtoolPath (env (world s)) (cache (world s))).2 with
  | inr p => p
  | inl _ => "undefined"
  end.

(** The outputs [endCB] rewrites. *)
Definition rewritten (s : State) : list Output :=
  List.filter flvmeta (_outputs (self s)).

(** The report of item [i] of batch [b] is awaited: the batch exists and
    has not called its final callback, the item exists and has not
    reported. *)
Definition pending (s : State) (b i : nat) : bool :=
  match flvs s !! b with
  | Some f =>
      bool_decide (is_Some (items f !! i)) && negb (bool_decide (i ∈ called f)) &&
      negb (finished f)
  | None => false
  end.

(** The report of item [i] of batch [b], if a success, is the last one
    the batch counts. *)
Definition lastOf (s : State) (b : nat) : bool :=
  match flvs s !! b with
  | Some f => (length (items f) <=? S (completed f))%nat
  | None => false
  end.

(** The paths to completion: the events whose handler, in state [s],
    goes as far as a call of [emitEnd].  On a run that does not capture
    in the supervisor, as [run] starts them: an ['error'] of the process;
    its exit with a signal or a non-zero code, or with nothing to
    rewrite; the deadline, while the timer is set; an error of the input
    stream, when there is one; a pending 20 ms timer; an error of the
    output stream, when there is one and the command has a logger; the
    report of a failure by an awaited rewriter, or of the last
    success. *)
Definition completes (s : State) (ev : Event) : bool :=
  match ev with
  | Proc e =>
      match proc s with
      | Some _ =>
          negb (captureStdout (opts s)) && negb (captureStderr (opts s)) &&
          match e with
          | PError _ => true
          | PExit code signal =>
              optstr_truthy signal || num_truthy code ||
              bool_decide (rewritten s = [])
          | _ => false
          end
      | None => false
      end
  | InputError _ => inputStream s && bool_decide (is_Some (proc s))
  | Timeout => timer s
  | KillTimer => bool_decide (killTimers s ≠ 0%nat)
  | OutputError _ =>
      bool_decide (is_Some (outputStream s)) && bool_decide (is_Some (proc s)) &&
      registered s && logger (self s)
  | FlvError b i _ => pending s b i
  | FlvExit b i code signal =>
      pending s b i &&
      (code_not_zero code || optstr_truthy signal || lastOf s b)
  | OutputClose | FfprobeDone _ => false
  end.

End Run.
End Run.

(* ===================================================================== *)
(** * Sample data                                                         *)
(* ===================================================================== *)

Module Samples.

(** An environment without any of the binaries. *)
Definition bare : Env :=
  mkEnv (λ _, None) (λ _, false) (λ _, inr "") (λ d n, d +:+ "/" +:+ n).

(** An environment where [MENCODER_PATH] names an existing file and the
    other tools are on the search path. *)
Definition installed : Env :=
  mkEnv (λ v, if String.eqb v "MENCODER_PATH" then Some "/opt/mencoder" else None)
        (λ p, String.eqb p "/opt/mencoder")
        (λ n, inr ("/usr/bin/" +:+ n))
        (λ d n, d +:+ "/" +:+ n).

(** An environment whose search-path helper fails. *)
Definition broken : Env :=
  mkEnv (λ _, None) (λ _, false) (λ _, inl (mkError "which failed"))
        (λ d n, d +:+ "/" +:+ n).

(** An environment with nothing set, [flvmeta] on the search path and
    every file in place; all binaries live in [/opt]. *)
Definition searchable : Env :=
  mkEnv (λ _, None) (λ _, true)
        (λ n, inr (if String.eqb n "flvmeta" then "/usr/bin/flvmeta" else ""))
        (λ _ n, "/opt/" +:+ n).

(** A stand-in for lib/utils.js on a Unix host: filter specifications
    are already strings, no progress lines are recognised, and the
    banner is the text ["Input #0"]. *)
Definition utils : Utils := {|
  isWindows := false;
  FilterSpec := string;
  makeFilterStrings := map TStr;
  Progress := string;
  extractProgress := λ _ _, [];
  extractError := λ s, s;
  parseBanner := λ s,
    if contains "Input #0" s
    then Some (mkCodecData "avi" "mp3" "" "h264" "")
    else None
|}.
#[local] Existing Instance utils.

(** A file output. *)
Definition fileOutput (path : string) (rewrite : bool) : Output :=
  mkOutput (Some (TgtPath path)) true rewrite [] [] [] [] [] [].

(** An output without target and with one audio filter. *)
Definition filtered : Output :=
  mkOutput None false false [] [TStr "volume=2"] [] [] [] [].

Definition command (outs : list Output) : Command :=
  mkCommand [mkInput (SrcPath "in.avi") []] outs [] [] 0 None None false None 0 1
    false.

(** A world where the binaries were found earlier. *)
Definition world : World :=
  mkWorld installed
    (<["flvtoolPath" := "/usr/bin/flvmeta"]>
       (<["mencoderPath" := "/opt/mencoder"]> ∅))
    ∅ 7.

(** Options with a niceness of 5 and no capture. *)
Definition nice5 : Supervisor.SpawnOptions := Supervisor.mkOptions (Some 5) false false.

(** Two file outputs that both ask for metadata rewriting. *)
Definition rewriting : Command :=
  command [fileOutput "a.flv" true; fileOutput "b.flv" true].

(** One plain file output. *)
Definition plain : Command := command [fileOutput "a.avi" false].

(** The state of a call of [run] on [rewriting], once it has returned. *)
Definition running : Run.State :=
  match Run.run world rewriting with
  | Run.Started s _ | Run.Broke s _ _ => s
  | Run.Threw _ _ =>
      Run.mkState rewriting world false None "" 0
        (Supervisor.mkOptions (Some 0) false false) false None None false 0 []
        false
  end.

(** A world with the caller's array at location 0. *)
Definition worldWithArgs : World :=
  mkWorld installed (<["mencoderPath" := "/opt/mencoder"]> ∅)
    (<[0%nat := [TStr "-ovc"; TStr "copy"]]> ∅) 7.

(** A stream output. *)
Definition streamOutput (rewrite : bool) : Output :=
  mkOutput (Some TgtStream) false rewrite [] [] [] [] [] [].

(** One plain file output, a niceness of 5. *)
Definition niced : Command :=
  mkCommand [mkInput (SrcPath "in.avi") []] [fileOutput "a.avi" false] [] []
    5 None None false None 0 1 false.

(** One plain file output, a deadline of 3 seconds. *)
Definition timed : Command :=
  mkCommand [mkInput (SrcPath "in.avi") []] [fileOutput "a.avi" false] [] []
    0 (Some 3) None false None 0 1 false.

(** From a stream to a stream. *)
Definition piped : Command :=
  mkCommand [mkInput SrcStream []] [streamOutput false] [] []
    0 None None false None 0 1 false.

(** The same, after the caller has assigned a logger. *)
Definition pipedLogged : Command :=
  mkCommand [mkInput SrcStream []] [streamOutput false] [] []
    0 None None false None 0 1 true.

(** Two outputs to rewrite, a deadline of 3 seconds. *)
Definition timedRewriting : Command :=
  mkCommand [mkInput (SrcPath "in.avi") []]
    [fileOutput "a.flv" true; fileOutput "b.flv" true] [] []
    0 (Some 3) None false None 0 1 false.

(** The output the constructor adds, without target, and a file. *)
Definition untargeted : Command :=
  command [filtered; fileOutput "a.avi" false].

(** A world where nothing is cached and the search-path helper fails. *)
Definition brokenWorld : World := mkWorld broken ∅ ∅ 7.

(** A world where an earlier lookup of mencoder found nothing. *)
Definition emptyHanded : World :=
  mkWorld bare (<["mencoderPath" := ""]> ∅) ∅ 7.

(** The state of a call of [run] in [world], once it has returned, and
    what the call did. *)
Definition started (c : Command) : Run.State :=
  match Run.run world c with
  | Run.Started s _ => s
  | Run.Broke s _ _ => s
  | Run.Threw _ _ =>
      Run.mkState c world false None "" 0
        (Supervisor.mkOptions (Some 0) false false) false None None false 0 []
        false
  end.

Definition startActs (c : Command) : list Action :=
  match Run.run world c with
  | Run.Started _ acts | Run.Broke _ acts _ => acts
  | Run.Threw acts _ => acts
  end.

(** Three chunks of data. *)
Definition chunks : list Run.Event :=
  [Run.Proc (PStderrData "err1"); Run.Proc (PStdoutData "out");
   Run.Proc (PStderrData "err2")].

End Samples.

(* ===================================================================== *)
(** * Four statements of the specification, as worded                    *)
(* ===================================================================== *)

(** The order as the specification words it: the joined filters are the
    only token at their place. *)
Definition order_as_specified : Prop :=
  ∀ (U : Utils) (c : Command), (_getArguments c).2 = spec_getArguments c.

(** C1 as stated: on every run that sees the process exit and the close
    of each captured stream, [endCB] is called exactly once. *)
Definition endCB_exactly_once : Prop :=
  ∀ (U : Utils) (w : World) (args : nat) (o : Supervisor.SpawnOptions)
    (es : list ProcEvent),
    existsb Supervisor.isExit es = true →
    (Supervisor.captureStdout o = true → existsb Supervisor.isStdoutClose es = true) →
    (Supervisor.captureStderr o = true → existsb Supervisor.isStderrClose es = true) →
    Supervisor.endCBs (Supervisor.supervise w args o es) = 1%nat.

(** C5 as stated: [processCB] is never called on a run whose spawn
    fails, that is, whose handle first emits ['error']. *)
Definition processCB_never_on_spawn_failure : Prop :=
  ∀ (U : Utils) (w : World) (args : nat) (o : Supervisor.SpawnOptions)
    (er : Error) (es : list ProcEvent),
    existsb Supervisor.isProcessCB
      (Supervisor.supervise w args o (PError er :: es)) = false.

(** C7 as stated, on the point that all rewriter runs are awaited: when
    a terminal event has been emitted after the reports [evs], every
    rewriter has reported. *)
Definition all_rewrites_awaited : Prop :=
  ∀ (U : Utils) (s : Run.State) (pid : nat) (evs : list Run.Event),
    Run.ended s = false →
    Run.proc s = Some (pid, Supervisor.initial (Run.opts s)) →
    Run.flvs s = [] →
    Run.reports (length (Run.rewritten s)) evs →
    Run.terminals (Run.steps (Run.step s (Run.Proc (PExit (Some 0) None))).1 evs).2 ≠ [] →
    length evs = length (Run.rewritten s).

(* ===================================================================== *)
(** * Properties of the path cache                                       *)
(* ===================================================================== *)

(** A cache hit answers from the cache alone. *)
Lemma getPath_cached win e b (c : gmap string string) p :
  c !! cacheKey b = Some p → getPath win e b c = (c, [], inr p).
Proof.
  intros Hc. destruct b; simpl in Hc;
    unfold getPath, _getMencoderPath, _getFfprobePath, _getFlvtoolPath,
      bind, lookup_cache; rewrite Hc; reflexivity.
Qed.

(** Inversion of a successful [bind]. *)
Lemma bind_inr {A B} (m : M A) (f : A → M B) c c2 l b :
  bind m f c = (c2, l, inr b) →
  ∃ c1 l1 a l2, m c = (c1, l1, inr a) ∧ f a c1 = (c2, l2, inr b) ∧ l = l1 ++ l2.
Proof.
  unfold bind. destruct (m c) as [[c1 l1] [er|a]]; [done|].
  destruct (f a c1) as [[c3 l2] r] eqn:Hf. intros [= <- <- <-].
  by exists c1, l1, a, l2.
Qed.

Lemma bind_lookup_cache {B} k (f : option string → M B) c :
  bind (lookup_cache k) f c = f (c !! k) c.
Proof. unfold bind, lookup_cache. by destruct (f (c !! k) c) as [[c2 l2] r]. Qed.

(** The log of a [bind] starts as the log of its first part. *)
Lemma bind_head {A B} (m : M A) (f : A → M B) c q :
  head (m c).1.2 = Some q → head (bind m f c).1.2 = Some q.
Proof.
  unfold bind. destruct (m c) as [[c1 l1] [er|a]]; simpl; [done|].
  destruct (f a c1) as [[c2 l2] r]; simpl. by destruct l1.
Qed.

Lemma store_inr k v c c1 l p :
  store k v c = (c1, l, inr p) → c1 !! k = Some p.
Proof. intros [= <- <- <-]. apply lookup_insert_eq. Qed.

(** A lookup that calls back with a path leaves that path in the cache. *)
Lemma getPath_stores win e b (c c1 : gmap string string) l p :
  getPath win e b c = (c1, l, inr p) → c1 !! cacheKey b = Some p.
Proof.
  destruct b; simpl;
    unfold _getMencoderPath, _getFfprobePath, _getFlvtoolPath;
    rewrite bind_lookup_cache;
    (destruct (c !! _) as [q|] eqn:Hhit; [by intros [= <- <- <-]|]);
    intros Hrun;
    repeat (apply bind_inr in Hrun as (? & ? & ? & ? & _ & Hrun & _));
    by apply store_inr in Hrun.
Qed.

Lemma forgetPaths_lookup (c : gmap string string) b :
  _forgetPaths c !! cacheKey b = None.
Proof.
  unfold _forgetPaths. destruct b; simpl.
  - rewrite lookup_delete_ne by done. rewrite lookup_delete_ne by done.
    apply lookup_delete_eq.
  - rewrite lookup_delete_ne by done. apply lookup_delete_eq.
  - apply lookup_delete_eq.
Qed.

Lemma tryEnv_head e name c :
  head (tryEnv e name c).1.2 = Some (ReadEnv name).
Proof. unfold tryEnv. by apply bind_head. Qed.

(** Without a cache entry the lookup starts by reading its variable. *)
Lemma getPath_uncached win e b (c : gmap string string) :
  c !! cacheKey b = None →
  head (getPath win e b c).1.2 = Some (ReadEnv (firstVariable b)).
Proof.
  intros Hc. destruct b; simpl in Hc; simpl;
    unfold _getMencoderPath, _getFfprobePath, _getFlvtoolPath;
    rewrite bind_lookup_cache, Hc; apply bind_head, tryEnv_head.
Qed.

Lemma getPathN_cached win b es (c : gmap string string) p :
  c !! cacheKey b = Some p →
  getPathN win b es c = (c, [], map (λ _, inr p) es).
Proof.
  intros Hc. induction es as [|e es IH]; simpl; [done|].
  by rewrite (getPath_cached _ _ _ _ _ Hc), IH.
Qed.

(** C9. Once a path lookup ([_getMencoderPath], [_getFfprobePath] or
    [_getFlvtoolPath]) has called back with a path [p] -- the empty
    string of a failed lookup included -- every later call, whatever the
    environment has become, calls back with the same [p], leaves the
    cache as it is and makes no query at all: no environment variable is
    read, no file is tested, the search path is not consulted.  After
    [_forgetPaths] the next call starts over by reading its environment
    variable. *)
Theorem cached_path_is_replayed win b e (c c1 : gmap string string) l p :
  getPath win e b c = (c1, l, inr p) →
  (∀ es, getPathN win b es c1 = (c1, [], map (λ _, inr p) es)) ∧
  (∀ e2, head (getPath win e2 b (_forgetPaths c1)).1.2
         = Some (ReadEnv (firstVariable b))).
Proof.
  intros Hget. split.
  - intros es. eapply getPathN_cached, getPath_stores, Hget.
  - intros e2. apply getPath_uncached, forgetPaths_lookup.
Qed.

(** A failed lookup of mencoder caches [""]; two later calls in an
    environment where the binary exists still answer [""], silently. *)
Lemma cached_path_is_replayed_witness :
  getPath false Samples.bare Mencoder ∅
    = (<["mencoderPath" := ""]> ∅,
       [ReadEnv "MENCODER_PATH"; Which "mencoder"], inr "") ∧
  getPathN false Mencoder [Samples.installed; Samples.installed]
    (<["mencoderPath" := ""]> ∅)
    = (<["mencoderPath" := ""]> ∅, [], [inr ""; inr ""]).
Proof.
  split; [reflexivity|].
  exact (proj1 (cached_path_is_replayed false Mencoder Samples.bare ∅
                  (<["mencoderPath" := ""]> ∅)
                  [ReadEnv "MENCODER_PATH"; Which "mencoder"] "" eq_refl)
               [Samples.installed; Samples.installed]).
Defined.

(* ===================================================================== *)
(** * Properties of the argument assembler                               *)
(* ===================================================================== *)

Section ArgumentFacts.
Context `{Utils}.

(** [reduce] with a concatenating callback is a concatenation. *)
Lemma reduce_concat {A} (f : A → list token) (l : list A) (acc : list token) :
  fold_left (λ args x, args ++ f x) l acc = acc ++ concat (map f l).
Proof.
  revert acc. induction l as [|x l IH]; intros acc; simpl.
  - by rewrite app_nil_r.
  - by rewrite IH, <- app_assoc.
Qed.

(** C3 (amended). [_getArguments] returns, in this order: for each
    input its option tokens followed by one locator token, ["mf://"]
    followed by the path or, for a stream input, by ["pipe:0"]; the
    global tokens; the complex-filter tokens; then for each output its
    audio option tokens, the flag ["-af"] followed by one token joining
    the audio filters with commas (both only if there is an audio
    filter), its video option tokens, the flag ["-vf"] followed by one
    token joining the video and size filters (both only if there is
    one), its output option tokens, and the locator: ["-o"] and the
    path, ["pipe:1"] for a stream, nothing without target.  The command
    is returned as it was given. *)
Theorem getArguments_order (c : Command) :
  _getArguments c =
    (c, concat (map spec_inputTokens (_inputs c)) ++
        _global c ++ _complexFilters c ++
        concat (map outputTokens (_outputs c))).
Proof.
  unfold _getArguments. f_equal. simpl.
  pose proof (reduce_concat spec_inputTokens (_inputs c) []) as Hin.
  pose proof (reduce_concat outputTokens (_outputs c) []) as Hout.
  simpl in Hin, Hout. unfold addInput, addOutput.
  unfold spec_inputTokens in Hin at 1. unfold outputTokens in Hout at 1.
  by rewrite Hin, Hout.
Qed.

End ArgumentFacts.

(** C3, as stated, fails on an output with one audio filter: the code
    gives the two tokens ["-af"] and ["volume=2"] where the specified
    order has the single token ["volume=2"]. *)
Lemma order_as_specified_fails : ¬ order_as_specified.
Proof.
  intros Hspec.
  specialize (Hspec Samples.utils (Samples.command [Samples.filtered])).
  vm_compute in Hspec. discriminate Hspec.
Qed.

(* ===================================================================== *)
(** * Properties of [renice], of the niceness rewrite and of the output
      check                                                               *)
(* ===================================================================== *)

Section ControlFacts.
Context `{Utils}.
Import Supervisor Run.

(** C8. Off Windows, [renice(n)] with [n] in [-20, 20] stores [n] in
    the command's options and logs no warning.  With [n] outside the
    range it calls [this.logger.warn] before anything is stored: on a
    command with a logger the warning is logged and [n] clamped into the
    range is stored, 20 for a larger value and -20 for a smaller one; on
    a command without logger, as the constructor leaves it, the call
    throws a [TypeError], nothing is stored and nothing is logged. *)
Theorem renice_stores_or_throws (n : Z) (c : Command) :
  isWindows = false →
  let clamped := Z.min 20 (Z.max (-20) n) in
  (-20 ≤ n ≤ 20 →
   ∃ acts, renice (Some n) c = inr (set_niceness n c, acts) ∧
           existsb isWarn acts = false) ∧
  (n < -20 ∨ 20 < n →
   -20 ≤ clamped ≤ 20 ∧ (20 < n → clamped = 20) ∧ (n < -20 → clamped = -20) ∧
   if logger c
   then ∃ acts, renice (Some n) c = inr (set_niceness clamped c, acts) ∧
                existsb isWarn acts = true
   else renice (Some n) c = inl (mkError "TypeError")).
Proof.
  intros Hwin. unfold renice, warn. rewrite Hwin.
  assert ((if n =? 0 then 0 else n) = n) as -> by (destruct (Z.eqb_spec n 0); lia).
  split.
  - intros Hin.
    assert ((n <? -20) || (20 <? n) = false) as ->
      by (destruct (Z.ltb_spec n (-20)), (Z.ltb_spec 20 n); simpl; lia).
    assert (Z.min 20 (Z.max (-20) n) = n) as -> by lia.
    eexists. split; [reflexivity|]. simpl. by destruct (mencoderProc c).
  - intros Hout.
    assert ((n <? -20) || (20 <? n) = true) as ->
      by (destruct (Z.ltb_spec n (-20)), (Z.ltb_spec 20 n); simpl; lia).
    repeat split; try lia.
    destruct (logger c); [|done]. eexists. split; [reflexivity|]. done.
Qed.

(** C10. With a non-zero niceness off Windows and a binary path that
    resolves to a non-empty string, [_spawnMencoder] changes the
    caller's array in place: afterwards it holds ["-n"], the niceness
    and the resolved path, followed by all its former tokens; that array
    is what ["nice"] is spawned with, and no other array is touched. *)
Theorem niceness_rewrites_callers_array (w : World) (args : nat)
    (o : SpawnOptions) (n : Z) c1 probes command :
  isWindows = false →
  niceness o = Some n → n ≠ 0 →
  _getMencoderPath (env w) (cache w) = (c1, probes, inr command) →
  str_truthy command = true →
  let w' := (_spawnMencoder w args o).1.1.1 in
  let acts := (_spawnMencoder w args o).1.2 in
  deref w' args = [TStr "-n"; TNum n; TStr command] ++ deref w args ∧
  Spawn "nice" ([TStr "-n"; TNum n; TStr command] ++ deref w args) ∈ acts ∧
  (∀ a, a ≠ args → heap w' !! a = heap w !! a).
Proof.
  intros Hwin Hn Hnz Hpath Hcmd. unfold _spawnMencoder.
  rewrite Hpath, Hcmd, Hn, Hwin. simpl.
  assert (negb (n =? 0) = true) as -> by (destruct (Z.eqb_spec n 0); done).
  simpl.
  assert (∀ h l, deref (set_heap (<[args := l]> h) (set_cache c1 w)) args = l) as Hread.
  { intros h l. unfold deref. simpl. by rewrite lookup_insert_eq. }
  assert (deref (set_cache c1 w) args = deref w args) as -> by done.
  rewrite Hread. split; [|split].
  - unfold deref. simpl. by rewrite lookup_insert_eq.
  - do 2 apply list_elem_of_further. apply list_elem_of_here.
  - intros a Ha. by rewrite lookup_insert_ne.
Qed.

(** C4. When no output has the [target] key, [run] throws the error
    "No output specified" before doing anything: whatever events
    follow, the run has no action at all, so no process is spawned. *)
Theorem run_without_output (w : World) (c : Command) :
  (∀ o, o ∈ _outputs c → target o = None) →
  run w c = Threw [] (mkError "No output specified") ∧
  ∀ evs, trace w c evs = [].
Proof.
  intros Hnone.
  assert (existsb hasTarget (_outputs c) = false) as Hex.
  { apply not_true_is_false. intros Hex. apply existsb_exists in Hex as (o & Ho & Ht).
    apply list_elem_of_In in Ho. apply Hnone in Ho. unfold hasTarget in Ht.
    by rewrite Ho in Ht. }
  unfold trace, run. rewrite Hex. simpl. done.
Qed.

End ControlFacts.

(** On the command as the constructor leaves it, [renice(999)] throws;
    [renice(5)] stores 5. *)
Lemma renice_stores_or_throws_witness :
  Run.renice (Some 999) (Samples.command []) = inl (mkError "TypeError") ∧
  ∃ acts, Run.renice (Some 5) (Samples.command [])
          = inr (Run.set_niceness 5 (Samples.command []), acts).
Proof.
  split.
  - exact (proj2 (proj2 (proj2
             (proj2 (renice_stores_or_throws (H := Samples.utils) 999
                       (Samples.command []) eq_refl)
                ltac:(lia))))).
  - destruct (proj1 (renice_stores_or_throws (H := Samples.utils) 5
                       (Samples.command []) eq_refl) ltac:(lia))
      as (acts & Heq & _).
    by exists acts.
Defined.

(** A niceness of 5 on the array [-ovc copy]. *)
Lemma niceness_rewrites_callers_array_witness :
  deref (Supervisor._spawnMencoder (H := Samples.utils)
           Samples.worldWithArgs 0 Samples.nice5).1.1.1 0
  = [TStr "-n"; TNum 5; TStr "/opt/mencoder"; TStr "-ovc"; TStr "copy"].
Proof.
  exact (proj1 (niceness_rewrites_callers_array (H := Samples.utils)
                  Samples.worldWithArgs 0 Samples.nice5 5
                  (cache Samples.worldWithArgs) [] "/opt/mencoder"
                  eq_refl eq_refl ltac:(lia) eq_refl eq_refl)).
Defined.

(** The command as the constructor leaves it: one output, no target. *)
Lemma run_without_output_witness :
  Run.run Samples.world (Samples.command [Samples.filtered])
  = Run.Threw [] (mkError "No output specified").
Proof.
  apply (run_without_output (H := Samples.utils) Samples.world
           (Samples.command [Samples.filtered])).
  intros o Ho. apply list_elem_of_singleton in Ho. by subst.
Defined.

(* ===================================================================== *)
(** * Properties of [_spawnMencoder]                                      *)
(* ===================================================================== *)

Section SupervisorFacts.
Context `{Utils}.
Import Supervisor.

Lemma append_assoc (a b c : string) : (a +:+ b) +:+ c = a +:+ (b +:+ c).
Proof.
  induction a as [|ch a IH]; [reflexivity|].
  change (String ch ((a +:+ b) +:+ c) = String ch (a +:+ (b +:+ c))).
  by rewrite IH.
Qed.

Lemma handleAll_app o k es1 es2 :
  handleAll o k (es1 ++ es2) =
    let '(k1, a1) := handleAll o k es1 in
    let '(k2, a2) := handleAll o k1 es2 in
    (k2, a1 ++ a2).
Proof.
  revert k. induction es1 as [|e es1 IH]; intros k; simpl.
  - by destruct (handleAll o k es2).
  - destruct (handle o k e) as [k1 a1]. rewrite IH.
    destruct (handleAll o k1 es1) as [k2 a2].
    destruct (handleAll o k2 es2) as [k3 a3]. by rewrite app_assoc.
Qed.

(** What one event other than ['error'] does: [endCB] is called, once,
    exactly when the event is an awaited one and the test of
    [handleExit] passes on the updated closure; it receives that
    closure's exit error and buffers. *)
Lemma handle_emits o k e :
  isError e = false →
  (handle o k e).2 =
    if awaited o e && ready o (handle o k e).1
    then [EndCB (exitError (handle o k e).1)
            (captured (stdout (handle o k e).1))
            (captured (stderr (handle o k e).1))]
    else [].
Proof.
  intros Hne. destruct e as [er|code signal|d| |d| ]; try done; simpl;
    unfold handleExit, ready; simpl;
    repeat (case_match; simpl in *; simplify_eq; try done).
Qed.

Lemma handleAll_cons o k e es :
  (handleAll o k (e :: es)).1 = (handleAll o (handle o k e).1 es).1 ∧
  (handleAll o k (e :: es)).2 =
    (handle o k e).2 ++ (handleAll o (handle o k e).1 es).2.
Proof.
  simpl. destruct (handle o k e) as [k1 a1]. simpl.
  by destruct (handleAll o k1 es) as [k2 a2].
Qed.

(** The flags after one event. *)
Lemma handle_flags o k e :
  let k' := (handle o k e).1 in
  processExited k' = processExited k || isExit e ∧
  stdoutClosed k' = stdoutClosed k || (captureStdout o && isStdoutClose e) ∧
  stderrClosed k' = stderrClosed k || (captureStderr o && isStderrClose e).
Proof.
  destruct e as [er|code signal|d| |d| ]; simpl; unfold handleExit; simpl;
    repeat (case_match; simpl in *; simplify_eq);
    rewrite ?orb_true_r, ?andb_true_r, ?andb_false_r, ?orb_false_r; done.
Qed.

(** The closure after [es]: its flags. *)
Lemma handleAll_flags o k es :
  let k' := (handleAll o k es).1 in
  processExited k' = processExited k || existsb isExit es ∧
  stdoutClosed k' = stdoutClosed k || (captureStdout o && existsb isStdoutClose es) ∧
  stderrClosed k' = stderrClosed k || (captureStderr o && existsb isStderrClose es).
Proof.
  revert k. induction es as [|e es IH]; intros k.
  - simpl. by rewrite !andb_false_r, !orb_false_r.
  - cbv zeta. rewrite (proj1 (handleAll_cons o k e es)).
    destruct (IH (handle o k e).1) as (-> & -> & ->).
    destruct (handle_flags o k e) as (-> & -> & ->). simpl.
    rewrite !andb_orb_distrib_r, !orb_assoc. done.
Qed.

Lemma feed_Some t chunks : feed (Some t) chunks = Some (t +:+ glue chunks).
Proof.
  unfold feed. revert t. induction chunks as [|d chunks IH]; intros t; simpl.
  - f_equal. induction t as [|ch t IHt]; [done|].
    change (String ch t = String ch (t +:+ "")). by rewrite <- IHt.
  - rewrite IH. by rewrite append_assoc.
Qed.

(** The buffers after one event. *)
Lemma handle_buffers o k e :
  stdout (handle o k e).1 =
    (if captureStdout o then feed (stdout k) (stdoutChunks [e]) else stdout k) ∧
  stderr (handle o k e).1 =
    (if captureStderr o then feed (stderr k) (stderrChunks [e]) else stderr k).
Proof.
  destruct e as [er|code signal|d| |d| ]; simpl; unfold handleExit; simpl;
    repeat (case_match; simpl in *; simplify_eq); done.
Qed.

(** The buffers after [es]. *)
Lemma handleAll_buffers o k es :
  stdout (handleAll o k es).1 =
    (if captureStdout o then feed (stdout k) (stdoutChunks es) else stdout k) ∧
  stderr (handleAll o k es).1 =
    (if captureStderr o then feed (stderr k) (stderrChunks es) else stderr k).
Proof.
  revert k. induction es as [|e es IH]; intros k.
  - simpl. by destruct (captureStdout o), (captureStderr o).
  - rewrite (proj1 (handleAll_cons o k e es)).
    destruct (IH (handle o k e).1) as (-> & ->).
    destruct (handle_buffers o k e) as (-> & ->).
    destruct (captureStdout o), (captureStderr o);
      destruct e as [er|code signal|d| |d| ]; done.
Qed.

(** From the closure [_spawnMencoder] starts with, the buffers passed to
    [endCB] are the chunks received so far, or [null] without capture. *)
Lemma initial_buffers o es :
  captured (stdout (handleAll o (initial o) es).1)
    = buffer (captureStdout o) (stdoutChunks es) ∧
  captured (stderr (handleAll o (initial o) es).1)
    = buffer (captureStderr o) (stderrChunks es).
Proof.
  destruct (handleAll_buffers o (initial o) es) as (-> & ->).
  unfold buffer, initial. simpl.
  destruct (captureStdout o), (captureStderr o); rewrite ?feed_Some; done.
Qed.

(** The exit error after one event. *)
Lemma handle_exitError o k e :
  exitError (handle o k e).1 = None ↔ exitError k = None ∧ failedExit e = false.
Proof.
  destruct e as [er|code signal|d| |d| ]; simpl; unfold handleExit; simpl;
    repeat (case_match; simpl in *; simplify_eq); intuition congruence.
Qed.

(** The exit error after [es] is unset exactly when it was unset and no
    exit in [es] carried a signal or a non-zero code. *)
Lemma handleAll_exitError o k es :
  exitError (handleAll o k es).1 = None ↔
  exitError k = None ∧ existsb failedExit es = false.
Proof.
  revert k. induction es as [|e es IH]; intros k.
  - simpl. tauto.
  - rewrite (proj1 (handleAll_cons o k e es)), IH, handle_exitError. simpl.
    rewrite orb_false_iff. tauto.
Qed.

Lemma endCBs_app a b : endCBs (a ++ b) = (endCBs a + endCBs b)%nat.
Proof. unfold endCBs. by rewrite List.filter_app, length_app. Qed.

(** Then [endCB] is called once more, unless it is not awaited any more. *)
Lemma fits_once o k es :
  fits o k es → endCBs (handleAll o k es).2 = (if ready o k then 0 else 1)%nat.
Proof.
  revert k. induction es as [|e es IH]; intros k (Herr & Hexit & Hout & Herr2).
  - simpl in *. unfold ready.
    destruct (processExited k); [|done].
    destruct (captureStdout o), (captureStderr o);
      destruct (stdoutClosed k), (stderrClosed k); simpl in *;
      try done; try (by specialize (Hout eq_refl)); by specialize (Herr2 eq_refl).
  - simpl in Herr. apply orb_false_iff in Herr as [He Herr].
    rewrite (proj2 (handleAll_cons o k e es)), endCBs_app, (handle_emits o k e He).
    destruct (handle_flags o k e) as (Hf1 & Hf2 & Hf3).
    rewrite IH.
    + unfold ready. rewrite Hf1, Hf2, Hf3.
      destruct e as [er|code signal|d| |d| ]; simpl in *; try done;
        destruct (processExited k), (captureStdout o), (captureStderr o),
          (stdoutClosed k), (stderrClosed k); simpl in *;
        try done; try lia;
        try (specialize (Hout eq_refl); simpl in Hout; lia);
        try (specialize (Herr2 eq_refl); simpl in Herr2; lia).
    + unfold fits. rewrite Hf1, Hf2, Hf3. split; [done|].
      destruct e as [er|code signal|d| |d| ]; simpl in *; try done;
        destruct (processExited k), (captureStdout o), (captureStderr o),
          (stdoutClosed k), (stderrClosed k); simpl in *;
        repeat split; intros; try done; try lia;
        try (specialize (Hout eq_refl); simpl in Hout; lia);
        try (specialize (Herr2 eq_refl); simpl in Herr2; lia).
Qed.

(** The handlers call [endCB] and nothing else. *)
Lemma handleAll_only_endCB o k es :
  existsb isProcessCB (handleAll o k es).2 = false ∧
  existsb Run.isSpawn (handleAll o k es).2 = false.
Proof.
  revert k. induction es as [|e es IH]; intros k; [done|].
  rewrite (proj2 (handleAll_cons o k e es)), !existsb_app.
  destruct (IH (handle o k e).1) as (-> & ->). rewrite !orb_false_r.
  destruct (isError e) eqn:He.
  - by destruct e.
  - rewrite (handle_emits o k e He). by case_match.
Qed.

(** C1 (amended). In [_spawnMencoder]:
    - an ['error'] event of the process calls [endCB(err)] at once,
      whatever else was or was not observed;
    - any other event calls [endCB] only when, with this event, the exit
      event and the close event of each captured stream have all been
      observed; the call passes the chunks captured so far on each
      captured stream ([null] for a stream that is not captured) and an
      error that is non-null exactly when an exit carried a signal or a
      non-zero code;
    - on a run without ['error'] event in which the exit event and the
      close event of each captured stream occur once each, [endCB] is
      called exactly once.
    There is no latch in [_spawnMencoder]: nothing is claimed about the
    number of calls when an ['error'] event and an exit event both
    occur. *)
Theorem endCB_reconciliation (o : SpawnOptions) :
  (∀ k er, handle o k (PError er) = (k, [EndCB (Some er) Undefined Undefined])) ∧
  (∀ es e er so se,
     isError e = false →
     EndCB er so se ∈ (handle o (handleAll o (initial o) es).1 e).2 →
     existsb isExit (es ++ [e]) = true ∧
     (captureStdout o = true → existsb isStdoutClose (es ++ [e]) = true) ∧
     (captureStderr o = true → existsb isStderrClose (es ++ [e]) = true) ∧
     so = buffer (captureStdout o) (stdoutChunks (es ++ [e])) ∧
     se = buffer (captureStderr o) (stderrChunks (es ++ [e])) ∧
     (er = None ↔ existsb failedExit (es ++ [e]) = false)) ∧
  (∀ es,
     existsb isError es = false →
     length (List.filter isExit es) = 1%nat →
     (captureStdout o = true → length (List.filter isStdoutClose es) = 1%nat) →
     (captureStderr o = true → length (List.filter isStderrClose es) = 1%nat) →
     endCBs (handleAll o (initial o) es).2 = 1%nat).
Proof.
  split; [done|split].
  - intros es e er so se He Hin.
    assert ((handle o (handleAll o (initial o) es).1 e).1
            = (handleAll o (initial o) (es ++ [e])).1) as Hk.
    { rewrite handleAll_app. destruct (handleAll o (initial o) es) as [k1 a1].
      simpl. by destruct (handle o k1 e). }
    rewrite (handle_emits _ _ _ He), Hk in Hin.
    destruct (awaited o e && ready o (handleAll o (initial o) (es ++ [e])).1)
      eqn:Hready; [|by apply elem_of_nil in Hin].
    apply list_elem_of_singleton in Hin. injection Hin as -> -> ->.
    apply andb_true_iff in Hready as [_ Hready]. unfold ready in Hready.
    destruct (handleAll_flags o (initial o) (es ++ [e])) as (Hf1 & Hf2 & Hf3).
    destruct (initial_buffers o (es ++ [e])) as (Hb1 & Hb2).
    rewrite Hf1, Hf2, Hf3 in Hready. simpl in Hready.
    apply andb_true_iff in Hready as [Hready H3].
    apply andb_true_iff in Hready as [H1 H2].
    repeat split; try done.
    + intros Hc. rewrite Hc in H2. simpl in H2. by rewrite orb_false_r in H2.
    + intros Hc. rewrite Hc in H3. simpl in H3. by rewrite orb_false_r in H3.
    + intros Hnone. by apply (handleAll_exitError o (initial o)) in Hnone as [_ ?].
    + intros Hnone. by apply (handleAll_exitError o (initial o)).
  - intros es Herr Hexit Hout Herr2.
    by rewrite (fits_once o (initial o) es).
Qed.

(** C5 (amended). [processCB] is called exactly when the binary path
    resolves to a non-empty string: then it is called once, with the
    handle [spawn] has just returned, as the last step of the
    synchronous part -- before any event of the process is handled, a
    spawn-time ['error'] event included -- and no event causes another
    call.  When the resolution reports an error or an empty path,
    nothing is spawned and [processCB] is never called. *)
Theorem processCB_iff_resolved (w : World) (args : nat) (o : SpawnOptions)
    (es : list ProcEvent) :
  (∀ c1 probes command,
     _getMencoderPath (env w) (cache w) = (c1, probes, inr command) →
     str_truthy command = true →
     ∃ line1 line2 cmd argv,
       supervise w args o es =
         [ConsoleLog line1; ConsoleLog line2; Spawn cmd argv; ProcessCB (next_pid w)]
         ++ (handleAll o (initial o) es).2 ∧
       existsb isProcessCB (handleAll o (initial o) es).2 = false) ∧
  (∀ c1 probes r,
     _getMencoderPath (env w) (cache w) = (c1, probes, r) →
     match r with inl _ => True | inr command => str_truthy command = false end →
     existsb isProcessCB (supervise w args o es) = false ∧
     existsb Run.isSpawn (supervise w args o es) = false).
Proof.
  split.
  - intros c1 probes command Hpath Hcmd.
    unfold supervise, _spawnMencoder. rewrite Hpath, Hcmd. simpl.
    destruct (niceness o) as [n|]; [destruct (negb (n =? 0) && negb isWindows)|];
      simpl; (do 4 eexists; split; [reflexivity|apply handleAll_only_endCB]).
  - intros c1 probes r Hpath Hr.
    unfold supervise, _spawnMencoder. rewrite Hpath.
    destruct r as [er|command]; [done|]. by rewrite Hr.
Qed.

End SupervisorFacts.

(** Exit and every close event once each, with stdout and stderr both
    captured. *)
Lemma endCB_reconciliation_witness :
  Supervisor.endCBs (Supervisor.handleAll (H := Samples.utils)
            (Supervisor.mkOptions None true true)
            (Supervisor.initial (Supervisor.mkOptions None true true))
            [PStdoutData "a"; PStdoutClose; PExit (Some 0) None; PStderrClose]).2
  = 1%nat.
Proof.
  apply (proj2 (proj2 (endCB_reconciliation (H := Samples.utils)
                         (Supervisor.mkOptions None true true))));
    reflexivity.
Defined.

(** The binary is found and the process then reports that it could not
    be spawned. *)
Lemma processCB_iff_resolved_witness :
  ∃ line1 line2 cmd argv,
    Supervisor.supervise (H := Samples.utils) Samples.worldWithArgs 0 Samples.nice5
      [PError (mkError "spawn EACCES")] =
    [ConsoleLog line1; ConsoleLog line2; Spawn cmd argv; ProcessCB 7;
     EndCB (Some (mkError "spawn EACCES")) Undefined Undefined].
Proof.
  destruct (proj1 (processCB_iff_resolved (H := Samples.utils)
                     Samples.worldWithArgs 0 Samples.nice5
                     [PError (mkError "spawn EACCES")])
              (cache Samples.worldWithArgs) [] "/opt/mencoder" eq_refl eq_refl)
    as (line1 & line2 & cmd & argv & Heq & _).
  exists line1, line2, cmd, argv. exact Heq.
Defined.

(** It fails when the handle emits ['error'] (here a failed [kill]) and
    the process exits afterwards: [endCB] is called for both. *)
Lemma endCB_exactly_once_fails : ¬ endCB_exactly_once.
Proof.
  intros Honce.
  specialize (Honce Samples.utils Samples.worldWithArgs 0%nat Samples.nice5
                [PError (mkError "kill EPERM"); PExit (Some 0) None]
                eq_refl ltac:(done) ltac:(done)).
  vm_compute in Honce. discriminate Honce.
Qed.

(** It fails as soon as the binary path resolves: [processCB] has run
    when the ['error'] event arrives. *)
Lemma processCB_never_on_spawn_failure_fails : ¬ processCB_never_on_spawn_failure.
Proof.
  intros Hnever.
  specialize (Hnever Samples.utils Samples.worldWithArgs 0%nat Samples.nice5
                (mkError "spawn EACCES") []).
  vm_compute in Hnever. discriminate Hnever.
Qed.

(* ===================================================================== *)
(** * Properties of [run]: the two latches                                *)
(* ===================================================================== *)

Section RunFacts.
Context `{Utils}.
Import Supervisor Run.

Lemma head_filter_existsb {A} (f : A → bool) l :
  bool_decide (is_Some (head (List.filter f l))) = existsb f l.
Proof.
  induction l as [|x l IH]; simpl; [done|].
  by destruct (f x).
Qed.

Lemma tcount_app a b : tcount (a ++ b) = (tcount a + tcount b)%nat.
Proof. unfold tcount, terminals. by rewrite List.filter_app, length_app. Qed.

Lemma ccount_app a b : ccount (a ++ b) = (ccount a + ccount b)%nat.
Proof. unfold ccount. by rewrite List.filter_app, length_app. Qed.

Lemma latched_trans s s1 s2 a1 a2 :
  latched s s1 a1 → latched s1 s2 a2 → latched s s2 (a1 ++ a2).
Proof.
  unfold latched. rewrite tcount_app, ccount_app. intros [? ?] [? ?]. lia.
Qed.

Lemma latched_quiet s s' acts :
  ended s' = ended s → latch s' = latch s → quiet acts → latched s s' acts.
Proof. unfold latched. intros -> -> [-> ->]. done. Qed.

Lemma quiet_app a b : quiet a → quiet b → quiet (a ++ b).
Proof. unfold quiet. rewrite tcount_app, ccount_app. intros [-> ->] [-> ->]. done. Qed.

Lemma quiet_map {A} (f : A → Action) (l : list A) :
  (∀ x, isTerminal (f x) = false ∧ isCodecData (f x) = false) → quiet (map f l).
Proof.
  intros Hf. induction l as [|x l [IH1 IH2]]; [done|].
  destruct (Hf x) as [Ht Hc]. unfold quiet, tcount, ccount, terminals in *.
  simpl. by rewrite Ht, Hc.
Qed.

Lemma emitEnd_latched e so se s :
  latched s (emitEnd e so se s).1 (emitEnd e so se s).2.
Proof.
  unfold emitEnd, latched, latch.
  destruct (ended s) eqn:He; simpl; rewrite ?He; [done|].
  by destruct e as [[er|str]|]; simpl; [|destruct (str_truthy str)|].
Qed.

Lemma latched_cons a s s' acts :
  isTerminal a = false → isCodecData a = false →
  latched s s' acts → latched s s' (a :: acts).
Proof.
  unfold latched, tcount, ccount, terminals. simpl. by intros -> ->.
Qed.

(** Only the two flags of the starting state matter. *)
Lemma latched_from s0 s s' acts :
  ended s0 = ended s → latch s0 = latch s → latched s0 s' acts → latched s s' acts.
Proof. unfold latched. by intros -> ->. Qed.

Lemma endCB_latched e s : latched s (endCB e s).1 (endCB e s).2.
Proof.
  unfold endCB. destruct e as [er|].
  - eapply latched_from; [| |apply emitEnd_latched]; done.
  - destruct (List.filter flvmeta _) as [|o todo].
    + eapply latched_from; [| |apply emitEnd_latched]; done.
    + destruct (_getFlvtoolPath _ _) as [[cch pr] r]. simpl.
      apply latched_quiet; [done|done|]. by apply quiet_map.
Qed.

(** The supervisor's handlers produce no action or a single [endCB]. *)
Lemma handle_shape o k e :
  (handle o k e).2 = [] ∨ ∃ er so se, (handle o k e).2 = [EndCB er so se].
Proof.
  destruct (isError e) eqn:He.
  - destruct e; try done. right. by do 3 eexists.
  - rewrite (handle_emits o k e He). case_match; [right|by left].
    by do 3 eexists.
Qed.

Lemma onStdoutData_latched d s : latched s (onStdoutData d s).1 (onStdoutData d s).2.
Proof.
  unfold onStdoutData. simpl. apply latched_quiet; [done|done|].
  apply (quiet_app [_]); [done|]. case_match; [|done]. by apply quiet_map.
Qed.

Lemma onStderrData_latched d s : latched s (onStderrData d s).1 (onStderrData d s).2.
Proof.
  unfold onStderrData, extractCodecData, latched, latch. simpl.
  destruct (_codecDataSent (self s)) eqn:Hsent; simpl; [by rewrite Hsent|].
  destruct (0 <? codecDataListeners (self s))%nat; simpl; [|by rewrite Hsent].
  destruct (parseBanner _); simpl; [done|by rewrite Hsent].
Qed.

Lemma flvCallback_latched b i e s :
  latched s (flvCallback b i e s).1 (flvCallback b i e s).2.
Proof.
  unfold flvCallback.
  destruct (flvs s !! b) as [f|]; [|by apply latched_quiet].
  destruct (items f !! i); [|by apply latched_quiet].
  case_bool_decide; [by apply latched_quiet|].
  destruct (err_truthy e).
  - destruct (finished f); [by apply latched_quiet|].
    pose proof (emitEnd_latched e Undefined Undefined s) as Hl.
    destruct (emitEnd e Undefined Undefined s) as [s1 a]. exact Hl.
  - destruct ((length (items f) <=? S (completed f))%nat && negb (finished f));
      [|by apply latched_quiet].
    pose proof (emitEnd_latched None (captured (out s)) (Text (err s)) s) as Hl.
    destruct (emitEnd None _ _ s) as [s1 a]. exact Hl.
Qed.

Lemma killProc_quiet s : quiet (killProc s).
Proof. unfold killProc. by destruct (proc s) as [[pid k]|]. Qed.

(** An [emitEnd] followed by quiet actions. *)
Lemma emitEnd_then e so se s (f : State → list Action) :
  (∀ s1, quiet (f s1)) →
  latched s (emitEnd e so se s).1 ((emitEnd e so se s).2 ++ f (emitEnd e so se s).1).
Proof.
  intros Hq. eapply latched_trans; [apply emitEnd_latched|].
  by apply latched_quiet.
Qed.

(** Every handler of [run] respects the two latches. *)
Lemma step_latched s ev : latched s (step s ev).1 (step s ev).2.
Proof.
  destruct ev as [e|msg| | | |msg|d|b i er|b i code signal]; simpl.
  - destruct (proc s) as [[pid k]|]; [|by apply latched_quiet].
    destruct (handle (opts s) k e) as [k1 a1] eqn:Hh.
    assert (latched s (onSup a1 (with_proc (Some (pid, k1)) s)).1
                      (onSup a1 (with_proc (Some (pid, k1)) s)).2) as Hsup.
    { pose proof (handle_shape (opts s) k e) as Hshape. rewrite Hh in Hshape.
      simpl in Hshape. destruct Hshape as [->|(er & so & se & ->)]; simpl.
      - by apply latched_quiet.
      - pose proof (endCB_latched er (with_proc (Some (pid, k1)) s)) as Hl.
        destruct (endCB er _) as [s1 a]. simpl in *.
        rewrite app_nil_r. apply latched_cons; [done|done|].
        eapply latched_from; [| |exact Hl]; done. }
    destruct (onSup a1 _) as [s1 a2]. simpl in Hsup.
    destruct e as [er|code signal|d| |d| ]; simpl;
      try (rewrite app_nil_r; exact Hsup).
    + destruct (registered s1), (outputStream s1);
        try (rewrite app_nil_r; exact Hsup).
      pose proof (onStdoutData_latched d s1) as Hl.
      destruct (onStdoutData d s1) as [s2 a3]. by eapply latched_trans.
    + destruct (registered s1); [|rewrite app_nil_r; exact Hsup].
      pose proof (onStderrData_latched d s1) as Hl.
      destruct (onStderrData d s1) as [s2 a3]. by eapply latched_trans.
  - destruct (inputStream s && bool_decide _); [|by apply latched_quiet].
    pose proof (emitEnd_then (Some (EObj (mkError ("Input stream error: " +:+ msg))))
                  Undefined Undefined s killProc killProc_quiet) as Hl.
    by destruct (emitEnd _ _ _ s).
  - destruct (timer s); [|by apply latched_quiet].
    match goal with
    | |- context [emitEnd ?e ?so ?se ?s0] =>
        pose proof (emitEnd_then e so se s0 killProc killProc_quiet) as Hl;
        destruct (emitEnd e so se s0)
    end. exact Hl.
  - destruct (outputStream s), (proc s), (registered s), (logger (self s));
      by apply latched_quiet.
  - destruct (killTimers s) as [|n]; [by apply latched_quiet|].
    match goal with
    | |- context [emitEnd ?e ?so ?se ?s0] =>
        pose proof (emitEnd_then e so se s0 killProc killProc_quiet) as Hl;
        destruct (emitEnd e so se s0)
    end. exact Hl.
  - destruct (outputStream s), (proc s), (registered s), (logger (self s));
      simpl; try by apply latched_quiet.
    match goal with
    | |- context [emitEnd ?e ?so ?se ?s0] =>
        pose proof (emitEnd_then e so se s0 killProc killProc_quiet) as Hl;
        destruct (emitEnd e so se s0)
    end. by apply latched_cons.
  - destruct (0 <? progressListeners (self s))%nat; by apply latched_quiet.
  - destruct (flvs s !! b) as [f|]; [|by apply latched_quiet].
    destruct (items f !! i); [|by apply latched_quiet].
    apply flvCallback_latched.
  - destruct (flvs s !! b) as [f|]; [|by apply latched_quiet].
    destruct (items f !! i); [|by apply latched_quiet].
    destruct (code_not_zero code || optstr_truthy signal); apply flvCallback_latched.
Qed.

Lemma steps_cons s ev evs :
  (steps s (ev :: evs)).1 = (steps (step s ev).1 evs).1 ∧
  (steps s (ev :: evs)).2 = (step s ev).2 ++ (steps (step s ev).1 evs).2.
Proof.
  simpl. destruct (step s ev) as [s1 a1]. simpl.
  by destruct (steps s1 evs) as [s2 a2].
Qed.

Lemma steps_latched s evs : latched s (steps s evs).1 (steps s evs).2.
Proof.
  revert s. induction evs as [|ev evs IH]; intros s.
  - by apply latched_quiet.
  - destruct (steps_cons s ev evs) as (-> & ->).
    eapply latched_trans; [apply step_latched|apply IH].
Qed.

Lemma checkFlvmeta_quiet lg outs : quiet (checkFlvmeta lg outs).1.2.
Proof.
  induction outs as [|o outs IH]; [done|]. simpl. unfold clearFlag.
  destruct (checkFlvmeta lg outs) as [[rest warn] r]. simpl in IH.
  destruct (flvmeta o && negb (isFile o)); [destruct lg|]; simpl; try done;
    destruct (flvmeta o); simpl; try done; by apply (quiet_app [_]).
Qed.

Lemma prepare_quiet w c : quiet (_prepare w c).1.2.
Proof.
  unfold _prepare. pose proof (checkFlvmeta_quiet (logger c) (_outputs c)) as Hq.
  destruct (checkFlvmeta _ _) as [[outs warns] [e|found]]; simpl in Hq; [done|].
  destruct found; [destruct (_getFlvtoolPath _ _) as [[cch pr] [er|p]]|];
    simpl; try done; by destruct (alloc _ _).
Qed.

(** The synchronous part of [_spawnMencoder] ends in one of two ways. *)
Lemma spawnMencoder_cases w a o :
  (∃ er, (_spawnMencoder w a o).1.2 = [EndCB (Some er) Undefined Undefined] ∧
         (_spawnMencoder w a o).2 = NotSpawned) ∨
  (∃ line1 line2 cmd argv pid,
     (_spawnMencoder w a o).1.2 =
       [ConsoleLog line1; ConsoleLog line2; Spawn cmd argv; ProcessCB pid] ∧
     (_spawnMencoder w a o).2 = Running pid (initial o)).
Proof.
  unfold _spawnMencoder.
  destruct (_getMencoderPath _ _) as [[c1 pr] [er|command]]; [left; by eexists|].
  destruct (str_truthy command); simpl; [|left; by eexists].
  right. destruct (niceness o) as [n|];
    [destruct (negb (n =? 0) && negb isWindows)|]; simpl; by do 5 eexists.
Qed.

(** What [run] has done when it returns or throws. *)
Lemma run_latched w c :
  match run w c with
  | Threw acts _ => quiet acts
  | Broke s acts _ | Started s acts =>
      tcount acts = b2n (ended s) ∧ ccount acts = 0%nat
  end.
Proof.
  unfold run. destruct (negb (existsb hasTarget (_outputs c))); [done|].
  pose proof (prepare_quiet w c) as [Hq1 Hq2].
  destruct (_prepare w c) as [[[[w1 c1] pr] logs] [e|er|a]]; simpl in Hq1, Hq2.
  - done.
  - simpl. rewrite tcount_app, ccount_app, Hq1, Hq2. done.
  - pose proof (spawnMencoder_cases w1 a (mkOptions (Some (opt_niceness c)) false false))
      as Hcases.
    destruct (_spawnMencoder w1 a _) as [[[w2 pr2] acts] outcome]. simpl in Hcases.
    destruct Hcases as [(er & -> & ->)|(l1 & l2 & cmd & argv & pid & -> & ->)].
    + simpl. rewrite tcount_app, ccount_app, Hq1, Hq2.
      by destruct (contains _ _).
    + unfold processCB. simpl.
      destruct (num_truthy (opt_timeout c1)); simpl;
        destruct (target <$> head (List.filter targetNotString (_outputs c)))
          as [[t|]|]; simpl;
        rewrite ?tcount_app, ?ccount_app, ?Hq1, ?Hq2; done.
Qed.

(** The state [run] leaves when it has spawned the process. *)
Lemma run_spawned w c :
  match run w c with
  | Threw _ _ => True
  | Broke s _ _ | Started s _ =>
      is_Some (proc s) →
      ended s = false ∧
      captureStdout (opts s) = false ∧ captureStderr (opts s) = false ∧
      timer s = num_truthy (opt_timeout c) ∧
      inputStream s = existsb sourceNotString (_inputs c)
  end.
Proof.
  unfold run. destruct (negb (existsb hasTarget (_outputs c))); [done|].
  assert (opt_timeout (_prepare w c).1.1.1.2 = opt_timeout c) as Htime.
  { unfold _prepare. destruct (checkFlvmeta _ _) as [[outs warns] [e|found]]; [done|].
    destruct found; [destruct (_getFlvtoolPath _ _) as [[cch pr] [er|p]]|];
      simpl; try done; by destruct (alloc _ _). }
  destruct (_prepare w c) as [[[[w1 c1] pr] logs] [e|er|a]]; simpl in Htime.
  - done.
  - simpl. by intros [? ?].
  - pose proof (spawnMencoder_cases w1 a (mkOptions (Some (opt_niceness c)) false false))
      as Hcases.
    destruct (_spawnMencoder w1 a _) as [[[w2 pr2] acts] outcome]. simpl in Hcases.
    destruct Hcases as [(er & -> & ->)|(l1 & l2 & cmd & argv & pid & -> & ->)].
    + simpl. by intros [? ?].
    + unfold processCB. simpl. rewrite Htime.
      destruct (num_truthy (opt_timeout c)); simpl;
        destruct (target <$> head (List.filter targetNotString (_outputs c)))
          as [[t|]|]; simpl; intros _; by rewrite head_filter_existsb.
Qed.

Lemma stable_refl s : stable s s.
Proof. unfold stable. by repeat split. Qed.

Lemma stable_trans s s1 s2 : stable s s1 → stable s1 s2 → stable s s2.
Proof.
  unfold stable.
  intros (H1 & H2 & H3 & H4 & H5 & H6 & H7 & H8 & H9)
         (G1 & G2 & G3 & G4 & G5 & G6 & G7 & G8 & G9).
  repeat split; try congruence; try tauto.
  all: match goal with He : ended _ = false |- _ =>
         destruct (G9 He) as [Ht He1]; destruct (H9 He1); congruence
       end.
Qed.

Lemma emitEnd_stable e so se s : stable s (emitEnd e so se s).1.
Proof.
  unfold emitEnd. destruct (ended s) eqn:He; [apply stable_refl|].
  unfold stable. simpl. by repeat split.
Qed.

Lemma endCB_stable e s : stable s (endCB e s).1.
Proof.
  unfold endCB. destruct e as [er|].
  - eapply stable_trans; [|apply emitEnd_stable]. unfold stable. by repeat split.
  - simpl. destruct (List.filter flvmeta (_outputs (self s))) as [|o todo].
    + eapply stable_trans; [|apply emitEnd_stable]. unfold stable. by repeat split.
    + destruct (_getFlvtoolPath _ _) as [[cch pr] r]. unfold stable. simpl.
      by repeat split.
Qed.

Lemma onSup_stable acts : ∀ s, stable s (onSup acts s).1.
Proof.
  induction acts as [|a acts IH]; intros s; [apply stable_refl|]. simpl.
  assert (stable s (match a with
                    | EndCB e _ _ => endCB e s
                    | _ => (s, [])
                    end).1) as Ha.
  { destruct a; try apply stable_refl. apply endCB_stable. }
  destruct (match a with EndCB e _ _ => endCB e s | _ => (s, []) end) as [s1 a1].
  specialize (IH s1). destruct (onSup acts s1) as [s2 a2].
  by eapply stable_trans.
Qed.

Lemma flvCallback_stable b i e s : stable s (flvCallback b i e s).1.
Proof.
  unfold flvCallback. destruct (flvs s !! b) as [f|]; [|apply stable_refl].
  destruct (items f !! i); [|apply stable_refl].
  destruct (bool_decide _); [apply stable_refl|].
  destruct (err_truthy e).
  - destruct (finished f).
    + unfold stable. simpl. by repeat split.
    + pose proof (emitEnd_stable e Undefined Undefined s) as Hs.
      destruct (emitEnd e Undefined Undefined s) as [s1 a].
      eapply stable_trans; [exact Hs|]. unfold stable. simpl. by repeat split.
  - destruct (_ && _).
    + pose proof (emitEnd_stable None (captured (out s)) (Text (err s)) s) as Hs.
      destruct (emitEnd None _ _ s) as [s1 a].
      eapply stable_trans; [exact Hs|]. unfold stable. simpl. by repeat split.
    + unfold stable. simpl. by repeat split.
Qed.

(** Every handler of [run] leaves the registrations as they are. *)
Lemma step_stable s ev : stable s (step s ev).1.
Proof.
  destruct ev as [e|msg| | | |msg|d|b i er|b i code signal]; simpl.
  - destruct (proc s) as [[pid k]|] eqn:Hp; [|apply stable_refl].
    destruct (handle (opts s) k e) as [k1 a1].
    pose proof (onSup_stable a1 (with_proc (Some (pid, k1)) s)) as Hsup.
    destruct (onSup a1 _) as [s1 a2]. simpl in Hsup.
    assert (stable s s1) as Hs1.
    { eapply stable_trans; [|exact Hsup]. unfold stable. simpl. rewrite Hp.
      by repeat split. }
    destruct e as [er|code signal|d| |d| ]; simpl; try done.
    + by destruct (registered s1), (outputStream s1).
    + destruct (registered s1); [|done].
      unfold onStderrData, extractCodecData. simpl.
      eapply stable_trans; [exact Hs1|].
      destruct (_ && _); [destruct (parseBanner _)|]; unfold stable; simpl;
        by repeat split.
  - destruct (_ && _); [|apply stable_refl].
    pose proof (emitEnd_stable (Some (EObj (mkError ("Input stream error: " +:+ msg))))
                  Undefined Undefined s) as Hs.
    by destruct (emitEnd _ _ _ s).
  - destruct (timer s) eqn:Ht; [|apply stable_refl].
    unfold emitEnd. simpl. destruct (ended s) eqn:He; unfold stable; simpl;
      rewrite ?He; by repeat split.
  - destruct (outputStream s), (proc s), (registered s), (logger (self s));
      simpl; try apply stable_refl. unfold stable. simpl. by repeat split.
  - destruct (killTimers s) as [|n]; [apply stable_refl|].
    unfold emitEnd. simpl. destruct (ended s) eqn:He; unfold stable; simpl;
      rewrite ?He; by repeat split.
  - destruct (outputStream s), (proc s), (registered s), (logger (self s));
      simpl; try apply stable_refl.
    pose proof (emitEnd_stable (Some (EObj (mkError ("Output stream error: " +:+ msg))))
                  Undefined Undefined s) as Hs.
    by destruct (emitEnd _ _ _ s).
  - destruct (0 <? _)%nat; [|apply stable_refl]. unfold stable. simpl.
    by repeat split.
  - destruct (flvs s !! b) as [f|]; [|apply stable_refl].
    destruct (items f !! i); [|apply stable_refl]. apply flvCallback_stable.
  - destruct (flvs s !! b) as [f|]; [|apply stable_refl].
    destruct (items f !! i); [|apply stable_refl].
    destruct (_ || _); apply flvCallback_stable.
Qed.

Lemma steps_stable evs : ∀ s, stable s (steps s evs).1.
Proof.
  induction evs as [|ev evs IH]; intros s; [apply stable_refl|].
  rewrite (proj1 (steps_cons s ev evs)).
  eapply stable_trans; [apply step_stable|apply IH].
Qed.

Lemma terminals_app a b : terminals (a ++ b) = terminals a ++ terminals b.
Proof. apply List.filter_app. Qed.

Lemma tcount_0 acts : tcount acts = 0%nat → terminals acts = [].
Proof. unfold tcount. by destruct (terminals acts). Qed.

Lemma steps_app s evs1 evs2 :
  (steps s (evs1 ++ evs2)).1 = (steps (steps s evs1).1 evs2).1 ∧
  (steps s (evs1 ++ evs2)).2 = (steps s evs1).2 ++ (steps (steps s evs1).1 evs2).2.
Proof.
  revert s. induction evs1 as [|ev evs1 IH]; intros s; [done|].
  rewrite <- app_comm_cons.
  destruct (steps_cons s ev (evs1 ++ evs2)) as (-> & ->).
  destruct (steps_cons s ev evs1) as (-> & ->).
  destruct (IH (step s ev).1) as (-> & ->). by rewrite app_assoc.
Qed.

Lemma steps_single s ev :
  (steps s [ev]).1 = (step s ev).1 ∧ (steps s [ev]).2 = (step s ev).2.
Proof. simpl. destruct (step s ev). simpl. by rewrite app_nil_r. Qed.

(** Once [ended] is set no terminal event follows. *)
Lemma ended_silent s evs : ended s = true → terminals (steps s evs).2 = [].
Proof.
  intros He. destruct (steps_latched s evs) as [Hl _]. rewrite He in Hl.
  apply tcount_0. destruct (ended (steps s evs).1); simpl in Hl; lia.
Qed.

Lemma tcount_cons a acts :
  tcount (a :: acts) = (b2n (isTerminal a) + tcount acts)%nat.
Proof. unfold tcount, terminals. simpl. by destruct (isTerminal a). Qed.

(** An error handed to [emitEnd] on a run that has not ended. *)
Lemma emitEnd_error er so se s :
  ended s = false →
  emitEnd (Some (EObj er)) so se s =
    (with_ended true s, [Emit (ErrorEv (EObj er) so se)]).
Proof. intros He. unfold emitEnd. by rewrite He. Qed.

(** [endCB] on a run that has not ended, with an error or with nothing
    to rewrite, emits its terminal event. *)
Lemma endCB_emits e s :
  ended s = false → is_Some e ∨ rewritten s = [] →
  tcount (endCB e s).2 = 1%nat ∧ ended (endCB e s).1 = true.
Proof.
  intros He Hwhy. unfold endCB, rewritten in *. destruct e as [er|].
  - by rewrite emitEnd_error.
  - destruct Hwhy as [[? ?]|Hnone]; [done|]. simpl. rewrite Hnone.
    unfold emitEnd. simpl. by rewrite He.
Qed.

(** Every path to completion emits the terminal event of a run that has
    not ended, and ends it. *)
Lemma completes_emits s ev :
  ended s = false → completes s ev = true →
  tcount (step s ev).2 = 1%nat ∧ ended (step s ev).1 = true.
Proof.
  intros He Hc.
  destruct ev as [e|msg| | | |msg|d|b i er|b i code signal]; simpl in Hc; try done.
  - simpl. destruct (proc s) as [[pid k]|]; [|done].
    apply andb_true_iff in Hc as [Hcap Hc].
    apply andb_true_iff in Hcap as [Hco Hce].
    apply negb_true_iff in Hco, Hce.
    assert (∃ er k1 so se, handle (opts s) k e = (k1, [EndCB er so se]) ∧
                           (is_Some er ∨ rewritten s = []))
      as (er & k1 & so & se & -> & Hwhy).
    { destruct e as [er|code signal| | | | ]; try done.
      - do 4 eexists. split; [done|]. left. by eexists.
      - unfold handle, handleExit. rewrite Hco, Hce. simpl.
        rewrite !orb_true_r. simpl.
        destruct (optstr_truthy signal); simpl;
          [do 4 eexists; split; [done|]; left; by eexists|].
        destruct (num_truthy code); simpl;
          [do 4 eexists; split; [done|]; left; by eexists|].
        simpl in Hc. apply bool_decide_eq_true_1 in Hc.
        do 4 eexists. split; [done|]. by right. }
    simpl.
    destruct (endCB_emits er (with_proc (Some (pid, k1)) s) He Hwhy) as [Ht Hend].
    destruct (endCB er _) as [s1 a]. simpl in *.
    assert (match e with
            | PStdoutData data =>
                match registered s1, outputStream s1 with
                | true, None => onStdoutData data s1
                | _, _ => (s1, [])
                end
            | PStderrData data =>
                if registered s1 then onStderrData data s1 else (s1, [])
            | _ => (s1, [])
            end = (s1, [])) as -> by (by destruct e).
    simpl. rewrite !app_nil_r, tcount_cons. simpl. done.
  - simpl. rewrite Hc. rewrite emitEnd_error by done. simpl.
    rewrite tcount_cons. simpl. by rewrite (proj1 (killProc_quiet _)).
  - simpl. rewrite Hc. rewrite emitEnd_error by done. simpl.
    rewrite tcount_cons. simpl. by rewrite (proj1 (killProc_quiet _)).
  - apply bool_decide_eq_true_1 in Hc. simpl.
    destruct (killTimers s) as [|n]; [done|].
    rewrite emitEnd_error by done. simpl.
    rewrite tcount_cons. simpl. by rewrite (proj1 (killProc_quiet _)).
  - simpl. destruct (outputStream s), (proc s), (registered s), (logger (self s));
      try done.
    simpl. rewrite emitEnd_error by done. simpl.
    rewrite !tcount_cons. simpl. by rewrite (proj1 (killProc_quiet _)).
  - unfold pending in Hc. simpl.
    destruct (flvs s !! b) as [f|] eqn:Hf; [|done].
    apply andb_true_iff in Hc as [Hc Hfin]. apply andb_true_iff in Hc as [Hi Hnew].
    apply bool_decide_eq_true_1 in Hi as [o Ho].
    apply negb_true_iff in Hnew, Hfin. rewrite Ho.
    unfold flvCallback. rewrite Hf, Ho, Hnew. simpl. rewrite Hfin.
    by rewrite emitEnd_error.
  - apply andb_true_iff in Hc as [Hp Hwhy]. unfold pending, lastOf in *. simpl.
    destruct (flvs s !! b) as [f|] eqn:Hf; [|done].
    apply andb_true_iff in Hp as [Hp Hfin]. apply andb_true_iff in Hp as [Hi Hnew].
    apply bool_decide_eq_true_1 in Hi as [o Ho].
    apply negb_true_iff in Hnew, Hfin. rewrite Ho.
    destruct (code_not_zero code || optstr_truthy signal) eqn:Hfail.
    + unfold flvCallback. rewrite Hf, Ho, Hnew.
      change (err_truthy (Some (EStr _))) with true. cbv iota. rewrite Hfin.
      unfold emitEnd. rewrite He. done.
    + simpl in Hwhy. unfold flvCallback. rewrite Hf, Ho, Hnew. simpl.
      rewrite Hwhy, Hfin. simpl. unfold emitEnd. rewrite He. done.
Qed.


(** C6. A run emits at most one [codecData] event, whatever the stderr
    chunks contain.  Once [_codecDataSent] is set, the handler of a
    stderr chunk appends the chunk and logs it, and does nothing else:
    the accumulated text is not scanned, and the latch stays set. *)
Theorem codecData_at_most_once (w : World) (c : Command) (evs : list Event) :
  (ccount (trace w c evs) ≤ 1)%nat ∧
  (∀ s data,
     _codecDataSent (self s) = true →
     onStderrData data s =
       (with_err (err s +:+ data) s, [ConsoleLog ("****** " +:+ data)])).
Proof.
  split.
  - unfold trace. pose proof (run_latched w c) as Hrun.
    assert (∀ s acts, ccount acts = 0%nat →
                      (ccount (acts ++ (steps s evs).2) ≤ 1)%nat) as Hone.
    { intros s acts Hc. destruct (steps_latched s evs) as [_ Hl].
      rewrite ccount_app, Hc. destruct (latch s), (latch (steps s evs).1);
        simpl in *; lia. }
    destruct (run w c) as [acts er|s acts er|s acts].
    + destruct Hrun as [_ ->]. lia.
    + apply Hone, Hrun.
    + apply Hone, Hrun.
  - intros s data Hsent. unfold onStderrData. simpl. by rewrite Hsent.
Qed.

(* ===================================================================== *)
(** * Properties of [run]: metadata rewriting                             *)
(* ===================================================================== *)

(** A success that is not the last one is counted, silently. *)
Lemma flv_step_counted s f ev i :
  flvs s = [f] → finished f = false →
  succeeds ev = true → flvIndex ev = Some i →
  (i < length (items f))%nat → i ∉ called f →
  (S (completed f) < length (items f))%nat →
  step s ev =
    (with_flvs [mkFlv (flvtool f) (items f) ({[i]} ∪ called f)
                  (S (completed f)) false] s, []).
Proof.
  intros Hf Hfin Hok Hi Hlt Hnew Hmore.
  destruct ev as [| | | | | | |b j er|b j code signal]; try done.
  destruct b; [|done]. simpl in Hi. injection Hi as ->.
  simpl in Hok. apply negb_true_iff in Hok.
  destruct (lookup_lt_is_Some_2 (items f) i Hlt) as [o Ho].
  simpl. rewrite Hf. simpl. rewrite Ho, Hok.
  unfold flvCallback. rewrite Hf. simpl. rewrite Ho.
  rewrite bool_decide_eq_false_2 by done. simpl.
  rewrite Hfin. simpl.
  assert ((length (items f) <=? S (completed f))%nat = false) as ->
    by (apply Nat.leb_gt; lia).
  simpl. by rewrite Hf.
Qed.

(** The last success emits ['end'] with the run's buffers. *)
Lemma flv_step_last s f ev i :
  flvs s = [f] → finished f = false → ended s = false →
  succeeds ev = true → flvIndex ev = Some i →
  (i < length (items f))%nat → i ∉ called f →
  (length (items f) ≤ S (completed f))%nat →
  (step s ev).2 = [Emit (EndEv (captured (out s)) (Text (err s)))].
Proof.
  intros Hf Hfin Hend Hok Hi Hlt Hnew Hlast.
  destruct ev as [| | | | | | |b j er|b j code signal]; try done.
  destruct b; [|done]. simpl in Hi. injection Hi as ->.
  simpl in Hok. apply negb_true_iff in Hok.
  destruct (lookup_lt_is_Some_2 (items f) i Hlt) as [o Ho].
  simpl. rewrite Hf. simpl. rewrite Ho, Hok.
  unfold flvCallback. rewrite Hf. simpl. rewrite Ho.
  rewrite bool_decide_eq_false_2 by done. simpl.
  rewrite Hfin. simpl.
  assert ((length (items f) <=? S (completed f))%nat = true) as ->
    by (apply Nat.leb_le; lia).
  simpl. unfold emitEnd. by rewrite Hend.
Qed.

(** A failure emits ['error'] with its error, whatever is pending. *)
Lemma flv_step_failed s f ev i :
  flvs s = [f] → finished f = false → ended s = false →
  succeeds ev = false → flvIndex ev = Some i →
  (i < length (items f))%nat → i ∉ called f →
  ∃ v, failure (flvtool f) (items f) ev = Some v ∧
       (step s ev).2 = [Emit (ErrorEv v Undefined Undefined)] ∧
       ended (step s ev).1 = true.
Proof.
  intros Hf Hfin Hend Hok Hi Hlt Hnew.
  destruct (lookup_lt_is_Some_2 (items f) i Hlt) as [o Ho].
  destruct ev as [| | | | | | |b j er|b j code signal]; try done;
    (destruct b; [|done]); simpl in Hi; injection Hi as ->;
    simpl; rewrite Hf; simpl; rewrite Ho; simpl.
  - eexists. split; [done|].
    unfold flvCallback. rewrite Hf. simpl. rewrite Ho.
    rewrite bool_decide_eq_false_2 by done. simpl.
    rewrite Hfin. unfold emitEnd. rewrite Hend. simpl. done.
  - simpl in Hok. apply negb_false_iff in Hok. rewrite Hok.
    eexists. split; [done|].
    unfold flvCallback. rewrite Hf. simpl. rewrite Ho.
    rewrite bool_decide_eq_false_2 by done.
    change (err_truthy (Some (EStr _))) with true. cbv iota.
    rewrite Hfin. unfold emitEnd. rewrite Hend. simpl. done.
Qed.

(** Successes short of the whole batch: every one is counted, nothing is
    emitted, and the run's buffers are as they were. *)
Lemma success_run evs : ∀ idx s f,
  flvs s = [f] → finished f = false → ended s = false →
  Forall (λ ev, succeeds ev = true) evs →
  Forall2 (λ ev i, flvIndex ev = Some i) evs idx →
  NoDup idx → Forall (λ i, (i < length (items f))%nat) idx →
  (∀ i, i ∈ idx → i ∉ called f) →
  (completed f + length evs < length (items f))%nat →
  ∃ f', flvs (steps s evs).1 = [f'] ∧ finished f' = false ∧
        ended (steps s evs).1 = false ∧
        items f' = items f ∧ flvtool f' = flvtool f ∧
        completed f' = (completed f + length evs)%nat ∧
        (∀ i, i ∈ called f' ↔ i ∈ called f ∨ i ∈ idx) ∧
        out (steps s evs).1 = out s ∧ err (steps s evs).1 = err s ∧
        (steps s evs).2 = [].
Proof.
  induction evs as [|ev evs IH]; intros idx s f Hf Hfin Hend Hok Hidx Hnd Hlt Hnew Hn.
  - apply Forall2_nil_inv_l in Hidx as ->. exists f. simpl.
    repeat split; try done; [by left|]. intros [?|Hin]; [done|].
    by apply elem_of_nil in Hin.
  - apply Forall2_cons_inv_l in Hidx as (i & idx' & Hi & Hidx & ->).
    apply Forall_cons in Hok as [Hok1 Hok]. apply Forall_cons in Hlt as [Hlt1 Hlt].
    apply NoDup_cons in Hnd as [Hi' Hnd]. simpl in Hn.
    destruct (steps_cons s ev evs) as (-> & ->).
    assert (i ∉ called f) as Hfresh by (apply Hnew; left).
    assert (S (completed f) < length (items f))%nat as Hmore by lia.
    rewrite (flv_step_counted s f ev i Hf Hfin Hok1 Hi Hlt1 Hfresh Hmore).
    simpl.
    destruct (IH idx' (with_flvs [mkFlv (flvtool f) (items f) ({[i]} ∪ called f)
                                    (S (completed f)) false] s)
                (mkFlv (flvtool f) (items f) ({[i]} ∪ called f)
                   (S (completed f)) false))
      as (f' & H1 & H2 & H3 & H4 & H5 & H6 & H7 & H8 & H9 & H10);
      try done.
    + intros j Hj. simpl. intros [->%elem_of_singleton|Hc]%elem_of_union; [done|].
      by apply (Hnew j); [right|].
    + simpl. lia.
    + exists f'. simpl in *. repeat split; try done; [lia| |].
      * rewrite H7. rewrite elem_of_union, elem_of_singleton, elem_of_cons. tauto.
      * rewrite H7. rewrite elem_of_union, elem_of_singleton, elem_of_cons. tauto.
Qed.

(** Distinct items of a batch of [n] are at most [n]. *)
Lemma distinct_items (idx : list nat) n :
  NoDup idx → Forall (λ i, (i < n)%nat) idx → (length idx ≤ n)%nat.
Proof.
  intros Hnd Hlt. transitivity (length (seq 0 n)); [|by rewrite length_seq].
  apply NoDup_incl_length; [by apply NoDup_ListNoDup|]. intros i Hi.
  apply in_seq. rewrite Forall_forall in Hlt.
  apply list_elem_of_In, Hlt in Hi. lia.
Qed.

(** The exit of the transcoder, code 0 and no signal, on a run that has
    not ended: [endCB] is called without error. *)
Lemma success_exit s pid code signal :
  ended s = false → proc s = Some (pid, initial (opts s)) →
  captureStdout (opts s) = false → captureStderr (opts s) = false →
  num_truthy code = false → optstr_truthy signal = false →
  let s' := (step s (Proc (PExit code signal))).1 in
  let acts := (step s (Proc (PExit code signal))).2 in
  match rewritten s with
  | [] => acts = [EndCB None Null Null;
                  Emit (EndEv (captured (out s)) (Text (err s)))]
  | todo =>
      acts = EndCB None Null Null ::
             map (λ o, Spawn (toolOf s) [TStr "-U"; TStr (target_str o)]) todo ∧
      flvs s' = flvs s ++ [mkFlv (toolOf s) todo ∅ 0 false] ∧
      ended s' = false ∧ out s' = out s ∧ err s' = err s
  end.
Proof.
  intros Hend Hproc Hout Herr Hcode Hsig. simpl.
  rewrite Hproc. unfold handle, handleExit, initial.
  rewrite Hsig, Hcode, Hout, Herr. simpl.
  unfold endCB, rewritten, toolOf. simpl.
  destruct (List.filter flvmeta (_outputs (self s))) as [|o todo].
  - unfold emitEnd. simpl. by rewrite Hend.
  - destruct (_getFlvtoolPath _ _) as [[cch pr] r]. simpl.
    by rewrite !app_nil_r.
Qed.

(** C7 (amended). The transcoder exits with code 0 and without signal on
    a run that has not ended.  If no output requests metadata rewriting,
    ['end'] is emitted at once.  Otherwise the rewriter is spawned once
    per requesting output, with [-U] and the output's target, and nothing
    is emitted yet.  As long as the only events are reports of the
    rewriters, each reporting at most once:
    - while all reports are successes and some rewriter has not
      reported, nothing is emitted;
    - when every rewriter has reported success, ['end'] is emitted, with
      the run's stdout and stderr;
    - at the first report of a failure ['error'] is emitted with that
      failure, without waiting for the rewriters that have not reported,
      and later reports emit nothing.
    If, while all reports so far are successes and some rewriter has not
    reported, an event on another path to completion arrives (see
    [completes]), the terminal event of the run is the one of that
    event, and nothing is emitted afterwards, whatever the rewriters
    report.  So it is with the deadline timer, which the exit of the
    transcoder does not cancel: it ends the run with the timeout
    error. *)
Theorem rewrite_after_success (s : State) pid code signal (evs : list Event) :
  ended s = false → proc s = Some (pid, initial (opts s)) →
  captureStdout (opts s) = false → captureStderr (opts s) = false →
  flvs s = [] →
  num_truthy code = false → optstr_truthy signal = false →
  let s1 := (step s (Proc (PExit code signal))).1 in
  let acts := (step s (Proc (PExit code signal))).2 in
  let todo := rewritten s in
  let done := Emit (EndEv (captured (out s)) (Text (err s))) in
  (todo = [] → acts = [EndCB None Null Null; done]) ∧
  (todo ≠ [] →
   acts = EndCB None Null Null ::
          map (λ o, Spawn (toolOf s) [TStr "-U"; TStr (target_str o)]) todo ∧
   (reports (length todo) evs →
    (Forall (λ ev, succeeds ev = true) evs → (length evs < length todo)%nat →
     terminals (steps s1 evs).2 = []) ∧
    (Forall (λ ev, succeeds ev = true) evs → length evs = length todo →
     terminals (steps s1 evs).2 = [done]) ∧
    (∀ pre ev post,
       evs = pre ++ ev :: post →
       Forall (λ ev, succeeds ev = true) pre → succeeds ev = false →
       ∃ v, failure (toolOf s) todo ev = Some v ∧
            terminals (steps s1 (pre ++ [ev])).2
              = [Emit (ErrorEv v Undefined Undefined)] ∧
            terminals (steps s1 evs).2 = [Emit (ErrorEv v Undefined Undefined)])) ∧
   (∀ pre ev post,
      reports (length todo) pre → Forall (λ ev, succeeds ev = true) pre →
      (length pre < length todo)%nat →
      completes (steps s1 pre).1 ev = true →
      tcount (steps s1 (pre ++ ev :: post)).2 = 1%nat ∧
      terminals (steps s1 (pre ++ ev :: post)).2 =
        terminals (step (steps s1 pre).1 ev).2) ∧
   (timer s = true →
    ∀ pre post,
      reports (length todo) pre → Forall (λ ev, succeeds ev = true) pre →
      (length pre < length todo)%nat →
      terminals (steps s1 (pre ++ Timeout :: post)).2 =
        [Emit (ErrorEv
                 (EObj (mkError ("process ran into a timeout (" +:+
                                 match opt_timeout (self s) with
                                 | Some t => pretty t
                                 | None => "undefined"
                                 end +:+ "s)")))
                 (captured (out s)) (Text (err s)))])).
Proof.
  intros Hend Hproc Hout Herr Hflvs Hcode Hsig.
  pose proof (success_exit s pid code signal Hend Hproc Hout Herr Hcode Hsig) as Hexit.
  cbv zeta in *. rewrite Hflvs in Hexit. simpl app in Hexit.
  set (s1 := (step s (Proc (PExit code signal))).1) in *.
  destruct (rewritten s) as [|o todo] eqn:Htodo; [by split|].
  destruct Hexit as (Hacts & Hf & Hend1 & Hout1 & Herr1).
  split; [done|]. intros _. split; [done|].
  set (f := mkFlv (toolOf s) (o :: todo) ∅ 0 false) in *.
  assert (∀ pre idx1, Forall (λ ev, succeeds ev = true) pre →
            Forall2 (λ ev i, flvIndex ev = Some i) pre idx1 →
            NoDup idx1 → Forall (λ i, (i < length (o :: todo))%nat) idx1 →
            (length pre < length (o :: todo))%nat →
            ∃ f', flvs (steps s1 pre).1 = [f'] ∧ finished f' = false ∧
                  ended (steps s1 pre).1 = false ∧
                  items f' = o :: todo ∧ flvtool f' = toolOf s ∧
                  completed f' = length pre ∧
                  (∀ i, i ∈ called f' ↔ i ∈ idx1) ∧
                  out (steps s1 pre).1 = out s ∧ err (steps s1 pre).1 = err s ∧
                  (steps s1 pre).2 = []) as Hpre.
  { intros pre idx1 Hok Hidx1 Hnd1 Hlt1 Hlen.
    destruct (success_run pre idx1 s1 f Hf eq_refl Hend1 Hok Hidx1 Hnd1 Hlt1)
      as (f' & H1 & H2 & H3 & H4 & H5 & H6 & H7 & H8 & H9 & H10);
      [by intros i _; apply not_elem_of_empty|done|].
    exists f'. repeat split; try done; try congruence.
    - intros Hin. apply H7 in Hin as [Hin|Hin]; [|done].
      by apply not_elem_of_empty in Hin.
    - intros Hin. apply H7. by right. }
  assert (∀ pre ev post,
            reports (length (o :: todo)) pre →
            Forall (λ ev, succeeds ev = true) pre →
            (length pre < length (o :: todo))%nat →
            completes (steps s1 pre).1 ev = true →
            tcount (steps s1 (pre ++ ev :: post)).2 = 1%nat ∧
            terminals (steps s1 (pre ++ ev :: post)).2 =
              terminals (step (steps s1 pre).1 ev).2) as Hother.
  { intros pre ev post (idx1 & Hidx1 & Hnd1 & Hlt1) Hok Hlen Hc.
    destruct (Hpre pre idx1 Hok Hidx1 Hnd1 Hlt1 Hlen)
      as (f' & _ & _ & Hended & _ & _ & _ & _ & _ & _ & Hnone).
    destruct (completes_emits _ ev Hended Hc) as [Hone Hend2].
    change (ev :: post) with ([ev] ++ post).
    rewrite (proj2 (steps_app s1 pre _)), (proj2 (steps_app _ [ev] post)),
      (proj2 (steps_single _ ev)), (proj1 (steps_single _ ev)), Hnone.
    rewrite app_nil_l, tcount_app, terminals_app, Hone.
    rewrite (ended_silent _ post Hend2). unfold tcount.
    rewrite (ended_silent _ post Hend2), app_nil_r. done. }
  split; [|split; [exact Hother|]].
  2: {
    intros Htimer pre post Hrep Hok Hlen.
    assert (stable s (steps s1 pre).1) as Hstable.
    { eapply stable_trans; [apply step_stable|apply steps_stable]. }
    destruct Hrep as (idx1 & Hidx1 & Hnd1 & Hlt1).
    destruct (Hpre pre idx1 Hok Hidx1 Hnd1 Hlt1 Hlen)
      as (f' & _ & _ & Hended & _ & _ & _ & _ & Hout2 & Herr2 & Hnone).
    destruct Hstable as (_ & _ & _ & _ & _ & _ & _ & Hto & Hti).
    destruct (Hti Hended) as [Hti' _].
    destruct (Hother pre Timeout post) as [_ ->]; try done.
    { by exists idx1. }
    { simpl. by rewrite Hti'. }
    simpl. rewrite Hti', Htimer, Hto. unfold emitEnd. simpl. rewrite Hended.
    unfold killProc. simpl. rewrite Hout2, Herr2.
    by destruct (proc (steps s1 pre).1) as [[? ?]|]. }
  intros (idx & Hidx & Hnd & Hlt).
  split; [|split].
  - intros Hok Hlen.
    destruct (Hpre evs idx Hok Hidx Hnd Hlt Hlen) as (f' & _ & _ & _ & _ & _ & _ & _ & _ & _ & ->).
    done.
  - intros Hok Hlen.
    destruct (exists_last (l := evs)) as (pre & ev & ->).
    { intros ->. done. }
    apply Forall2_app_inv_l in Hidx as (idx1 & idx2 & Hidx1 & Hidx2 & ->).
    apply Forall2_cons_inv_l in Hidx2 as (i & idx3 & Hi & Hnil & ->).
    apply Forall2_nil_inv_l in Hnil as ->.
    apply Forall_app in Hok as [Hok Hok1]. apply Forall_cons in Hok1 as [Hok1 _].
    apply Forall_app in Hlt as [Hlt Hlt1]. apply Forall_cons in Hlt1 as [Hlt1 _].
    apply NoDup_app in Hnd as (Hnd & Hdisj & _).
    rewrite length_app in Hlen. simpl in Hlen.
    destruct (Hpre pre idx1 Hok Hidx1 Hnd Hlt ltac:(simpl in *; lia))
      as (f' & H1 & H2 & H3 & H4 & H5 & H6 & H7 & H8 & H9 & H10).
    rewrite (proj2 (steps_app s1 pre [ev])), H10, (proj2 (steps_single _ ev)).
    rewrite app_nil_l.
    rewrite (flv_step_last _ f' ev i H1 H2 H3 Hok1 Hi); try (rewrite H4; done).
    + by rewrite H8, H9.
    + rewrite H7. intros Hin. apply (Hdisj i Hin). apply list_elem_of_here.
    + rewrite H4, H6. simpl in *. lia.
  - intros pre ev post -> Hok Hfail.
    apply Forall2_app_inv_l in Hidx as (idx1 & idx2 & Hidx1 & Hidx2 & ->).
    apply Forall2_cons_inv_l in Hidx2 as (i & idx3 & Hi & Hidx3 & ->).
    pose proof (distinct_items _ _ Hnd Hlt) as Hcount.
    rewrite length_app in Hcount. simpl in Hcount.
    apply Forall_app in Hlt as [Hlt Hlt1]. apply Forall_cons in Hlt1 as [Hlt1 _].
    apply NoDup_app in Hnd as (Hnd & Hdisj & _).
    pose proof (Forall2_length _ _ _ Hidx1) as Hlen1.
    destruct (Hpre pre idx1 Hok Hidx1 Hnd Hlt ltac:(simpl in *; lia))
      as (f' & H1 & H2 & H3 & H4 & H5 & H6 & H7 & H8 & H9 & H10).
    destruct (flv_step_failed _ f' ev i H1 H2 H3 Hfail Hi) as (v & Hv & Hstep & Hended).
    { by rewrite H4. }
    { rewrite H7. intros Hin. apply (Hdisj i Hin). apply list_elem_of_here. }
    exists v. rewrite H4, H5 in Hv. split; [done|].
    assert (terminals (steps s1 (pre ++ [ev])).2 = [Emit (ErrorEv v Undefined Undefined)])
      as Hfirst.
    { by rewrite (proj2 (steps_app s1 pre [ev])), H10, (proj2 (steps_single _ ev)),
        app_nil_l, Hstep. }
    split; [done|].
    change (pre ++ ev :: post) with (pre ++ [ev] ++ post). rewrite app_assoc.
    rewrite (proj2 (steps_app s1 (pre ++ [ev]) post)), terminals_app, Hfirst.
    rewrite ended_silent; [done|].
    by rewrite (proj1 (steps_app s1 pre [ev])), (proj1 (steps_single _ ev)).
Qed.

End RunFacts.


(** Two stderr chunks, each completing the banner in the accumulated
    text: one [codecData] event; with the latch set, the handler only
    appends and logs. *)
Lemma codecData_at_most_once_witness :
  Run.ccount (Run.trace Samples.world Samples.plain
            [Run.Proc (PStderrData "Input #0, avi");
             Run.Proc (PStderrData "Input #0 again")]) = 1%nat ∧
  Run.onStderrData "Input #0 again"
    (Run.step Samples.running (Run.Proc (PStderrData "Input #0, avi"))).1
  = (Run.with_err ("Input #0, avi" +:+ "Input #0 again")
       (Run.step Samples.running (Run.Proc (PStderrData "Input #0, avi"))).1,
     [ConsoleLog ("****** " +:+ "Input #0 again")]).
Proof.
  split; [reflexivity|].
  exact (proj2 (codecData_at_most_once (H := Samples.utils) Samples.world Samples.plain [])
           (Run.step Samples.running (Run.Proc (PStderrData "Input #0, avi"))).1
           "Input #0 again" eq_refl).
Defined.

(** Two outputs to rewrite.  The rewriter of the second succeeds, then
    the rewriter of the first exits with code 1: its failure is the
    error.  With a deadline of 3 seconds that passes between the two
    reports, the timeout is the error. *)
Lemma rewrite_after_success_witness :
  Run.terminals
    (Run.steps (Run.step Samples.running (Run.Proc (PExit (Some 0) None))).1
       [Run.FlvExit 0 1 (Some 0) None; Run.FlvExit 0 0 (Some 1) None]).2
  = [Emit (ErrorEv
             (EStr "Error: /usr/bin/flvmeta exited with code 1 when running on a.flv")
             Undefined Undefined)] ∧
  Run.terminals
    (Run.steps (Run.step (Samples.started Samples.timedRewriting)
                  (Run.Proc (PExit (Some 0) None))).1
       [Run.FlvExit 0 1 (Some 0) None; Run.Timeout; Run.FlvExit 0 0 (Some 1) None]).2
  = [Emit (ErrorEv (EObj (mkError "process ran into a timeout (3s)"))
             (Text "") (Text ""))].
Proof.
  assert (Run.reports 2 [Run.FlvExit 0 1 (Some 0) None]) as Hone.
  { exists [1%nat]. split; [by repeat constructor|].
    split; [apply NoDup_singleton|by repeat constructor]. }
  split.
  - destruct (rewrite_after_success (H := Samples.utils) Samples.running 7 (Some 0) None
                [Run.FlvExit 0 1 (Some 0) None; Run.FlvExit 0 0 (Some 1) None]
                eq_refl eq_refl eq_refl eq_refl eq_refl eq_refl eq_refl)
      as [_ Hsome].
    destruct Hsome as (_ & Hreports & _); [done|].
    destruct Hreports as (_ & _ & Hfail).
    { exists [1%nat; 0%nat]. split; [by repeat constructor|].
      split; [|by repeat constructor].
      apply NoDup_ListNoDup. repeat constructor; simpl; intuition discriminate. }
    destruct (Hfail [Run.FlvExit 0 1 (Some 0) None] (Run.FlvExit 0 0 (Some 1) None) []
                eq_refl ltac:(by repeat constructor) eq_refl)
      as (v & Hv & _ & Hall).
    vm_compute in Hv. injection Hv as <-. exact Hall.
  - destruct (rewrite_after_success (H := Samples.utils)
                (Samples.started Samples.timedRewriting) 7 (Some 0) None []
                eq_refl eq_refl eq_refl eq_refl eq_refl eq_refl eq_refl)
      as [_ Hsome].
    destruct Hsome as (_ & _ & _ & Hdeadline); [done|].
    exact (Hdeadline eq_refl [Run.FlvExit 0 1 (Some 0) None]
             [Run.FlvExit 0 0 (Some 1) None] Hone
             ltac:(by repeat constructor) ltac:(vm_compute; lia)).
Defined.

(** It fails with two outputs to rewrite: the failure of the first
    rewriter emits ['error'] while the second has not reported. *)
Lemma all_rewrites_awaited_fails : ¬ all_rewrites_awaited.
Proof.
  intros Hall.
  specialize (Hall Samples.utils Samples.running 7%nat
                [Run.FlvExit 0 0 (Some 1) None] eq_refl eq_refl eq_refl).
  assert (length [Run.FlvExit 0 0 (Some 1) None]
          = length (Run.rewritten Samples.running)) as Hlen; [|discriminate Hlen].
  apply Hall.
  - exists [0%nat]. split; [by repeat constructor|].
    split; [apply NoDup_singleton|by repeat constructor].
  - vm_compute. discriminate.
Qed.


(* ===================================================================== *)
(** * Further properties of the path cache                                *)
(* ===================================================================== *)

(** X1. A path set by hand ([setMencoderPath], [setFfprobePath],
    [setFlvtoolPath]) is what the next lookup of that binary calls back
    with, without any query to the environment and whatever was cached
    before; the entries of the other two binaries are left as they
    were. *)
Theorem set_path_wins win e b p (c : gmap string string) :
  getPath win e b (setPath b p c) = (setPath b p c, [], inr p) ∧
  (∀ b', b' ≠ b → setPath b p c !! cacheKey b' = c !! cacheKey b').
Proof.
  split.
  - apply getPath_cached. destruct b; apply lookup_insert_eq.
  - intros b' Hne. destruct b, b'; try done; by apply lookup_insert_ne.
Qed.

(** X2. The environment variable wins over the search path: when the
    binary is not cached and its variable ([MENCODER_PATH],
    [FFPROBE_PATH], [FLVMETA_PATH]) is set, non-empty and names an
    existing file, the lookup calls back with the variable's value after
    reading the variable and testing the file, caches it, and never
    consults the search path. *)
Theorem env_variable_wins win e b p (c : gmap string string) :
  c !! cacheKey b = None →
  env_var e (firstVariable b) = Some p →
  str_truthy p = true →
  fs_exists e p = true →
  getPath win e b c =
    (<[cacheKey b := p]> c, [ReadEnv (firstVariable b); FsExists p], inr p).
Proof.
  intros Hc Hvar Hp Hex.
  destruct b; simpl in *;
    unfold _getMencoderPath, _getFfprobePath, _getFlvtoolPath, tryEnv, orWhich,
      bind, lookup_cache, probe, ret, store;
    rewrite Hc, Hvar, Hp, Hex, ?Hp; simpl; rewrite ?Hp; reflexivity.
Qed.

(** The two building blocks of the lookups leave the cache alone, and
    reading a variable cannot fail. *)
Lemma tryEnv_run e name (c : gmap string string) :
  ∃ l x, tryEnv e name c = (c, l, inr x).
Proof.
  unfold tryEnv, bind, probe, ret.
  destruct (env_var e name) as [p|]; [|by do 2 eexists].
  destruct (str_truthy p); by do 2 eexists.
Qed.

Lemma orWhich_run e name found (c : gmap string string) :
  ∃ l r, orWhich e name found c = (c, l, r).
Proof.
  unfold orWhich, bind, probe, ret, fail.
  destruct (str_truthy found); [by do 2 eexists|].
  destruct (which e name); by do 2 eexists.
Qed.

(** Inversion of a [bind], whatever it ends with. *)
Lemma bind_inv {A B} (m : M A) (f : A → M B) c c2 l r :
  bind m f c = (c2, l, r) →
  (∃ er, m c = (c2, l, inl er) ∧ r = inl er) ∨
  (∃ c1 l1 a l2, m c = (c1, l1, inr a) ∧ f a c1 = (c2, l2, r) ∧ l = l1 ++ l2).
Proof.
  unfold bind. destruct (m c) as [[c1 l1] [er|a]].
  - intros [= <- <- <-]. left. by exists er.
  - destruct (f a c1) as [[c3 l2] r'] eqn:Hf. intros [= <- <- <-].
    right. by exists c1, l1, a, l2.
Qed.

(** Splits a run of a lookup into the runs of its steps, and settles the
    steps that leave the cache alone. *)
Ltac split_run H :=
  repeat match type of H with
    | bind _ _ _ = _ =>
        let Hm := fresh "Hm" in
        let Hr := fresh "Hr" in
        apply bind_inv in H as [(? & Hm & Hr)|(? & ? & ? & ? & Hm & H & ->)];
        [rename Hm into H; try (injection Hr as ->); try subst|];
        [|match type of Hm with
          | tryEnv ?e ?n ?c = _ =>
              let Heq := fresh in
              destruct (tryEnv_run e n c) as (? & ? & Heq);
              rewrite Heq in Hm; clear Heq; simplify_eq
          | orWhich ?e ?n ?f ?c = _ =>
              let Heq := fresh in
              destruct (orWhich_run e n f c) as (? & ? & Heq);
              rewrite Heq in Hm; clear Heq; simplify_eq
          | _ => idtac
          end]
    | tryEnv ?e ?n ?c = _ =>
        let Heq := fresh in
        destruct (tryEnv_run e n c) as (? & ? & Heq);
        rewrite Heq in H; clear Heq; simplify_eq
    | orWhich ?e ?n ?f ?c = _ =>
        let Heq := fresh in
        destruct (orWhich_run e n f c) as (? & ? & Heq);
        rewrite Heq in H; clear Heq; simplify_eq
    | (if str_truthy ?x then _ else _) _ = _ => destruct (str_truthy x)
    | store _ _ _ = _ => unfold store in H; simplify_eq
    | ret _ _ = _ => unfold ret in H; simplify_eq
    end.

(** Without a cache entry, a lookup of mencoder ends with an error and
    the cache as it was, or with a path and the cache extended by it. *)
Lemma getMencoder_miss e (c c1 : gmap string string) l r :
  c !! "mencoderPath" = None →
  _getMencoderPath e c = (c1, l, r) →
  match r with
  | inl _ => c1 = c
  | inr p => c1 = <["mencoderPath" := p]> c
  end.
Proof.
  intros Hc Hrun. unfold _getMencoderPath in Hrun.
  rewrite bind_lookup_cache, Hc in Hrun. split_run Hrun; done.
Qed.

(** Whether a lookup ends with an error or a path: the cache as it was,
    or the cache with more entries. *)
Lemma getPath_miss win e b (c c1 : gmap string string) l r :
  c !! cacheKey b = None →
  getPath win e b c = (c1, l, r) →
  match r with
  | inl _ => c1 = c
  | inr p => c ⊆ c1
  end.
Proof.
  intros Hc Hrun. destruct b; simpl in *.
  - pose proof (getMencoder_miss e c c1 l r Hc Hrun) as Hm.
    destruct r as [er|p]; [done|]. subst c1. by apply insert_subseteq.
  - unfold _getFfprobePath in Hrun. rewrite bind_lookup_cache, Hc in Hrun.
    split_run Hrun; try done.
    all: try (match goal with
              | Hg : (if str_truthy _ then _ else _) _ = _ |- _ => split_run Hg
              end).
    all: try (by apply insert_subseteq).
    all: match goal with
         | Hg : _getMencoderPath _ ?c0 = _ |- _ =>
             let Hhit := fresh "Hhit" in
             destruct (c0 !! "mencoderPath") as [m|] eqn:Hhit;
             [rewrite (getPath_cached win e Mencoder c0 m Hhit
                       : _getMencoderPath e c0 = _) in Hg; simplify_eq
             |apply (getMencoder_miss _ _ _ _ _ Hhit) in Hg; simpl in Hg; subst]
         end.
    all: try done.
    all: unfold probe in *; simplify_eq.
    all: try (by apply insert_subseteq).
    all: etrans; [by apply insert_subseteq|];
      apply insert_subseteq; by rewrite lookup_insert_ne.
  - unfold _getFlvtoolPath in Hrun. rewrite bind_lookup_cache, Hc in Hrun.
    split_run Hrun; try done.
    all: repeat match goal with
           | Hg : (if str_truthy _ then _ else _) _ = _ |- _ => split_run Hg
           end.
    all: try done; by apply insert_subseteq.
Qed.

(** X3. An error of the search-path helper is passed on and not cached:
    a lookup that calls back with an error leaves the cache exactly as it
    was, the binary's entry is still missing, and the next lookup starts
    over by reading the environment variable. *)
Theorem lookup_error_not_cached win e b (c c1 : gmap string string) l er :
  getPath win e b c = (c1, l, inl er) →
  c1 = c ∧ c !! cacheKey b = None ∧
  ∀ e2, head (getPath win e2 b c1).1.2 = Some (ReadEnv (firstVariable b)).
Proof.
  intros Hrun.
  destruct (c !! cacheKey b) as [p|] eqn:Hc.
  { by rewrite (getPath_cached win e b c p Hc) in Hrun. }
  pose proof (getPath_miss win e b c c1 l _ Hc Hrun) as Hmiss.
  simpl in Hmiss. subst c1.
  repeat split. intros e2. by apply getPath_uncached.
Qed.

(** X4. A lookup never overwrites a cache entry: whatever it calls back
    with, every entry present before is present, with the same value,
    afterwards.  (Only the three setters and [_forgetPaths] change or
    remove an entry.) *)
Theorem lookup_keeps_entries win e b (c : gmap string string) :
  c ⊆ (getPath win e b c).1.1.
Proof.
  destruct (c !! cacheKey b) as [p|] eqn:Hc.
  { by rewrite (getPath_cached win e b c p Hc). }
  destruct (getPath win e b c) as [[c1 l] r] eqn:Hrun.
  pose proof (getPath_miss win e b c c1 l r Hc Hrun) as Hmiss.
  destruct r as [er|p]; simpl in *; [by subst|done].
Qed.

(** X5. The rewriter is looked up in a fixed order: [FLVMETA_PATH],
    [FLVTOOL2_PATH], [flvmeta] on the search path, [flvtool2] on the
    search path.  With neither variable set, a [flvmeta] found on the
    search path is the answer and [flvtool2] is never searched; when
    [flvmeta] is not found, the answer is whatever the search for
    [flvtool2] gives, the empty string included. *)
Theorem flvmeta_before_flvtool2 e (c : gmap string string) p :
  c !! "flvtoolPath" = None →
  env_var e "FLVMETA_PATH" = None → env_var e "FLVTOOL2_PATH" = None →
  which e "flvmeta" = inr p →
  (str_truthy p = true →
   _getFlvtoolPath e c =
     (<["flvtoolPath" := p]> c,
      [ReadEnv "FLVMETA_PATH"; ReadEnv "FLVTOOL2_PATH"; Which "flvmeta"], inr p)) ∧
  (str_truthy p = false → ∀ q, which e "flvtool2" = inr q →
   _getFlvtoolPath e c =
     (<["flvtoolPath" := q]> c,
      [ReadEnv "FLVMETA_PATH"; ReadEnv "FLVTOOL2_PATH"; Which "flvmeta";
       Which "flvtool2"], inr q)).
Proof.
  intros Hc Hmeta Htool Hwhich.
  split; [intros Hp|intros Hp q Hq];
    unfold _getFlvtoolPath, tryEnv, orWhich, bind, lookup_cache, probe, ret, store;
    rewrite Hc, Hmeta; simpl; rewrite Htool; simpl; rewrite Hwhich, Hp; simpl;
    rewrite ?Hp, ?Hq; reflexivity.
Qed.

(** X6. The last resort for [ffprobe] is the directory of mencoder: with
    [FFPROBE_PATH] unset and nothing on the search path, the lookup
    takes the resolved mencoder path, tests for [ffprobe] ([ffprobe.exe]
    on Windows) next to it, and caches that file's path if it exists and
    the empty string if not. *)
Theorem ffprobe_beside_mencoder (win : bool) e (c : gmap string string) m :
  c !! "ffprobePath" = None →
  env_var e "FFPROBE_PATH" = None →
  which e "ffprobe" = inr "" →
  c !! "mencoderPath" = Some m → str_truthy m = true →
  let candidate := sibling e m (if win then "ffprobe.exe" else "ffprobe") in
  let found := if fs_exists e candidate then candidate else "" in
  _getFfprobePath win e c =
    (<["ffprobePath" := found]> c,
     [ReadEnv "FFPROBE_PATH"; Which "ffprobe"; FsExists candidate], inr found).
Proof.
  intros Hc Hvar Hwhich Hm Htruthy.
  unfold _getFfprobePath, _getMencoderPath, tryEnv, orWhich, bind, lookup_cache,
    probe, ret, store.
  rewrite Hc, Hvar. simpl. rewrite Hwhich. simpl. rewrite Hm, Htruthy. reflexivity.
Qed.

(** [MENCODER_PATH] names an existing file: the search path is not
    consulted. *)
Lemma env_variable_wins_witness :
  getPath false Samples.installed Mencoder ∅ =
    (<["mencoderPath" := "/opt/mencoder"]> ∅,
     [ReadEnv "MENCODER_PATH"; FsExists "/opt/mencoder"], inr "/opt/mencoder").
Proof.
  exact (env_variable_wins false Samples.installed Mencoder "/opt/mencoder" ∅
           eq_refl eq_refl eq_refl eq_refl).
Defined.

(** The search-path helper fails: nothing is cached. *)
Lemma lookup_error_not_cached_witness :
  getPath false Samples.broken Flvtool ∅ =
    (∅, [ReadEnv "FLVMETA_PATH"; ReadEnv "FLVTOOL2_PATH"; Which "flvmeta"],
     inl (mkError "which failed")) ∧
  (∅ : gmap string string) !! cacheKey Flvtool = None.
Proof.
  split; [reflexivity|].
  exact (proj1 (proj2 (lookup_error_not_cached false Samples.broken Flvtool
                         (∅ : gmap string string) ∅
                         [ReadEnv "FLVMETA_PATH"; ReadEnv "FLVTOOL2_PATH";
                          Which "flvmeta"]
                         (mkError "which failed") eq_refl))).
Defined.

(** [flvmeta] is on the search path. *)
Lemma flvmeta_before_flvtool2_witness :
  _getFlvtoolPath Samples.searchable ∅ =
    (<["flvtoolPath" := "/usr/bin/flvmeta"]> ∅,
     [ReadEnv "FLVMETA_PATH"; ReadEnv "FLVTOOL2_PATH"; Which "flvmeta"],
     inr "/usr/bin/flvmeta").
Proof.
  exact (proj1 (flvmeta_before_flvtool2 Samples.searchable ∅ "/usr/bin/flvmeta"
                  eq_refl eq_refl eq_refl eq_refl) eq_refl).
Defined.

(** On Windows, with mencoder cached as [/opt/mencoder.exe]. *)
Lemma ffprobe_beside_mencoder_witness :
  _getFfprobePath true Samples.searchable
    (<["mencoderPath" := "/opt/mencoder.exe"]> ∅) =
    (<["ffprobePath" := "/opt/ffprobe.exe"]>
       (<["mencoderPath" := "/opt/mencoder.exe"]> ∅),
     [ReadEnv "FFPROBE_PATH"; Which "ffprobe"; FsExists "/opt/ffprobe.exe"],
     inr "/opt/ffprobe.exe").
Proof.
  exact (ffprobe_beside_mencoder true Samples.searchable
           (<["mencoderPath" := "/opt/mencoder.exe"]> ∅)
           "/opt/mencoder.exe" eq_refl eq_refl eq_refl eq_refl eq_refl).
Defined.

(* ===================================================================== *)
(** * Further properties of [_spawnMencoder]                              *)
(* ===================================================================== *)

Section SpawnFacts.
Context `{Utils}.
Import Supervisor.

(** What the synchronous part has done when a process was spawned. *)
Lemma spawnMencoder_running w a o w2 pr acts pid k :
  _spawnMencoder w a o = (w2, pr, acts, Running pid k) →
  ∃ c1 command,
    _getMencoderPath (env w) (cache w) = (c1, pr, inr command) ∧
    str_truthy command = true ∧
    k = initial o ∧ pid = next_pid w ∧
    env w2 = env w ∧ cache w2 = c1 ∧
    let nice := num_truthy (niceness o) && negb isWindows in
    deref w2 a =
      (if nice then [TStr "-n"; TNum (default 0 (niceness o)); TStr command] else [])
      ++ deref w a ∧
    (nice = false → heap w2 = heap w) ∧
    ∃ line1 line2,
      acts = [ConsoleLog line1; ConsoleLog line2;
              Spawn (if nice then "nice" else command) (deref w2 a);
              ProcessCB pid].
Proof.
  unfold _spawnMencoder.
  destruct (_getMencoderPath _ _) as [[c1 pr1] [er|command]] eqn:Hpath; [done|].
  destruct (str_truthy command) eqn:Hcmd; simpl; [|done].
  destruct (niceness o) as [n|] eqn:Hn; simpl.
  - destruct (negb (n =? 0) && negb isWindows) eqn:Hnice; simpl;
      intros [= <- <- <- <- <-]; exists c1, command;
      repeat split; try done.
    + unfold deref at 1. simpl. by rewrite lookup_insert_eq.
    + do 2 eexists. reflexivity.
    + do 2 eexists. reflexivity.
  - intros [= <- <- <- <- <-]. exists c1, command.
    repeat split; try done. do 2 eexists. reflexivity.
Qed.

(** X7. Without a binary nothing happens to the caller's array, even
    when a niceness is requested: if the path lookup reports an error,
    [endCB] receives that error; if it reports the empty string, [endCB]
    receives the error "Cannot find mencoder"; in both cases this is the
    only action, and the array store and the process table are as
    before. *)
Theorem spawn_without_binary (w : World) (args : nat) (o : SpawnOptions) c1 probes r :
  _getMencoderPath (env w) (cache w) = (c1, probes, r) →
  match r with inl _ => True | inr command => str_truthy command = false end →
  _spawnMencoder w args o =
    (set_cache c1 w, probes,
     [EndCB (Some match r with
                  | inl er => er
                  | inr _ => mkError "Cannot find mencoder"
                  end) Undefined Undefined],
     NotSpawned) ∧
  heap (_spawnMencoder w args o).1.1.1 = heap w ∧
  next_pid (_spawnMencoder w args o).1.1.1 = next_pid w.
Proof.
  intros Hpath Hr. unfold _spawnMencoder. rewrite Hpath.
  destruct r as [er|command]; [done|]. by rewrite Hr.
Qed.

(** X8. The niceness rewrite happens only for a non-zero niceness off
    Windows.  With no niceness, a niceness of 0, or on Windows, the
    caller's array is not changed, and the resolved binary itself is
    spawned with exactly the caller's tokens. *)
Theorem spawn_without_niceness (w : World) (args : nat) (o : SpawnOptions)
    c1 probes command :
  num_truthy (niceness o) && negb isWindows = false →
  _getMencoderPath (env w) (cache w) = (c1, probes, inr command) →
  str_truthy command = true →
  heap (_spawnMencoder w args o).1.1.1 = heap w ∧
  deref (_spawnMencoder w args o).1.1.1 args = deref w args ∧
  List.filter Run.isSpawn (_spawnMencoder w args o).1.2
    = [Spawn command (deref w args)].
Proof.
  intros Hnice Hpath Hcmd.
  destruct (_spawnMencoder w args o) as [[[w2 pr] acts] out] eqn:Hrun.
  assert (∃ pid k, out = Running pid k) as (pid & k & ->).
  { unfold _spawnMencoder in Hrun. rewrite Hpath, Hcmd in Hrun. simpl in Hrun.
    destruct (niceness o) as [n|];
      [destruct (negb (n =? 0) && negb isWindows)|]; simplify_eq; by do 2 eexists. }
  destruct (spawnMencoder_running _ _ _ _ _ _ _ _ Hrun)
    as (c2 & command2 & Hpath2 & _ & _ & _ & _ & _ & Hargs & Hheap & l1 & l2 & ->).
  rewrite Hpath in Hpath2. simplify_eq.
  cbv zeta in *. rewrite Hnice in *. simpl in *.
  split; [by apply Hheap|]. split; [done|]. by rewrite Hargs.
Qed.

End SpawnFacts.

(** The bare environment: the lookup caches the empty string and
    [endCB] is told that mencoder cannot be found. *)
Lemma spawn_without_binary_witness :
  (Supervisor._spawnMencoder (H := Samples.utils)
     (mkWorld Samples.bare ∅ (<[0%nat := [TStr "-ovc"]]> ∅) 7) 0 Samples.nice5).1.2
  = [EndCB (Some (mkError "Cannot find mencoder")) Undefined Undefined].
Proof.
  exact (f_equal (λ r, r.1.2)
           (proj1 (spawn_without_binary (H := Samples.utils)
                     (mkWorld Samples.bare ∅ (<[0%nat := [TStr "-ovc"]]> ∅) 7) 0
                     Samples.nice5 (<["mencoderPath" := ""]> ∅)
                     [ReadEnv "MENCODER_PATH"; Which "mencoder"] (inr "")
                     eq_refl eq_refl))).
Defined.

(** No niceness: [/opt/mencoder -ovc copy]. *)
Lemma spawn_without_niceness_witness :
  List.filter Run.isSpawn
    (Supervisor._spawnMencoder (H := Samples.utils) Samples.worldWithArgs 0
       (Supervisor.mkOptions None false false)).1.2
  = [Spawn "/opt/mencoder" [TStr "-ovc"; TStr "copy"]].
Proof.
  exact (proj2 (proj2 (spawn_without_niceness (H := Samples.utils)
                         Samples.worldWithArgs 0
                         (Supervisor.mkOptions None false false)
                         (cache Samples.worldWithArgs) [] "/opt/mencoder"
                         eq_refl eq_refl eq_refl))).
Defined.

(* ===================================================================== *)
(** * Further properties of [run]                                         *)
(* ===================================================================== *)

Section StartedFacts.
Context `{Utils}.
Import Supervisor Run.

Lemma deref_alloc l w : deref (alloc l w).1 (alloc l w).2 = l.
Proof. unfold alloc, deref. simpl. by rewrite lookup_insert_eq. Qed.

(** What [_prepare] does: the flags are checked, the rewriter is looked
    up if one is needed, and the arguments are put in a new array. *)
Lemma prepare_facts w c :
  (_prepare w c).1.1.1.2 = prepared c ∧
  (_prepare w c).1.2 = (checkFlvmeta (logger c) (_outputs c)).1.2 ∧
  env (_prepare w c).1.1.1.1 = env w ∧
  next_pid (_prepare w c).1.1.1.1 = next_pid w ∧
  match (_prepare w c).2 with
  | PThrew e => (checkFlvmeta (logger c) (_outputs c)).2 = inl e
  | PFailed er => (checkFlvmeta (logger c) (_outputs c)).2 = inr true ∧
                  (_getFlvtoolPath (env w) (cache w)).2 = inl er
  | PReady a => deref (_prepare w c).1.1.1.1 a = (_getArguments (prepared c)).2
  end.
Proof.
  unfold _prepare, prepared.
  destruct (checkFlvmeta (logger c) (_outputs c)) as [[outs warns] [e|found]];
    simpl; [done|].
  destruct found; [destruct (_getFlvtoolPath _ _) as [[cch pr] [er|p]]|]; simpl;
    try done.
  - repeat split. unfold deref. simpl. by rewrite lookup_insert_eq.
  - repeat split. unfold deref. simpl. by rewrite lookup_insert_eq.
Qed.

(** A call of [run] that has spawned the process and whose [processCB]
    ran to its end: the state it leaves and the actions it has
    performed. *)
Lemma run_running w c s acts pid k :
  run w c = Started s acts → proc s = Some (pid, k) →
  k = initial (opts s) ∧
  opts s = mkOptions (Some (opt_niceness c)) false false ∧
  ended s = false ∧ flvs s = [] ∧ killTimers s = 0%nat ∧ err s = "" ∧
  timer s = num_truthy (opt_timeout c) ∧
  outputStream s = streamTarget c ∧ outputStream s ≠ Some None ∧
  out s = match outputStream s with None => Some "" | Some _ => None end ∧
  self s = set_codecDataSent false (set_mencoderProc (Some pid) (prepared c)) ∧
  registered s = true ∧
  ∃ command line1 line2,
    str_truthy command = true ∧
    deref (world s) (args s) =
      nicePrefix (opt_niceness c) command ++ (_getArguments (prepared c)).2 ∧
    acts = (checkFlvmeta (logger c) (_outputs c)).1.2 ++
           [ConsoleLog line1; ConsoleLog line2;
            Spawn (if negb (opt_niceness c =? 0) && negb isWindows
                   then "nice" else command)
                  (deref (world s) (args s));
            ProcessCB pid;
            Emit (StartEv ("mencoder " +:+ join " " (deref (world s) (args s))))] ++
           (if timer s then [SetTimeout (default 0 (opt_timeout c) * 1000)] else []).
Proof.
  unfold run. destruct (negb (existsb hasTarget (_outputs c))); [done|].
  pose proof (prepare_facts w c) as (Hc1 & Hlogs & _ & _ & Hargs).
  destruct (_prepare w c) as [[[[w1 c1] pr] logs] [e|er|a]]; simpl in *.
  { done. }
  { intros [= <- <-]. done. }
  subst c1 logs.
  destruct (_spawnMencoder w1 a _) as [[[w2 pr2] sup] outcome] eqn:Hspawn.
  destruct outcome as [|pid' k'].
  { destruct (spawnMencoder_cases w1 a (mkOptions (Some (opt_niceness c)) false false))
      as [(er & Hacts & _)|(? & ? & ? & ? & ? & _ & Hout)];
      rewrite Hspawn in *; simpl in *; [|done].
    subst sup. simpl. destruct (contains _ _); intros [= <- <-]; done. }
  destruct (spawnMencoder_running _ _ _ _ _ _ _ _ Hspawn)
    as (cch & command & _ & Hcmd & -> & -> & _ & _ & Hderef & _ & l1 & l2 & ->).
  unfold processCB, streamTarget. simpl in *.
  destruct (target <$> head (List.filter targetNotString (_outputs c)))
    as [[t|]|] eqn:Hstream; simpl;
    destruct (num_truthy (opt_timeout c)) eqn:Htimer; simpl; try done;
    intros [= <- <-] [= <- <-]; simpl; rewrite ?Htimer;
    repeat split; try done;
    exists command, l1, l2; unfold nicePrefix; rewrite Hderef, Hargs;
    repeat split; try done; by rewrite <- !app_assoc.
Qed.

(** With no handler registered, no event has any effect on the outside. *)
Lemma idle_silent s evs : idle s → (steps s evs).2 = [].
Proof.
  revert s. induction evs as [|ev evs IH]; intros s (Hp & Ht & Hk & Hf); [done|].
  destruct (steps_cons s ev evs) as (_ & ->).
  assert ((step s ev).2 = [] ∧ idle (step s ev).1) as [-> Hidle].
  { unfold idle. destruct ev; simpl; rewrite ?Hp, ?Ht, ?Hk, ?Hf, ?andb_false_r;
      simpl; try done.
    - by destruct (outputStream s).
    - by destruct (outputStream s).
    - by destruct (0 <? progressListeners (self s))%nat. }
  by rewrite IH.
Qed.

End StartedFacts.

Section RunExtras.
Context `{Utils}.
Import Supervisor Run.

Lemma set_flvmeta_same o : flvmeta o = false → set_flvmeta false o = o.
Proof. destruct o. simpl. by intros ->. Qed.

(** The flag check on outputs at none of which it stops: with a logger
    every flag is cleared, with one warning per flagged output; without,
    there is no flag. *)
Lemma checkFlvmeta_none lg outs :
  existsb (stops lg) outs = false →
  checkFlvmeta lg outs =
    (map (set_flvmeta false) outs,
     map (λ _, LogWarn "Updating flv metadata is only supported for files")
         (List.filter unrewritable outs),
     inr false).
Proof.
  induction outs as [|o outs IH]; [done|]. simpl.
  intros [Ho Houts]%orb_false_iff. rewrite (IH Houts).
  unfold stops, clearFlag, rewritable, unrewritable in *.
  destruct lg, (flvmeta o) eqn:Hflag, (isFile o) eqn:Hfile; simpl in *; try done;
    rewrite ?Hflag; simpl; try done;
    by rewrite <- (set_flvmeta_same o Hflag) at 1.
Qed.

(** The flag check stops at a file that has the flag. *)
Lemma checkFlvmeta_file lg pre o post :
  existsb (stops lg) pre = false → rewritable o = true →
  checkFlvmeta lg (pre ++ o :: post) =
    (map (set_flvmeta false) pre ++ o :: post,
     map (λ _, LogWarn "Updating flv metadata is only supported for files")
         (List.filter unrewritable pre),
     inr true).
Proof.
  intros Hpre Ho. induction pre as [|p pre IH]; simpl.
  - unfold rewritable in Ho. apply andb_true_iff in Ho as [Hflag Hfile].
    unfold clearFlag. rewrite Hflag, Hfile. simpl. by rewrite Hflag.
  - simpl in Hpre. apply orb_false_iff in Hpre as [Hp Hpre].
    rewrite (IH Hpre). unfold stops, clearFlag, rewritable, unrewritable in *.
    destruct lg, (flvmeta p) eqn:Hflag, (isFile p) eqn:Hfile; simpl in *; try done;
      rewrite ?Hflag; simpl; try done;
      by rewrite <- (set_flvmeta_same p Hflag) at 1.
Qed.

(** Without a logger the flag check ends by an exception at an output
    that has the flag and is not a file, and nothing is changed. *)
Lemma checkFlvmeta_throws pre o post :
  existsb flvmeta pre = false → unrewritable o = true →
  checkFlvmeta false (pre ++ o :: post) =
    (pre ++ o :: post, [], inl (mkError "TypeError")).
Proof.
  intros Hpre Ho. induction pre as [|p pre IH]; simpl.
  - unfold unrewritable in Ho. unfold clearFlag. by rewrite Ho.
  - simpl in Hpre. apply orb_false_iff in Hpre as [Hp Hpre].
    rewrite (IH Hpre). unfold clearFlag. rewrite Hp. simpl. by rewrite Hp.
Qed.

(** X9. The flag check of [_prepare] ([Array.some] with a callback that
    warns and then clears the flag of a non-file output).  Let no output
    of [pre] be one at which the check stops: with a logger, none is a
    file with the flag; without a logger, none has the flag.  Then
    - on [pre] alone the check returns [false]; the flags of [pre] are
      cleared, with one warning for each non-file output that had it;
    - if the next output [o] is a file with the flag, the check returns
      [true] there: [o] and all outputs after it are left as they are,
      so a flagged non-file output behind it keeps its flag;
    - without a logger, if [o] has the flag and is not a file, the
      warning throws a [TypeError]: the check ends there and no flag is
      cleared, as the clearing comes after the warning. *)
Theorem flag_check_stops lg pre o post :
  existsb (stops lg) pre = false →
  let cleared := map (set_flvmeta false) pre in
  let warnings :=
    map (λ _, LogWarn "Updating flv metadata is only supported for files")
        (List.filter unrewritable pre) in
  checkFlvmeta lg pre = (cleared, warnings, inr false) ∧
  (rewritable o = true →
   checkFlvmeta lg (pre ++ o :: post) = (cleared ++ o :: post, warnings, inr true)) ∧
  (lg = false → unrewritable o = true →
   checkFlvmeta lg (pre ++ o :: post) =
     (pre ++ o :: post, [], inl (mkError "TypeError"))).
Proof.
  intros Hpre. cbv zeta. split; [by apply checkFlvmeta_none|]. split.
  - intros Ho. by apply checkFlvmeta_file.
  - intros -> Ho. by apply checkFlvmeta_throws.
Qed.

Lemma checkFlvmeta_warns lg outs :
  Forall (λ a, isWarn a = true) (checkFlvmeta lg outs).1.2.
Proof.
  induction outs as [|o outs IH]; [done|]. simpl. unfold clearFlag.
  destruct (checkFlvmeta lg outs) as [[rest warn] r]. simpl in IH.
  destruct (flvmeta o && negb (isFile o)); [destruct lg|]; simpl; try done;
    destruct (flvmeta o); simpl; try done; by constructor.
Qed.

Lemma warnings_only acts :
  Forall (λ a, isWarn a = true) acts →
  List.filter isSpawn acts = [] ∧ List.filter isStart acts = [] ∧
  terminals acts = [].
Proof.
  induction 1 as [|a acts Ha _ (IH1 & IH2 & IH3)]; [done|].
  by destruct a.
Qed.

(** X10. A run that spawns its process spawns once and emits ['start']
    once, and the ['start'] event's command line is ["mencoder "]
    followed by the very tokens handed to [spawn], joined by spaces:
    the assembled arguments and, in front of them, what the niceness
    rewrite has put into the shared array ([-n], the niceness and the
    binary's path). *)
Theorem start_reports_spawned_argv (w : World) (c : Command) s acts pid k :
  run w c = Started s acts → proc s = Some (pid, k) →
  ∃ command,
    let argv := nicePrefix (opt_niceness c) command ++ (_getArguments (prepared c)).2 in
    List.filter isSpawn acts =
      [Spawn (if negb (opt_niceness c =? 0) && negb isWindows then "nice" else command)
             argv] ∧
    List.filter isStart acts = [Emit (StartEv ("mencoder " +:+ join " " argv))].
Proof.
  intros Hrun Hproc.
  destruct (run_running w c s acts pid k Hrun Hproc)
    as (_ & _ & _ & _ & _ & _ & _ & _ & _ & _ & _ & _ &
        command & l1 & l2 & _ & Hargv & ->).
  exists command. cbv zeta. rewrite <- Hargv.
  destruct (warnings_only _ (checkFlvmeta_warns (logger c) (_outputs c)))
    as (Hs & Ht & _).
  rewrite !List.filter_app, Hs, Ht. simpl. by destruct (timer s).
Qed.

(** X11. When the flag check stops at a file that has the flag (no
    output before it is one at which the check stops, see [stops]) and
    the lookup of the rewriter reports an error, the run emits ['error']
    with that error and without buffers, and nothing else ever: no
    process is spawned and no later event has any effect. *)
Theorem rewriter_lookup_failure (w : World) (c : Command) pre o post
    c1 probes er evs :
  _outputs c = pre ++ o :: post →
  existsb (stops (logger c)) pre = false → rewritable o = true →
  existsb hasTarget (_outputs c) = true →
  _getFlvtoolPath (env w) (cache w) = (c1, probes, inl er) →
  terminals (trace w c evs) = [Emit (ErrorEv (EObj er) Undefined Undefined)] ∧
  List.filter isSpawn (trace w c evs) = [].
Proof.
  intros Houts Hpre Ho Htarget Hlookup.
  pose proof (checkFlvmeta_warns (logger c) (_outputs c)) as Hwarns.
  unfold trace, run, _prepare. rewrite Htarget. simpl.
  rewrite Houts in *. rewrite (checkFlvmeta_file _ pre o post Hpre Ho) in *.
  simpl in *. rewrite Hlookup. simpl.
  rewrite idle_silent by done.
  destruct (warnings_only _ Hwarns) as (Hs & _ & Ht).
  rewrite app_nil_r, terminals_app, List.filter_app, Hs, Ht. done.
Qed.

(** X12. A cached failed lookup makes every run fail: with the empty
    string cached for mencoder and no output at which the flag check
    stops (see [stops]), [run] emits ['error'] with the message "Cannot
    find mencoder", the [null] stdout and the empty stderr; no process is
    spawned and no later event has any effect. *)
Theorem missing_binary_fails_run (w : World) (c : Command) evs :
  existsb hasTarget (_outputs c) = true →
  existsb (stops (logger c)) (_outputs c) = false →
  cache w !! "mencoderPath" = Some "" →
  terminals (trace w c evs) =
    [Emit (ErrorEv (EObj (mkError "Cannot find mencoder")) Null (Text ""))] ∧
  List.filter isSpawn (trace w c evs) = [].
Proof.
  intros Htarget Hflag Hcached.
  pose proof (checkFlvmeta_none _ _ Hflag) as Hcheck.
  pose proof (checkFlvmeta_warns (logger c) (_outputs c)) as Hwarns.
  unfold trace, run, _prepare. rewrite Htarget, Hcheck in *. simpl in *.
  unfold _spawnMencoder. simpl.
  rewrite (getPath_cached false (env w) Mencoder (cache w) "" Hcached
           : _getMencoderPath _ _ = _). simpl.
  rewrite idle_silent by done.
  destruct (warnings_only _ Hwarns) as (Hs & _ & Ht).
  rewrite app_nil_r, terminals_app, List.filter_app, Hs, Ht. done.
Qed.

(** X23. Without a logger, a flagged output that is not a file makes
    [run] fail by an exception: when the first output that has the flag
    is not a file, the warning of the flag check throws a [TypeError]
    out of [_prepare]; the run does nothing at all, so nothing is
    spawned and no ['error'] is emitted, whatever events follow. *)
Theorem flag_warning_throws (w : World) (c : Command) pre o post :
  logger c = false →
  _outputs c = pre ++ o :: post →
  existsb flvmeta pre = false → unrewritable o = true →
  existsb hasTarget (_outputs c) = true →
  run w c = Threw [] (mkError "TypeError") ∧ ∀ evs, trace w c evs = [].
Proof.
  intros Hlg Houts Hpre Ho Htarget.
  unfold trace, run, _prepare. rewrite Htarget, Hlg, Houts. simpl.
  by rewrite (checkFlvmeta_throws pre o post Hpre Ho).
Qed.

Lemma feedStr_glue acc chunks : feedStr acc chunks = acc +:+ glue chunks.
Proof.
  unfold feedStr. revert acc. induction chunks as [|d chunks IH]; intros acc; simpl.
  - induction acc as [|ch acc IHacc]; [done|].
    change (String ch acc = String ch (acc +:+ "")). by rewrite <- IHacc.
  - by rewrite IH, append_assoc.
Qed.

(** Data chunks on a run without capture in the supervisor: stderr is
    always accumulated, stdout is accumulated when there is no output
    stream, and nothing else changes; no terminal event is emitted and
    nothing is spawned. *)
Lemma data_steps ds : ∀ s pid k,
  Forall (λ ev, isData ev = true) ds →
  proc s = Some (pid, k) →
  captureStdout (opts s) = false → captureStderr (opts s) = false →
  registered s = true →
  sameRun s (steps s ds).1 ∧
  err (steps s ds).1 = feedStr (err s) (stderrChunks (procEvents ds)) ∧
  out (steps s ds).1 =
    match outputStream s with
    | None => feed (out s) (stdoutChunks (procEvents ds))
    | Some _ => out s
    end ∧
  terminals (steps s ds).2 = [] ∧ List.filter isSpawn (steps s ds).2 = [].
Proof.
  induction ds as [|ev ds IH]; intros s pid k Hdata Hproc Hout Herr Hreg.
  - simpl. unfold sameRun. by destruct (outputStream s).
  - apply Forall_cons in Hdata as [Hev Hdata].
    destruct (steps_cons s ev ds) as (-> & ->).
    assert (sameRun s (step s ev).1 ∧
            err (step s ev).1 = feedStr (err s) (stderrChunks (procEvents [ev])) ∧
            out (step s ev).1 =
              match outputStream s with
              | None => feed (out s) (stdoutChunks (procEvents [ev]))
              | Some _ => out s
              end ∧
            terminals (step s ev).2 = [] ∧ List.filter isSpawn (step s ev).2 = [])
      as (Hsame & Herr1 & Hout1 & Ht1 & Hs1).
    { destruct ev as [e| | | | | | | |]; try done. destruct e; try done; simpl.
      - rewrite Hproc. simpl. rewrite Hout. simpl. rewrite Hreg.
        destruct (outputStream s) eqn:Hstream; unfold sameRun, terminals; simpl;
          rewrite ?Hstream; [done|].
        repeat split; try done;
          destruct (0 <? progressListeners (self s))%nat; simpl; try done;
          by induction (extractProgress _ _).
      - rewrite Hproc. simpl. rewrite Herr. simpl. rewrite Hreg.
        unfold sameRun, onStderrData, extractCodecData, terminals. simpl.
        destruct (negb (_codecDataSent (self s)) && (0 <? codecDataListeners (self s))%nat);
          [destruct (parseBanner _)|]; simpl; by destruct (outputStream s). }
    destruct Hsame as (Hp & He & Hf & Ho & Ht & Hk & Hos & His & Hw & Ha & Hou & Hm &
                       Hti & Hni & Hre & Hlg).
    destruct (IH (step s ev).1 pid k Hdata) as (Hsame2 & Herr2 & Hout2 & Ht2 & Hs2);
      [by rewrite Hp|by rewrite Ho|by rewrite Ho|by rewrite Hre|].
    rewrite terminals_app, List.filter_app, Ht1, Ht2, Hs1, Hs2, Herr2, Hout2, Herr1,
      Hout1, Hos.
    split; [|split; [|split]]; try done.
    + unfold sameRun in *.
      destruct Hsame2 as (-> & -> & -> & -> & -> & -> & -> & -> & -> & -> & -> & -> &
                          -> & -> & -> & ->).
      done.
    + destruct ev as [e| | | | | | | |]; try done. by destruct e.
    + destruct (outputStream s); [done|].
      destruct ev as [e| | | | | | | |]; try done. by destruct e.
Qed.

(** The state a started run is in, as far as the exit of the process
    is concerned, after some data chunks. *)
Lemma running_after_data w c s acts pid k ds :
  run w c = Started s acts → proc s = Some (pid, k) →
  Forall (λ ev, isData ev = true) ds →
  let s' := (steps s ds).1 in
  ended s' = false ∧ proc s' = Some (pid, initial (opts s')) ∧
  captureStdout (opts s') = false ∧ captureStderr (opts s') = false ∧
  flvs s' = [] ∧ rewritten s' = rewritten s ∧
  timer s' = num_truthy (opt_timeout c) ∧ opt_timeout (self s') = opt_timeout c ∧
  killTimers s' = 0%nat ∧ outputStream s' = streamTarget c ∧
  inputStream s' = inputStream s ∧
  err s' = glue (stderrChunks (procEvents ds)) ∧
  captured (out s') =
    match streamTarget c with
    | None => Text (glue (stdoutChunks (procEvents ds)))
    | Some _ => Null
    end ∧
  terminals (steps s ds).2 = [] ∧ List.filter isSpawn (steps s ds).2 = [] ∧
  registered s' = true ∧ logger (self s') = logger c.
Proof.
  intros Hrun Hproc Hdata.
  destruct (run_running w c s acts pid k Hrun Hproc)
    as (-> & Hopts & Hend & Hflvs & Hkill & Herr & Htimer & Hstream & _ & Hout & Hself &
        Hreg & _).
  destruct (data_steps ds s pid _ Hdata Hproc) as (Hsame & Herr' & Hout' & Ht & Hs);
    [by rewrite Hopts|by rewrite Hopts|done|].
  destruct Hsame as (Hp & He & Hf & Ho & Hti & Hk & Hos & His & Hw & Ha & Hou & Hm &
                     Hto & Hni & Hre & Hlg).
  cbv zeta. rewrite Hp, He, Hf, Ho, Hti, Hk, Hos, His, Hto, Herr', Hout', Hopts, Hre, Hlg.
  unfold rewritten. rewrite Hou, Herr, feedStr_glue, Hself, Hout, Hstream.
  repeat split; try done.
  - by rewrite Hproc, Hopts.
  - destruct (streamTarget c); [done|]. by rewrite feed_Some.
Qed.

(** X13. What the ['end'] event carries.  On a run with nothing to
    rewrite, when the process exits with code 0 and without signal after
    some data chunks, ['end'] is emitted with all stderr chunks,
    concatenated in arrival order, and with all stdout chunks likewise,
    unless the command has an output stream, in which case stdout is
    [null]: it is piped, not accumulated. *)
Theorem end_carries_output (w : World) (c : Command) s acts pid k ds code signal :
  run w c = Started s acts → proc s = Some (pid, k) →
  rewritten s = [] →
  Forall (λ ev, isData ev = true) ds →
  num_truthy code = false → optstr_truthy signal = false →
  terminals (steps s (ds ++ [Proc (PExit code signal)])).2 =
    [Emit (EndEv match streamTarget c with
                 | None => Text (glue (stdoutChunks (procEvents ds)))
                 | Some _ => Null
                 end
                 (Text (glue (stderrChunks (procEvents ds)))))].
Proof.
  intros Hrun Hproc Htodo Hdata Hcode Hsig.
  destruct (running_after_data w c s acts pid k ds Hrun Hproc Hdata)
    as (Hend & Hproc' & Hco & Hce & _ & Hre & _ & _ & _ & _ & _ & Herr & Hout & Ht & _).
  rewrite (proj2 (steps_app s ds _)), terminals_app, Ht, (proj2 (steps_single _ _)).
  pose proof (success_exit _ pid code signal Hend Hproc' Hco Hce Hcode Hsig) as Hexit.
  cbv zeta in Hexit. rewrite Hre, Htodo in Hexit. rewrite Hexit, Hout, Herr. done.
Qed.

(** X14. What ['error'] carries after a non-zero exit code.  When the
    process exits with a code other than 0 and without signal, the
    message of the emitted error is "mencoder exited with code N",
    a colon, and what [utils.extractError] finds in the stderr text
    accumulated so far; the event also carries the accumulated stdout
    ([null] with an output stream) and stderr. *)
Theorem exit_code_reports_diagnostic (w : World) (c : Command) s acts pid k ds n signal :
  run w c = Started s acts → proc s = Some (pid, k) →
  Forall (λ ev, isData ev = true) ds →
  n ≠ 0 → optstr_truthy signal = false →
  let errText := glue (stderrChunks (procEvents ds)) in
  terminals (steps s (ds ++ [Proc (PExit (Some n) signal)])).2 =
    [Emit (ErrorEv
             (EObj (mkError (("mencoder exited with code " +:+ pretty n) +:+
                             ": " +:+ extractError errText)))
             match streamTarget c with
             | None => Text (glue (stdoutChunks (procEvents ds)))
             | Some _ => Null
             end
             (Text errText))].
Proof.
  intros Hrun Hproc Hdata Hn Hsig.
  destruct (running_after_data w c s acts pid k ds Hrun Hproc Hdata)
    as (Hend & Hproc' & Hco & Hce & _ & _ & _ & _ & _ & _ & _ & Herr & Hout & Ht & _).
  cbv zeta.
  rewrite (proj2 (steps_app s ds _)), terminals_app, Ht, (proj2 (steps_single _ _)).
  set (s' := (steps s ds).1) in *. simpl. rewrite Hproc'.
  unfold handle, handleExit, initial. rewrite Hsig, Hco, Hce. simpl.
  assert (negb (n =? 0) = true) as -> by (by destruct (Z.eqb_spec n 0)).
  simpl. unfold endCB. simpl.
  change (contains "mencoder exited with code" _) with true. cbv iota.
  unfold emitEnd. simpl. rewrite Hend. simpl. by rewrite Hout, Herr.
Qed.

(** X15. The deadline.  A run of a command with a non-zero [timeout]
    sets a timer of that many thousand milliseconds.  If the timer fires
    before the process has exited, ['error'] is emitted with the message
    "process ran into a timeout (Ns)" and the stdout and stderr
    accumulated so far, the process is killed, and no later event emits
    another terminal event.  Without [timeout] no timer is set and a
    timer event does nothing. *)
Theorem deadline_ends_run (w : World) (c : Command) s acts pid k ds evs :
  run w c = Started s acts → proc s = Some (pid, k) →
  Forall (λ ev, isData ev = true) ds →
  match opt_timeout c with
  | Some t =>
      t ≠ 0 →
      SetTimeout (t * 1000) ∈ acts ∧
      terminals (steps s (ds ++ Timeout :: evs)).2 =
        [Emit (ErrorEv
                 (EObj (mkError ("process ran into a timeout (" +:+ pretty t +:+ "s)")))
                 match streamTarget c with
                 | None => Text (glue (stdoutChunks (procEvents ds)))
                 | Some _ => Null
                 end
                 (Text (glue (stderrChunks (procEvents ds)))))] ∧
      Kill pid None ∈ (steps s (ds ++ [Timeout])).2
  | None =>
      (∀ ms, SetTimeout ms ∉ acts) ∧ step (steps s ds).1 Timeout = ((steps s ds).1, [])
  end.
Proof.
  intros Hrun Hproc Hdata.
  destruct (running_after_data w c s acts pid k ds Hrun Hproc Hdata)
    as (Hend & Hproc' & _ & _ & _ & _ & Htimer & Hto & _ & _ & _ & Herr & Hout & Ht & _).
  destruct (run_running w c s acts pid k Hrun Hproc)
    as (_ & _ & _ & _ & _ & _ & Htimer0 & _ & _ & _ & _ & _ &
        command & l1 & l2 & _ & _ & Hacts).
  pose proof (checkFlvmeta_warns (logger c) (_outputs c)) as Hwarns.
  destruct (opt_timeout c) as [t|] eqn:Htime; simpl in *.
  - intros Hnz.
    assert (negb (t =? 0) = true) as Hnze by (by destruct (Z.eqb_spec t 0)).
    rewrite Hnze in *. rewrite Htimer0 in Hacts. subst acts. split; [|split].
    + apply elem_of_app. right. do 5 apply list_elem_of_further.
      apply list_elem_of_here.
    + change (Timeout :: evs) with ([Timeout] ++ evs).
      rewrite (proj2 (steps_app s ds _)), (proj2 (steps_app _ [Timeout] evs)),
        !terminals_app, Ht, (proj2 (steps_single _ _)), (proj1 (steps_single _ _)).
      set (s' := (steps s ds).1) in *. simpl. rewrite Htimer, Hto.
      unfold emitEnd. simpl. rewrite Hend. simpl. rewrite ended_silent by done.
      unfold killProc. simpl. by rewrite Hproc', Hout, Herr.
    + rewrite (proj2 (steps_app s ds _)), (proj2 (steps_single _ _)).
      apply elem_of_app. right.
      set (s' := (steps s ds).1) in *. simpl. rewrite Htimer.
      unfold emitEnd, killProc. simpl. rewrite Hend. simpl. rewrite Hproc'.
      apply list_elem_of_further, list_elem_of_here.
  - split.
    + intros ms Hin. rewrite Htimer0 in Hacts. subst acts.
      apply elem_of_app in Hin as [Hin|Hin].
      * rewrite Forall_forall in Hwarns. by apply Hwarns in Hin.
      * repeat (apply elem_of_cons in Hin as [Heq|Hin]; [done|]).
        by apply elem_of_nil in Hin.
    + simpl. by rewrite Htimer.
Qed.

Lemma run_inputStream w c s acts pid k :
  run w c = Started s acts → proc s = Some (pid, k) →
  inputStream s = existsb sourceNotString (_inputs c).
Proof.
  intros Hrun Hproc. pose proof (run_spawned w c) as Hsp. rewrite Hrun in Hsp.
  destruct Hsp as (_ & _ & _ & _ & Hin); [by rewrite Hproc|done].
Qed.

(** X16. Errors of the input stream.  When some input of the command is
    a stream, an ['error'] of that stream while the process runs ends
    the run: ['error'] is emitted with the message "Input stream error: "
    and the stream's message, without stdout or stderr even when chunks
    were accumulated, the process is killed, and nothing terminal
    follows.  When every input is a path no such handler exists. *)
Theorem input_stream_error_ends_run (w : World) (c : Command) s acts pid k ds msg evs :
  run w c = Started s acts → proc s = Some (pid, k) →
  Forall (λ ev, isData ev = true) ds →
  if existsb sourceNotString (_inputs c) then
    terminals (steps s (ds ++ InputError msg :: evs)).2 =
      [Emit (ErrorEv (EObj (mkError ("Input stream error: " +:+ msg)))
               Undefined Undefined)] ∧
    (step (steps s ds).1 (InputError msg)).2 =
      [Emit (ErrorEv (EObj (mkError ("Input stream error: " +:+ msg)))
               Undefined Undefined);
       Kill pid None]
  else step (steps s ds).1 (InputError msg) = ((steps s ds).1, []).
Proof.
  intros Hrun Hproc Hdata.
  destruct (running_after_data w c s acts pid k ds Hrun Hproc Hdata)
    as (Hend & Hproc' & _ & _ & _ & _ & _ & _ & _ & _ & His & _ & _ & Ht & _).
  rewrite (run_inputStream w c s acts pid k Hrun Hproc) in His.
  assert ((step (steps s ds).1 (InputError msg)).2 =
            (if existsb sourceNotString (_inputs c)
             then [Emit (ErrorEv (EObj (mkError ("Input stream error: " +:+ msg)))
                           Undefined Undefined);
                   Kill pid None]
             else []) ∧
          (if existsb sourceNotString (_inputs c)
           then ended (step (steps s ds).1 (InputError msg)).1 = true
           else (step (steps s ds).1 (InputError msg)).1 = (steps s ds).1))
    as [Hacts Hstate].
  { simpl. rewrite His, Hproc'. destruct (existsb sourceNotString (_inputs c)); simpl; [|done].
    unfold emitEnd, killProc. simpl. rewrite Hend. simpl. by rewrite Hproc'. }
  destruct (existsb sourceNotString (_inputs c)).
  - split; [|done].
    change (InputError msg :: evs) with ([InputError msg] ++ evs).
    rewrite (proj2 (steps_app s ds _)), (proj2 (steps_app _ [InputError msg] evs)),
      !terminals_app, Ht, (proj2 (steps_single _ _)), (proj1 (steps_single _ _)).
    rewrite Hacts, ended_silent by done. done.
  - destruct (step (steps s ds).1 (InputError msg)) as [s1 a1]. simpl in *. by subst.
Qed.

(** X17. Errors of the output stream.  When the command has an output
    stream, the handler of its ['error'] starts with
    [self.logger.debug].  Without a logger that call throws: the
    [TypeError] leaves the handler, nothing is emitted, the process is
    not killed and the run is as it was before the event.  With a logger
    the run ends: the line is logged, ['error'] is emitted with the
    message "Output stream error: " and the stream's message, without
    stdout or stderr, the process is killed, and nothing terminal
    follows.  Without an output stream no such handler exists. *)
Theorem output_stream_error_handler (w : World) (c : Command) s acts pid k ds msg evs :
  run w c = Started s acts → proc s = Some (pid, k) →
  Forall (λ ev, isData ev = true) ds →
  let s' := (steps s ds).1 in
  match streamTarget c with
  | Some _ =>
      if logger c then
        terminals (steps s (ds ++ OutputError msg :: evs)).2 =
          [Emit (ErrorEv (EObj (mkError ("Output stream error: " +:+ msg)))
                   Undefined Undefined)] ∧
        (step s' (OutputError msg)).2 =
          [LogDebug "Output stream error, killing mencoder process";
           Emit (ErrorEv (EObj (mkError ("Output stream error: " +:+ msg)))
                   Undefined Undefined);
           Kill pid None]
      else step s' (OutputError msg) = (s', [Uncaught (mkError "TypeError")])
  | None => step s' (OutputError msg) = (s', [])
  end.
Proof.
  intros Hrun Hproc Hdata.
  destruct (running_after_data w c s acts pid k ds Hrun Hproc Hdata)
    as (Hend & Hproc' & _ & _ & _ & _ & _ & _ & _ & Hos & _ & _ & _ & Ht & _ & Hreg & Hlg).
  cbv zeta. destruct (streamTarget c) as [t|] eqn:Hstream.
  - destruct (logger c) eqn:Hlogger.
    + assert ((step (steps s ds).1 (OutputError msg)).2 =
                [LogDebug "Output stream error, killing mencoder process";
                 Emit (ErrorEv (EObj (mkError ("Output stream error: " +:+ msg)))
                         Undefined Undefined);
                 Kill pid None] ∧
              ended (step (steps s ds).1 (OutputError msg)).1 = true) as [Hacts Hstate].
      { simpl. rewrite Hos, Hproc', Hreg, Hlg. simpl.
        unfold emitEnd, killProc. simpl. rewrite Hend. simpl. by rewrite Hproc'. }
      split; [|done].
      change (OutputError msg :: evs) with ([OutputError msg] ++ evs).
      rewrite (proj2 (steps_app s ds _)), (proj2 (steps_app _ [OutputError msg] evs)),
        !terminals_app, Ht, (proj2 (steps_single _ _)), (proj1 (steps_single _ _)).
      rewrite Hacts, ended_silent by done. done.
    + simpl. by rewrite Hos, Hproc', Hreg, Hlg.
  - simpl. by rewrite Hos.
Qed.

(** What the exit of the process leaves in the state of a run. *)
Lemma exit_facts s pid code signal :
  proc s = Some (pid, initial (opts s)) →
  captureStdout (opts s) = false → captureStderr (opts s) = false →
  let s' := (step s (Proc (PExit code signal))).1 in
  (∃ k', proc s' = Some (pid, k')) ∧ mencoderProc (self s') = None ∧
  timer s' = timer s ∧ killTimers s' = killTimers s ∧
  outputStream s' = outputStream s ∧
  opt_timeout (self s') = opt_timeout (self s) ∧
  (rewritten s = [] → ended s' = true).
Proof.
  intros Hproc Hco Hce. simpl. rewrite Hproc.
  unfold handle, handleExit, initial. rewrite Hco, Hce. simpl.
  unfold rewritten.
  destruct (optstr_truthy signal); [|destruct (num_truthy code)]; simpl;
    unfold endCB; simpl; try destruct (contains _ _);
    try (destruct (List.filter flvmeta (_outputs (self s))) as [|o todo];
         [|destruct (_getFlvtoolPath _ _) as [[cch pr] r]]);
    unfold emitEnd; simpl; destruct (ended s) eqn:He; simpl;
    (split; [by eexists|]); repeat split; done.
Qed.

(** A timer that fires after the run has ended emits nothing and still
    kills. *)
Lemma killTimer_after_end s pid k n :
  ended s = true → proc s = Some (pid, k) → killTimers s = S n →
  (step s KillTimer).2 = [Kill pid None].
Proof.
  intros He Hp Hk. simpl. rewrite Hk. unfold emitEnd, killProc. simpl.
  rewrite He. simpl. by rewrite Hp.
Qed.

Lemma timeout_after_end s pid k :
  ended s = true → proc s = Some (pid, k) → timer s = true →
  (step s Timeout).2 = [Kill pid None].
Proof.
  intros He Hp Ht. simpl. rewrite Ht. unfold emitEnd, killProc. simpl.
  rewrite He. simpl. by rewrite Hp.
Qed.

(** X18. The close of the output stream and the exit of the process,
    on a run with an output stream and nothing to rewrite.  The handler
    of ['close'] starts with [self.logger.debug].
    - Without a logger that call throws: the [TypeError] leaves the
      handler before [setTimeout] is reached, so no timer is pending and
      a timer event does nothing; when the process then exits with code
      0 and without signal the run ends with ['end'] (stdout [null], the
      accumulated stderr).
    - With a logger the close kills nothing at once: it schedules a
      timer of 20 ms.  If the process exits with code 0 and without
      signal before that timer fires, the run ends with ['end'] and the
      timer's error is dropped; if the timer fires first, the run ends
      with the error "Output stream closed", without stdout or stderr,
      and the later exit emits nothing.  The timer is never cancelled:
      after a clean exit it still calls [kill] on the process. *)
Theorem output_close_race (w : World) (c : Command) s acts pid k ds code signal :
  run w c = Started s acts → proc s = Some (pid, k) →
  is_Some (streamTarget c) → rewritten s = [] →
  Forall (λ ev, isData ev = true) ds →
  num_truthy code = false → optstr_truthy signal = false →
  let exit := Proc (PExit code signal) in
  let s' := (steps s ds).1 in
  let finished := Emit (EndEv Null (Text (glue (stderrChunks (procEvents ds))))) in
  if logger c then
    (step s' OutputClose).2 =
      [LogDebug "Output stream closed, scheduling kill for ffmpgeg process";
       SetTimeout 20] ∧
    terminals (steps s (ds ++ [OutputClose; exit; KillTimer])).2 = [finished] ∧
    terminals (steps s (ds ++ [OutputClose; KillTimer; exit])).2 =
      [Emit (ErrorEv (EObj (mkError "Output stream closed")) Undefined Undefined)] ∧
    (step (steps s (ds ++ [OutputClose; exit])).1 KillTimer).2 = [Kill pid None]
  else
    step s' OutputClose = (s', [Uncaught (mkError "TypeError")]) ∧
    step s' KillTimer = (s', []) ∧
    terminals (steps s (ds ++ [OutputClose; exit])).2 = [finished].
Proof.
  intros Hrun Hproc [t Hstream] Htodo Hdata Hcode Hsig exit.
  destruct (running_after_data w c s acts pid k ds Hrun Hproc Hdata)
    as (Hend & Hproc' & Hco & Hce & _ & Hre & _ & _ & Hkt & Hos & _ & Herr & Hout & Ht & _ &
        Hreg & Hlg).
  rewrite Hstream in *. rewrite Htodo in Hre. cbv zeta.
  set (s0 := (steps s ds).1) in *.
  destruct (logger c) eqn:Hlogger.
  - assert (step s0 OutputClose =
              (with_killTimers 1 s0,
               [LogDebug "Output stream closed, scheduling kill for ffmpgeg process";
                SetTimeout 20])) as Hclose.
    { simpl. by rewrite Hos, Hproc', Hkt, Hreg, Hlg. }
    set (s1 := with_killTimers 1 s0) in *.
    pose proof (success_exit s1 pid code signal Hend Hproc' Hco Hce Hcode Hsig) as Hexit.
    cbv zeta in Hexit. change (rewritten s1) with (rewritten s0) in Hexit.
    rewrite Hre in Hexit.
    destruct (exit_facts s1 pid code signal Hproc' Hco Hce)
      as ((k' & Hproc2) & _ & _ & Hkt2 & _ & _ & Hend2).
    specialize (Hend2 Hre). fold exit in Hexit, Hproc2, Hkt2, Hend2.
    assert ((step (step s1 exit).1 KillTimer).2 = [Kill pid None]) as Hlate.
    { by apply (killTimer_after_end _ pid k' 0%nat). }
    assert ((step s0 OutputClose).1 = s1) as Hc1 by (by rewrite Hclose).
    assert ((step s0 OutputClose).2 =
              [LogDebug "Output stream closed, scheduling kill for ffmpgeg process";
               SetTimeout 20]) as Hc2 by (by rewrite Hclose).
    clear Hclose.
    split; [done|]. split; [|split].
    + change [OutputClose; exit; KillTimer] with ([OutputClose] ++ [exit] ++ [KillTimer]).
      rewrite (proj2 (steps_app s ds _)), (proj2 (steps_app _ [OutputClose] _)),
        (proj2 (steps_app _ [exit] _)), !terminals_app, Ht,
        !(proj2 (steps_single _ _)), !(proj1 (steps_single _ _)).
      fold s0. rewrite Hc1, Hc2, Hexit, Hlate. simpl.
      by rewrite Hout, Herr.
    + change [OutputClose; KillTimer; exit] with ([OutputClose] ++ [KillTimer] ++ [exit]).
      rewrite (proj2 (steps_app s ds _)), (proj2 (steps_app _ [OutputClose] _)),
        (proj2 (steps_app _ [KillTimer] _)), !terminals_app, Ht,
        !(proj2 (steps_single _ _)), !(proj1 (steps_single _ _)).
      fold s0. rewrite Hc1, Hc2.
      assert ((step s1 KillTimer).2 =
                [Emit (ErrorEv (EObj (mkError "Output stream closed")) Undefined Undefined);
                 Kill pid None] ∧ ended (step s1 KillTimer).1 = true) as [Hfire Hended].
      { simpl. unfold emitEnd, killProc. simpl. rewrite Hend. simpl. by rewrite Hproc'. }
      rewrite Hfire. rewrite <- (proj2 (steps_single _ exit)), ended_silent by done. done.
    + change [OutputClose; exit] with ([OutputClose] ++ [exit]).
      rewrite (proj1 (steps_app s ds _)), (proj1 (steps_app _ [OutputClose] _)),
        !(proj1 (steps_single _ _)).
      fold s0. by rewrite Hc1.
  - assert (step s0 OutputClose = (s0, [Uncaught (mkError "TypeError")])) as Hclose.
    { simpl. by rewrite Hos, Hproc', Hreg, Hlg. }
    split; [done|]. split; [simpl; by rewrite Hkt|].
    pose proof (success_exit s0 pid code signal Hend Hproc' Hco Hce Hcode Hsig) as Hexit.
    cbv zeta in Hexit. rewrite Hre in Hexit. fold exit in Hexit.
    change [OutputClose; exit] with ([OutputClose] ++ [exit]).
    rewrite (proj2 (steps_app s ds _)), (proj2 (steps_app _ [OutputClose] _)),
      !terminals_app, Ht, !(proj2 (steps_single _ _)), !(proj1 (steps_single _ _)).
    fold s0.
    assert ((step s0 OutputClose).1 = s0) as -> by (by rewrite Hclose).
    assert ((step s0 OutputClose).2 = [Uncaught (mkError "TypeError")]) as ->
      by (by rewrite Hclose).
    rewrite Hexit. simpl. by rewrite Hout, Herr.
Qed.

(** X19. The deadline timer is never cancelled.  On a run with a
    non-zero [timeout] and nothing to rewrite, when the timer fires after
    the process has exited, whatever the exit code and signal, nothing is
    emitted, yet [kill] is still called on the handle of the process. *)
Theorem late_deadline_still_kills (w : World) (c : Command) s acts pid k ds code signal :
  run w c = Started s acts → proc s = Some (pid, k) →
  num_truthy (opt_timeout c) = true → rewritten s = [] →
  Forall (λ ev, isData ev = true) ds →
  (step (steps s (ds ++ [Proc (PExit code signal)])).1 Timeout).2 = [Kill pid None].
Proof.
  intros Hrun Hproc Htime Htodo Hdata.
  destruct (running_after_data w c s acts pid k ds Hrun Hproc Hdata)
    as (Hend & Hproc' & Hco & Hce & _ & Hre & Htimer & _).
  rewrite Htodo in Hre.
  destruct (exit_facts _ pid code signal Hproc' Hco Hce)
    as ((k' & Hproc2) & _ & Htimer2 & _ & _ & _ & Hend2).
  specialize (Hend2 Hre).
  rewrite (proj1 (steps_app s ds _)), (proj1 (steps_single _ _)).
  apply (timeout_after_end _ pid k'); [done|done|].
  by rewrite Htimer2, Htimer.
Qed.

Lemma emitEnd_self e so se s : self (emitEnd e so se s).1 = self s.
Proof. unfold emitEnd. by destruct (ended s). Qed.

Lemma endCB_deleted e s : mencoderProc (self (endCB e s).1) = None.
Proof.
  unfold endCB. destruct e as [er|].
  - by rewrite emitEnd_self.
  - simpl. destruct (List.filter flvmeta (_outputs (self s))) as [|o todo].
    + by rewrite emitEnd_self.
    + by destruct (_getFlvtoolPath _ _) as [[cch pr] r].
Qed.

Lemma onSup_deleted acts : ∀ s,
  mencoderProc (self s) = None → mencoderProc (self (onSup acts s).1) = None.
Proof.
  induction acts as [|a acts IH]; intros s Hs; [done|]. simpl.
  assert (mencoderProc (self (match a with
                              | EndCB e _ _ => endCB e s
                              | _ => (s, [])
                              end).1) = None) as Ha.
  { destruct a; try done. apply endCB_deleted. }
  destruct (match a with EndCB e _ _ => endCB e s | _ => (s, []) end) as [s1 a1].
  specialize (IH s1 Ha). by destruct (onSup acts s1) as [s2 a2].
Qed.

Lemma flvCallback_self b i e s : self (flvCallback b i e s).1 = self s.
Proof.
  unfold flvCallback. destruct (flvs s !! b) as [f|]; [|done].
  destruct (items f !! i); [|done]. destruct (bool_decide _); [done|].
  destruct (err_truthy e).
  - destruct (finished f); [done|]. unfold emitEnd. by destruct (ended s).
  - destruct (_ && _); [|done]. unfold emitEnd. by destruct (ended s).
Qed.

(** Once [self.mencoderProc] is deleted, no handler of the run sets it
    again. *)
Lemma step_keeps_deleted s ev :
  mencoderProc (self s) = None → mencoderProc (self (step s ev).1) = None.
Proof.
  intros Hs. destruct ev; simpl.
  - destruct (proc s) as [[pid k]|]; [|done].
    destruct (handle (opts s) k e) as [k1 a1].
    pose proof (onSup_deleted a1 (with_proc (Some (pid, k1)) s) Hs) as Hsup.
    destruct (onSup a1 _) as [s1 a2]. simpl in Hsup.
    destruct e; simpl; try done.
    + by destruct (registered s1), (outputStream s1).
    + destruct (registered s1); [|done]. unfold onStderrData. simpl.
      destruct (_ && _); [|done]. unfold extractCodecData.
      by destruct (parseBanner _).
  - destruct (_ && _); [|done]. unfold emitEnd. by destruct (ended s).
  - destruct (timer s); [|done]. unfold emitEnd. simpl. by destruct (ended s).
  - by destruct (outputStream s), (proc s), (registered s), (logger (self s)).
  - destruct (killTimers s); [done|]. unfold emitEnd. simpl. by destruct (ended s).
  - destruct (outputStream s), (proc s), (registered s), (logger (self s));
      try done. simpl. unfold emitEnd. by destruct (ended s).
  - by destruct (0 <? _)%nat.
  - destruct (flvs s !! b) as [f|]; [|done]. destruct (items f !! i); [|done].
    by rewrite flvCallback_self.
  - destruct (flvs s !! b) as [f|]; [|done]. destruct (items f !! i); [|done].
    destruct (_ || _); by rewrite flvCallback_self.
Qed.

Lemma steps_keep_deleted evs : ∀ s,
  mencoderProc (self s) = None → mencoderProc (self (steps s evs).1) = None.
Proof.
  induction evs as [|ev evs IH]; intros s Hs; [done|].
  rewrite (proj1 (steps_cons s ev evs)). by apply IH, step_keeps_deleted.
Qed.

(** X20. The life of [self.mencoderProc].  While the process of a
    started run has only sent data, [kill] signals that process, with
    the signal given or [SIGKILL]; [renice] with a value in [-20, 20]
    returns, and whenever it returns it has spawned [renice] on the pid
    of the process (nothing on Windows).  From the exit of the process
    or its ['error'] on, whatever else happens, the property is deleted:
    [kill] only warns that there is no running process -- and throws a
    [TypeError] instead when the command has no logger -- and [renice]
    spawns nothing. *)
Theorem handle_lives_until_completion (w : World) (c : Command) s acts pid k
    ds e evs sig n :
  run w c = Started s acts → proc s = Some (pid, k) →
  Forall (λ ev, isData ev = true) ds →
  isExit e || isError e = true →
  let live := self (steps s ds).1 in
  let done := self (steps s (ds ++ Proc e :: evs)).1 in
  kill sig live =
    inr [Kill pid (Some (if optstr_truthy sig then default "" sig else "SIGKILL"))] ∧
  (-20 ≤ default 0 n ≤ 20 → ∃ r, renice n live = inr r) ∧
  (∀ c1 did, renice n live = inr (c1, did) →
     List.filter isSpawn did =
       if isWindows then []
       else [Spawn "renice" [TNum (Z.min 20 (Z.max (-20) (default 0 n))); TStr "-p";
                             TNum (Z.of_nat pid)]]) ∧
  kill sig done =
    (if logger c
     then inr [LogWarn "No running mencoder process, cannot send signal"]
     else inl (mkError "TypeError")) ∧
  (∀ c1 did, renice n done = inr (c1, did) → List.filter isSpawn did = []).
Proof.
  intros Hrun Hproc Hdata He.
  destruct (run_running w c s acts pid k Hrun Hproc)
    as (_ & Hopts & _ & _ & _ & _ & _ & _ & _ & _ & Hself & Hreg & _).
  destruct (running_after_data w c s acts pid k ds Hrun Hproc Hdata)
    as (_ & Hproc' & Hco & Hce & _).
  destruct (data_steps ds s pid _ Hdata Hproc) as (Hsame & _);
    [by rewrite Hopts|by rewrite Hopts|done|].
  destruct Hsame as (_ & _ & _ & _ & _ & _ & _ & _ & _ & _ & _ & Hm & _).
  rewrite Hself in Hm. simpl in Hm.
  assert (mencoderProc (self (steps s (ds ++ Proc e :: evs)).1) = None) as Hdel.
  { change (Proc e :: evs) with ([Proc e] ++ evs).
    rewrite (proj1 (steps_app s ds _)), (proj1 (steps_app _ [Proc e] evs)),
      (proj1 (steps_single _ _)).
    apply steps_keep_deleted. destruct e; try done.
    - simpl. rewrite Hproc'. simpl. unfold emitEnd. simpl.
      by destruct (ended _).
    - by destruct (exit_facts _ pid code signal Hproc' Hco Hce) as (_ & ? & _). }
  assert (logger (self (steps s (ds ++ Proc e :: evs)).1) = logger c) as Hlg.
  { destruct (steps_stable (ds ++ Proc e :: evs) s) as (_ & _ & _ & _ & _ & _ & -> & _).
    by rewrite Hself. }
  assert (∀ z, (if z =? 0 then 0 else z) = z) as Hz
    by (intros z; by destruct (Z.eqb_spec z 0)).
  assert (match n with Some z => if z =? 0 then 0 else z | None => 0 end = default 0 n)
    as Hn by (destruct n; simpl; by rewrite ?Hz).
  cbv zeta. unfold kill, renice, warn. rewrite Hm, Hdel, Hlg, Hn.
  split; [done|]. split; [|split; [|split; [done|]]].
  - intros Hin. destruct isWindows; [by eexists|].
    assert ((default 0 n <? -20) || (20 <? default 0 n) = false) as ->
      by (destruct (Z.ltb_spec (default 0 n) (-20)), (Z.ltb_spec 20 (default 0 n));
          simpl; lia).
    by eexists.
  - intros c1 did. destruct isWindows; [by intros [= <- <-]|].
    destruct ((default 0 n <? -20) || (20 <? default 0 n));
      [destruct (logger (self (steps s ds).1)); [|done]|];
      intros [= <- <-]; simpl; by rewrite Hm.
  - intros c1 did. destruct isWindows; [by intros [= <- <-]|].
    destruct ((default 0 n <? -20) || (20 <? default 0 n));
      [destruct (logger c); [|done]|];
      intros [= <- <-]; simpl; by rewrite Hdel.
Qed.

(** X21. [renice] before [run].  Except on Windows, when [renice(n)]
    has returned, a run started afterwards spawns its process under
    [nice] with the clamped value, in front of the binary's path and
    the arguments of the command, when that value is not 0, and spawns
    the binary itself when it is 0.  On a command without logger
    [renice(n)] returns only for [n] in [-20, 20], so the value is [n]
    itself. *)
Theorem renice_then_run (w : World) (c : Command) n c1 did s acts pid k :
  isWindows = false →
  renice (Some n) c = inr (c1, did) →
  run w c1 = Started s acts → proc s = Some (pid, k) →
  let m := Z.min 20 (Z.max (-20) n) in
  (logger c = false → m = n) ∧
  ∃ command,
    List.filter isSpawn acts =
      [if m =? 0
       then Spawn command (_getArguments (prepared c)).2
       else Spawn "nice" ([TStr "-n"; TNum m; TStr command] ++
                          (_getArguments (prepared c)).2)].
Proof.
  intros Hwin Hrenice Hrun Hproc.
  destruct (run_running _ _ s acts pid k Hrun Hproc)
    as (_ & _ & _ & _ & _ & _ & _ & _ & _ & _ & _ & _ &
        command & l1 & l2 & _ & Hargv & ->).
  unfold renice, warn in Hrenice. rewrite Hwin in Hrenice.
  assert ((if n =? 0 then 0 else n) = n) as Hn by (by destruct (Z.eqb_spec n 0)).
  rewrite Hn in Hrenice. cbv zeta.
  assert (c1 = set_niceness (Z.min 20 (Z.max (-20) n)) c ∧
          (logger c = false → Z.min 20 (Z.max (-20) n) = n)) as [-> Hsame].
  { destruct (Z.ltb_spec n (-20)), (Z.ltb_spec 20 n); simpl in Hrenice;
      destruct (logger c); try done; injection Hrenice as <- <-;
      split; try done; intros _; lia. }
  split; [done|]. exists command.
  destruct (warnings_only _
              (checkFlvmeta_warns (logger (set_niceness (Z.min 20 (Z.max (-20) n)) c))
                 (_outputs (set_niceness (Z.min 20 (Z.max (-20) n)) c))))
    as (Hs & _ & _).
  rewrite !List.filter_app, Hs, Hargv. unfold nicePrefix. rewrite Hwin. simpl.
  destruct (Z.min 20 (Z.max (-20) n) =? 0); simpl; by destruct (timer s).
Qed.

(** A call of [run] whose [processCB] threw: the state it leaves and
    what it has done. *)
Lemma run_broke w c s acts e :
  run w c = Broke s acts e →
  e = mkError "TypeError" ∧ streamTarget c = Some None ∧
  ∃ pid,
    proc s = Some (pid, initial (opts s)) ∧
    captureStdout (opts s) = false ∧ captureStderr (opts s) = false ∧
    ended s = false ∧ registered s = false ∧ out s = None ∧ err s = "" ∧
    mencoderProc (self s) = Some pid ∧
    List.filter isStart acts =
      [Emit (StartEv ("mencoder " +:+ join " " (deref (world s) (args s))))] ∧
    ∃ command, List.filter isSpawn acts = [Spawn command (deref (world s) (args s))].
Proof.
  unfold run. destruct (negb (existsb hasTarget (_outputs c))); [done|].
  pose proof (prepare_facts w c) as (_ & Hlogs & _).
  destruct (_prepare w c) as [[[[w1 c1] pr] logs] [e1|er|a]]; simpl in *.
  { done. }
  { done. }
  subst logs.
  destruct (_spawnMencoder w1 a _) as [[[w2 pr2] sup] outcome] eqn:Hspawn.
  destruct outcome as [|pid' k'].
  { destruct (spawnMencoder_cases w1 a (mkOptions (Some (opt_niceness c)) false false))
      as [(er & Hacts & _)|(? & ? & ? & ? & ? & _ & Hout)];
      rewrite Hspawn in *; simpl in *; [|done].
    subst sup. simpl. by destruct (contains _ _). }
  destruct (spawnMencoder_running _ _ _ _ _ _ _ _ Hspawn)
    as (cch & command & _ & Hcmd & -> & -> & _ & _ & Hderef & _ & l1 & l2 & ->).
  destruct (warnings_only _ (checkFlvmeta_warns (logger c) (_outputs c)))
    as (Hs & Ht & _).
  unfold processCB, streamTarget. simpl in *.
  destruct (target <$> head (List.filter targetNotString (_outputs c)))
    as [[t|]|] eqn:Hstream; simpl;
    destruct (num_truthy (opt_timeout c1)) eqn:Htimer; simpl; try done;
    intros [= <- <- <-]; simpl; repeat split; try done;
    exists (next_pid w1); repeat split; try done;
    rewrite ?List.filter_app, ?Hs, ?Ht; simpl; try done; by eexists.
Qed.

(** Data chunks when [processCB] did not register its handlers are not
    gathered. *)
Lemma data_ignored ds : ∀ s pid k,
  Forall (λ ev, isData ev = true) ds →
  proc s = Some (pid, k) →
  captureStdout (opts s) = false → captureStderr (opts s) = false →
  registered s = false →
  steps s ds = (s, []).
Proof.
  induction ds as [|ev ds IH]; intros s pid k Hdata Hproc Hout Herr Hreg; [done|].
  apply Forall_cons in Hdata as [Hev Hdata].
  assert (step s ev = (s, [])) as Hstep.
  { destruct ev as [e| | | | | | | |]; try done.
    destruct e; try done; simpl; rewrite Hproc; simpl;
      rewrite ?Hout, ?Herr; simpl; rewrite Hreg;
      destruct s; simpl in *; by subst. }
  simpl. rewrite Hstep. by rewrite (IH s pid k).
Qed.

(** X24. An output without target in front of the streams.  When the
    first output whose target is not a string has no target at all (as
    the output that the constructor adds), [processCB] throws a
    [TypeError] at [pipe]: by then the process is spawned, once, and
    ['start'] is emitted with its arguments, but the handlers of stdout
    and stderr are not registered.  The handlers of the supervisor are:
    with nothing to rewrite, when the process exits with code 0 and
    without signal, after whatever data, the run emits ['end'] with
    stdout [null] and the empty stderr; [kill] signals the process
    until then. *)
Theorem pipe_to_missing_target (w : World) (c : Command) s acts e ds code signal sig :
  run w c = Broke s acts e →
  rewritten s = [] →
  Forall (λ ev, isData ev = true) ds →
  num_truthy code = false → optstr_truthy signal = false →
  e = mkError "TypeError" ∧ streamTarget c = Some None ∧
  List.filter isStart acts =
    [Emit (StartEv ("mencoder " +:+ join " " (deref (world s) (args s))))] ∧
  (∃ command, List.filter isSpawn acts = [Spawn command (deref (world s) (args s))]) ∧
  (∃ pid, kill sig (self (steps s ds).1) =
            inr [Kill pid (Some (if optstr_truthy sig then default "" sig
                                 else "SIGKILL"))]) ∧
  terminals (trace w c (ds ++ [Proc (PExit code signal)])) =
    [Emit (EndEv Null (Text ""))].
Proof.
  intros Hrun Htodo Hdata Hcode Hsig.
  destruct (run_broke w c s acts e Hrun)
    as (-> & Hstream & pid & Hproc & Hco & Hce & Hend & Hreg & Hout & Herr & Hm &
        Hstart & Hspawn).
  pose proof (data_ignored ds s pid _ Hdata Hproc Hco Hce Hreg) as Hds.
  repeat split; try done.
  - exists pid. rewrite Hds. unfold kill. simpl. by rewrite Hm.
  - pose proof (run_latched w c) as Hl. unfold trace. rewrite Hrun in *.
    destruct Hl as [Ht _]. rewrite Hend in Ht.
    rewrite terminals_app, (tcount_0 _ Ht).
    rewrite (proj2 (steps_app s ds _)), Hds, (proj2 (steps_single _ _)). simpl fst.
    pose proof (success_exit s pid code signal Hend Hproc Hco Hce Hcode Hsig) as Hexit.
    cbv zeta in Hexit. rewrite Htodo in Hexit. rewrite Hexit, Hout, Herr. done.
Qed.

Lemma fold_addOutput outs : ∀ acc,
  fold_left addOutput outs acc = acc ++ fold_left addOutput outs [].
Proof.
  induction outs as [|o outs IH]; intros acc; simpl; [by rewrite app_nil_r|].
  rewrite IH, (IH (addOutput [] o)). unfold addOutput. simpl.
  by rewrite <- app_assoc.
Qed.

(** X22. The flag check of [_prepare] does not change the argument list:
    the arguments assembled from the command as [_prepare] leaves it are
    those of the command as it was given. *)
Theorem prepare_keeps_arguments (c : Command) :
  (_getArguments (prepared c)).2 = (_getArguments c).2.
Proof.
  assert (∀ lg outs, fold_left addOutput (checkFlvmeta lg outs).1.1 [] =
                     fold_left addOutput outs []) as Hfold.
  { intros lg. induction outs as [|o outs IH]; [done|]. simpl. unfold clearFlag.
    destruct (flvmeta o && negb (isFile o)) eqn:Hflag; [destruct lg; [|done]|]; simpl.
    - destruct (checkFlvmeta true outs) as [[rest warn] found]. simpl in *.
      rewrite fold_addOutput, IH, <- fold_addOutput. done.
    - destruct (flvmeta o); [done|].
      destruct (checkFlvmeta lg outs) as [[rest warn] found]. simpl in *.
      rewrite fold_addOutput, IH, <- fold_addOutput. done. }
  unfold _getArguments, prepared. simpl. by rewrite Hfold.
Qed.

End RunExtras.

(** ** The further properties of [run], on sample runs *)

(** Without a logger, behind a plain file: a flagged stream in front of
    a flagged file throws and changes nothing; a flagged file in front
    of a flagged stream stops the check, and the stream keeps its
    flag. *)
Lemma flag_check_stops_witness :
  Run.checkFlvmeta (H := Samples.utils) false
    [Samples.fileOutput "a.avi" false; Samples.streamOutput true;
     Samples.fileOutput "b.flv" true]
  = ([Samples.fileOutput "a.avi" false; Samples.streamOutput true;
      Samples.fileOutput "b.flv" true], [], inl (mkError "TypeError")) ∧
  Run.checkFlvmeta (H := Samples.utils) false
    [Samples.fileOutput "a.avi" false; Samples.fileOutput "b.flv" true;
     Samples.streamOutput true]
  = ([Samples.fileOutput "a.avi" false; Samples.fileOutput "b.flv" true;
      Samples.streamOutput true], [], inr true).
Proof.
  split.
  - exact (proj2 (proj2 (flag_check_stops (H := Samples.utils) false
                           [Samples.fileOutput "a.avi" false]
                           (Samples.streamOutput true)
                           [Samples.fileOutput "b.flv" true] eq_refl))
             eq_refl eq_refl).
  - exact (proj1 (proj2 (flag_check_stops (H := Samples.utils) false
                           [Samples.fileOutput "a.avi" false]
                           (Samples.fileOutput "b.flv" true)
                           [Samples.streamOutput true] eq_refl))
             eq_refl).
Defined.

(** A niceness of 5: [nice -n 5 /opt/mencoder mf://in.avi -o a.avi],
    reported as such. *)
Lemma start_reports_spawned_argv_witness :
  ∃ command,
    let argv := [TStr "-n"; TNum 5; TStr command; TStr "mf://in.avi";
                 TStr "-o"; TStr "a.avi"] in
    List.filter Run.isSpawn (Samples.startActs Samples.niced) = [Spawn "nice" argv] ∧
    List.filter Run.isStart (Samples.startActs Samples.niced) =
      [Emit (StartEv ("mencoder " +:+ join " " argv))].
Proof.
  exact (start_reports_spawned_argv (H := Samples.utils) Samples.world Samples.niced
           (Samples.started Samples.niced) (Samples.startActs Samples.niced) 7
           (Supervisor.initial (Supervisor.mkOptions (Some 5) false false))
           eq_refl eq_refl).
Defined.

(** The rewriter is needed and the search-path helper fails. *)
Lemma rewriter_lookup_failure_witness :
  Run.terminals (Run.trace (H := Samples.utils) Samples.brokenWorld Samples.rewriting
                   [Run.Timeout; Run.Proc (PExit (Some 0) None)])
  = [Emit (ErrorEv (EObj (mkError "which failed")) Undefined Undefined)].
Proof.
  exact (proj1 (rewriter_lookup_failure (H := Samples.utils) Samples.brokenWorld
                  Samples.rewriting [] (Samples.fileOutput "a.flv" true)
                  [Samples.fileOutput "b.flv" true] ∅
                  [ReadEnv "FLVMETA_PATH"; ReadEnv "FLVTOOL2_PATH"; Which "flvmeta"]
                  (mkError "which failed")
                  [Run.Timeout; Run.Proc (PExit (Some 0) None)]
                  eq_refl eq_refl eq_refl eq_refl eq_refl)).
Defined.

(** A flagged stream in front of a flagged file, no logger: [run]
    throws. *)
Lemma flag_warning_throws_witness :
  Run.run (H := Samples.utils) Samples.world
    (Samples.command [Samples.streamOutput true; Samples.fileOutput "a.flv" true])
  = Run.Threw [] (mkError "TypeError").
Proof.
  exact (proj1 (flag_warning_throws (H := Samples.utils) Samples.world
                  (Samples.command [Samples.streamOutput true;
                                    Samples.fileOutput "a.flv" true])
                  [] (Samples.streamOutput true) [Samples.fileOutput "a.flv" true]
                  eq_refl eq_refl eq_refl eq_refl eq_refl)).
Defined.

(** The empty string is cached for mencoder. *)
Lemma missing_binary_fails_run_witness :
  Run.terminals (Run.trace (H := Samples.utils) Samples.emptyHanded Samples.plain
                   [Run.Proc (PExit (Some 0) None)])
  = [Emit (ErrorEv (EObj (mkError "Cannot find mencoder")) Null (Text ""))].
Proof.
  exact (proj1 (missing_binary_fails_run (H := Samples.utils) Samples.emptyHanded
                  Samples.plain [Run.Proc (PExit (Some 0) None)]
                  eq_refl eq_refl eq_refl)).
Defined.

(** Three chunks, then a clean exit. *)
Lemma end_carries_output_witness :
  Run.terminals
    (Run.steps (H := Samples.utils) (Samples.started Samples.plain)
       (Samples.chunks ++ [Run.Proc (PExit (Some 0) None)])).2
  = [Emit (EndEv (Text "out") (Text "err1err2"))].
Proof.
  exact (end_carries_output (H := Samples.utils) Samples.world Samples.plain
           (Samples.started Samples.plain) (Samples.startActs Samples.plain) 7
           (Supervisor.initial (Supervisor.mkOptions (Some 0) false false))
           Samples.chunks (Some 0) None
           eq_refl eq_refl eq_refl ltac:(by repeat constructor) eq_refl eq_refl).
Defined.

(** Three chunks, then exit code 3. *)
Lemma exit_code_reports_diagnostic_witness :
  Run.terminals
    (Run.steps (H := Samples.utils) (Samples.started Samples.plain)
       (Samples.chunks ++ [Run.Proc (PExit (Some 3) None)])).2
  = [Emit (ErrorEv (EObj (mkError "mencoder exited with code 3: err1err2"))
             (Text "out") (Text "err1err2"))].
Proof.
  exact (exit_code_reports_diagnostic (H := Samples.utils) Samples.world Samples.plain
           (Samples.started Samples.plain) (Samples.startActs Samples.plain) 7
           (Supervisor.initial (Supervisor.mkOptions (Some 0) false false))
           Samples.chunks 3 None
           eq_refl eq_refl ltac:(by repeat constructor) ltac:(done) eq_refl).
Defined.

(** A deadline of 3 seconds that passes after three chunks; the exit
    comes later. *)
Lemma deadline_ends_run_witness :
  SetTimeout 3000 ∈ Samples.startActs Samples.timed ∧
  Run.terminals
    (Run.steps (H := Samples.utils) (Samples.started Samples.timed)
       (Samples.chunks ++ Run.Timeout :: [Run.Proc (PExit None (Some "SIGKILL"))])).2
  = [Emit (ErrorEv (EObj (mkError "process ran into a timeout (3s)"))
             (Text "out") (Text "err1err2"))] ∧
  Kill 7 None ∈ (Run.steps (H := Samples.utils) (Samples.started Samples.timed)
                   (Samples.chunks ++ [Run.Timeout])).2.
Proof.
  exact (deadline_ends_run (H := Samples.utils) Samples.world Samples.timed
           (Samples.started Samples.timed) (Samples.startActs Samples.timed) 7
           (Supervisor.initial (Supervisor.mkOptions (Some 0) false false))
           Samples.chunks [Run.Proc (PExit None (Some "SIGKILL"))]
           eq_refl eq_refl ltac:(by repeat constructor) ltac:(done)).
Defined.

(** The input stream fails after three chunks. *)
Lemma input_stream_error_ends_run_witness :
  Run.terminals
    (Run.steps (H := Samples.utils) (Samples.started Samples.piped)
       (Samples.chunks ++ Run.InputError "EPIPE" :: [Run.Proc (PExit (Some 1) None)])).2
  = [Emit (ErrorEv (EObj (mkError "Input stream error: EPIPE")) Undefined Undefined)] ∧
  (Run.step (H := Samples.utils)
     (Run.steps (H := Samples.utils) (Samples.started Samples.piped) Samples.chunks).1
     (Run.InputError "EPIPE")).2
  = [Emit (ErrorEv (EObj (mkError "Input stream error: EPIPE")) Undefined Undefined);
     Kill 7 None].
Proof.
  exact (input_stream_error_ends_run (H := Samples.utils) Samples.world Samples.piped
           (Samples.started Samples.piped) (Samples.startActs Samples.piped) 7
           (Supervisor.initial (Supervisor.mkOptions (Some 0) false false))
           Samples.chunks "EPIPE" [Run.Proc (PExit (Some 1) None)]
           eq_refl eq_refl ltac:(by repeat constructor)).
Defined.

(** The output stream fails after three chunks: without a logger the
    handler throws and the state is as before; with a logger the run
    ends. *)
Lemma output_stream_error_handler_witness :
  Run.step (H := Samples.utils)
    (Run.steps (H := Samples.utils) (Samples.started Samples.piped) Samples.chunks).1
    (Run.OutputError "EIO")
  = ((Run.steps (H := Samples.utils) (Samples.started Samples.piped) Samples.chunks).1,
     [Uncaught (mkError "TypeError")]) ∧
  Run.terminals
    (Run.steps (H := Samples.utils) (Samples.started Samples.pipedLogged)
       (Samples.chunks ++ Run.OutputError "EIO" :: [Run.Proc (PExit (Some 1) None)])).2
  = [Emit (ErrorEv (EObj (mkError "Output stream error: EIO")) Undefined Undefined)].
Proof.
  split.
  - exact (output_stream_error_handler (H := Samples.utils) Samples.world Samples.piped
             (Samples.started Samples.piped) (Samples.startActs Samples.piped) 7
             (Supervisor.initial (Supervisor.mkOptions (Some 0) false false))
             Samples.chunks "EIO" []
             eq_refl eq_refl ltac:(by repeat constructor)).
  - exact (proj1 (output_stream_error_handler (H := Samples.utils) Samples.world
                    Samples.pipedLogged
                    (Samples.started Samples.pipedLogged)
                    (Samples.startActs Samples.pipedLogged) 7
                    (Supervisor.initial (Supervisor.mkOptions (Some 0) false false))
                    Samples.chunks "EIO" [Run.Proc (PExit (Some 1) None)]
                    eq_refl eq_refl ltac:(by repeat constructor))).
Defined.

(** The output stream closes after three chunks.  Without a logger the
    handler throws and the exit ends the run with ['end']; with a
    logger, the exit and the timer in both orders. *)
Lemma output_close_race_witness :
  (Run.step (H := Samples.utils)
     (Run.steps (H := Samples.utils) (Samples.started Samples.piped) Samples.chunks).1
     Run.OutputClose
   = ((Run.steps (H := Samples.utils) (Samples.started Samples.piped) Samples.chunks).1,
      [Uncaught (mkError "TypeError")]) ∧
   Run.terminals
     (Run.steps (H := Samples.utils) (Samples.started Samples.piped)
        (Samples.chunks ++ [Run.OutputClose; Run.Proc (PExit (Some 0) None)])).2
   = [Emit (EndEv Null (Text "err1err2"))]) ∧
  (Run.terminals
     (Run.steps (H := Samples.utils) (Samples.started Samples.pipedLogged)
        (Samples.chunks ++
         [Run.OutputClose; Run.Proc (PExit (Some 0) None); Run.KillTimer])).2
   = [Emit (EndEv Null (Text "err1err2"))] ∧
   Run.terminals
     (Run.steps (H := Samples.utils) (Samples.started Samples.pipedLogged)
        (Samples.chunks ++
         [Run.OutputClose; Run.KillTimer; Run.Proc (PExit (Some 0) None)])).2
   = [Emit (ErrorEv (EObj (mkError "Output stream closed")) Undefined Undefined)]).
Proof.
  split.
  - destruct (output_close_race (H := Samples.utils) Samples.world Samples.piped
                (Samples.started Samples.piped) (Samples.startActs Samples.piped) 7
                (Supervisor.initial (Supervisor.mkOptions (Some 0) false false))
                Samples.chunks (Some 0) None
                eq_refl eq_refl ltac:(by eexists) eq_refl
                ltac:(by repeat constructor) eq_refl eq_refl)
      as (Hthrow & _ & Hexit).
    exact (conj Hthrow Hexit).
  - destruct (output_close_race (H := Samples.utils) Samples.world Samples.pipedLogged
                (Samples.started Samples.pipedLogged)
                (Samples.startActs Samples.pipedLogged) 7
                (Supervisor.initial (Supervisor.mkOptions (Some 0) false false))
                Samples.chunks (Some 0) None
                eq_refl eq_refl ltac:(by eexists) eq_refl
                ltac:(by repeat constructor) eq_refl eq_refl)
      as (_ & Hexit & Htimer & _).
    exact (conj Hexit Htimer).
Defined.

(** A deadline of 3 seconds that passes after a clean exit. *)
Lemma late_deadline_still_kills_witness :
  (Run.step (H := Samples.utils)
     (Run.steps (H := Samples.utils) (Samples.started Samples.timed)
        (Samples.chunks ++ [Run.Proc (PExit (Some 0) None)])).1
     Run.Timeout).2
  = [Kill 7 None].
Proof.
  exact (late_deadline_still_kills (H := Samples.utils) Samples.world Samples.timed
           (Samples.started Samples.timed) (Samples.startActs Samples.timed) 7
           (Supervisor.initial (Supervisor.mkOptions (Some 0) false false))
           Samples.chunks (Some 0) None
           eq_refl eq_refl eq_refl eq_refl ltac:(by repeat constructor)).
Defined.

(** [kill()] after three chunks, and again after the exit and a late
    timer, on a command without logger. *)
Lemma handle_lives_until_completion_witness :
  let live := Run.self (Run.steps (H := Samples.utils)
                          (Samples.started Samples.timed) Samples.chunks).1 in
  let done := Run.self (Run.steps (H := Samples.utils)
                          (Samples.started Samples.timed)
                          (Samples.chunks ++
                           Run.Proc (PExit (Some 0) None) :: [Run.Timeout])).1 in
  Run.kill (H := Samples.utils) None live = inr [Kill 7 (Some "SIGKILL")] ∧
  Run.kill (H := Samples.utils) None done = inl (mkError "TypeError").
Proof.
  destruct (handle_lives_until_completion (H := Samples.utils) Samples.world
              Samples.timed
              (Samples.started Samples.timed) (Samples.startActs Samples.timed) 7
              (Supervisor.initial (Supervisor.mkOptions (Some 0) false false))
              Samples.chunks (PExit (Some 0) None) [Run.Timeout] None (Some 5)
              eq_refl eq_refl ltac:(by repeat constructor) eq_refl)
    as (Hlive & _ & _ & Hdone & _).
  exact (conj Hlive Hdone).
Defined.

(** [renice(10)], then [run]: [nice -n 10]. *)
Lemma renice_then_run_witness :
  ∃ command,
    List.filter Run.isSpawn (Samples.startActs (Run.set_niceness 10 Samples.plain))
    = [Spawn "nice" [TStr "-n"; TNum 10; TStr command; TStr "mf://in.avi";
                     TStr "-o"; TStr "a.avi"]].
Proof.
  exact (proj2 (renice_then_run (H := Samples.utils) Samples.world Samples.plain 10
                  (Run.set_niceness 10 Samples.plain) []
                  (Samples.started (Run.set_niceness 10 Samples.plain))
                  (Samples.startActs (Run.set_niceness 10 Samples.plain))
                  7 (Supervisor.initial (Supervisor.mkOptions (Some 10) false false))
                  eq_refl eq_refl eq_refl eq_refl)).
Defined.

(** The output the constructor adds, without target, and a file: the
    process is spawned, [pipe] throws, and the exit ends the run with
    ['end']. *)
Lemma pipe_to_missing_target_witness :
  Run.terminals
    (Run.trace (H := Samples.utils) Samples.world Samples.untargeted
       (Samples.chunks ++ [Run.Proc (PExit (Some 0) None)]))
  = [Emit (EndEv Null (Text ""))].
Proof.
  exact (proj2 (proj2 (proj2 (proj2 (proj2
           (pipe_to_missing_target (H := Samples.utils) Samples.world
              Samples.untargeted (Samples.started Samples.untargeted)
              (Samples.startActs Samples.untargeted) (mkError "TypeError")
              Samples.chunks (Some 0) None None
              eq_refl eq_refl ltac:(by repeat constructor) eq_refl eq_refl)))))).
Defined.
